(** * feeder-node: buffering, playback state machine and orchestration

    A shallow embedding of the JavaScript sources
      - [src/audio-queue.js]              (module [AudioQueue])
      - [src/abstract-backend.js]         ([BackendState], [BufferType])
      - [src/script-processor-backend.js] (module [ScriptProcessorBackend])
      - [src/audio-worklet-backend.js]    (module [AudioWorkletBackend])
      - [src/feeder-node.js]              (modules [FeederNode] and, for the
                                           worklet processor that the file
                                           also holds, [WorkletProcessor])
      - [src/index.js]                    (module [Index])
    together with the properties of the design document that they decide.

    Conventions.  An object is a record and a method a function from the
    object to the object after the call; a method that can throw returns a
    [Result], and an [async] function a [Call] of a [Promise].  Counts of
    samples and indices are natural numbers; a threshold, which the code
    compares with 0, is an integer; the configuration that [index.js]
    validates is made of JavaScript numbers, [NaN] and the infinities among
    them.  Arrays that JavaScript updates in place are passed in and returned
    with their new content.  What belongs to the browser or to a file that
    is not among these sources is a member of [AudioContext.t] or of
    [Index.Environment], and may return or raise as it pleases. *)

From Stdlib Require Import ZArith QArith Qminmax Lia.
From stdpp Require Import base tactics option list strings.

Close Scope Q_scope.
Open Scope nat_scope.

(** ** Outcomes of JavaScript calls *)

(** What a [throw] carries.  The sources throw plain strings (and one
    [Error]); of a template literal the text is kept and the interpolated
    value left out.  [TypeError] is what the engine raises on a property
    access through [undefined]. *)
Inductive Exception : Type :=
  | TypeError
  | Thrown (msg : string).

(** A call returns, throws, or - for the loop of the model only - exhausts the
    iteration budget it was given. *)
Inductive Result (A : Type) : Type :=
  | Ok (a : A)
  | Throw (e : Exception)
  | Timeout.
Arguments Ok {A} a.
Arguments Throw {A} e.
Arguments Timeout {A}.

Global Instance Result_ret : MRet Result := λ A a, Ok a.
Global Instance Result_bind : MBind Result := λ A B f m,
  match m with
  | Ok a => f a
  | Throw e => Throw e
  | Timeout => Timeout
  end.

(** What the caller of a function holds when the call is over: the value it
    returned, or the exception it raised at the caller.  It is the outcome of
    the functions of the browser, and of a call of an [async] function. *)
Inductive Call (A : Type) : Type :=
  | Returned (a : A)
  | Raised (e : Exception).
Arguments Returned {A} a.
Arguments Raised {A} e.

(** A function of the browser called from the sources: what it raises is
    thrown on. *)
Definition of_call {A : Type} (c : Call A) : Result A :=
  match c with
  | Returned a => Ok a
  | Raised e => Throw e
  end.

(** A promise, by how it ends: resolved, rejected, or never settled. *)
Inductive Promise (A : Type) : Type :=
  | Resolved (a : A)
  | Rejected (e : Exception)
  | Pending.
Arguments Resolved {A} a.
Arguments Rejected {A} e.
Arguments Pending {A}.

(** [x = await p; ...] in the body of an [async] function: a rejection is
    thrown in the body, and behind a promise that is never settled the body
    never goes on. *)
Global Instance Promise_bind : MBind Promise := λ A B f m,
  match m with
  | Resolved a => f a
  | Rejected e => Rejected e
  | Pending => Pending
  end.

(** Synchronous code in the body of an [async] function, or in the executor
    of [new Promise]: what it throws rejects the promise. *)
Definition settle {A : Type} (r : Result A) : Promise A :=
  match r with
  | Ok a => Resolved a
  | Throw e => Rejected e
  | Timeout => Pending
  end.

(** An [async function]: the call returns a promise in every case, and never
    raises; [body] is how that promise ends. *)
Definition async {A : Type} (body : Promise A) : Call (Promise A) := Returned body.

(** [for (let i = 0; i < n; i++) body(i)] over a threaded state. *)
Fixpoint for_each {S : Type} (ixs : list nat) (body : nat → S → Result S) (s : S)
  : Result S :=
  match ixs with
  | [] => Ok s
  | i :: ixs => s' ← body i s; for_each ixs body s'
  end.

Definition for_ {S : Type} (n : nat) (body : nat → S → Result S) (s : S) : Result S :=
  for_each (seq 0 n) body s.

(** [while (cond) body] with an iteration budget. *)
Fixpoint while_ {S : Type} (fuel : nat) (cond : S → bool) (body : S → Result S) (s : S)
  : Result S :=
  if cond s then
    match fuel with
    | 0 => Timeout
    | S fuel => s' ← body s; while_ fuel cond body s'
    end
  else Ok s.

(** ** Typed arrays *)

(** Samples are only ever copied and compared with nothing, so the element
    type of a [Float32Array] is kept abstract: all that is needed is the value
    to which arrays are initialised and [NaN], which is what storing
    [undefined] yields. *)
Class Sample (A : Type) := { zero : A; nan : A }.

(** A [Float32Array]: a sequence of fixed length. *)
Abbreviation Float32Array A := (list A) (only parsing).

Section TypedArray.
Context {A : Type} `{!Sample A}.

(** [new Float32Array(n)] *)
Definition Float32Array_new (n : nat) : Float32Array A := replicate n zero.

(** [a.fill(v, start, end)]: positions [start <= i < end] that exist. *)
Definition fill (v : A) (start end_ : nat) (a : Float32Array A) : Float32Array A :=
  imap (λ i x, if decide (start ≤ i < end_) then v else x) a.

(** [a.fill(v)] *)
Definition fill_all (v : A) (a : Float32Array A) : Float32Array A :=
  fill v 0 (length a) a.

(** [a[i]] as the right-hand side of a store into a [Float32Array]:
    reading past the end gives [undefined], stored as [NaN]. *)
Definition get (a : Float32Array A) (i : nat) : A := default nan (a !! i).

(** [a.slice(start)] *)
Definition slice (start : nat) (a : Float32Array A) : Float32Array A := drop start a.

(** [channels[j][idx] = v].  A missing [channels[j]] is [undefined] and the
    store raises; a store past the end of a typed array is ignored. *)
Definition store (channels : list (Float32Array A)) (j idx : nat) (v : A)
  : Result (list (Float32Array A)) :=
  match channels !! j with
  | None => Throw TypeError
  | Some ch => Ok (<[j := <[idx := v]> ch]> channels)
  end.
End TypedArray.

(** ** [audio-queue.js] *)

Module AudioQueue.
Section AudioQueue.
Context {A : Type} `{!Sample A}.

(** The fields of the object.  [_samplesInQueue] counts frames: the queue
    is fed interleaved data, [_nChannels] samples to the frame, so that the
    quotient [chunk.length / this._nChannels] is exact; it is the division
    of natural numbers here, and the properties below are stated for chunks
    of whole frames. *)
Record t : Type := mk {
  _queue : list (Float32Array A);
  _nChannels : nat;
  _initialCapacity : Z;
  _samplesInQueue : nat
}.

(** [constructor(initialCapacity, nChannels)] *)
Definition new (initialCapacity : Z) (nChannels : nat) : Result t :=
  if decide (initialCapacity ≤ 0)%Z then Throw (Thrown "initialCapacity must be >= 1")
  else if decide (nChannels < 1) then Throw (Thrown "nChannels must >= 1")
  else Ok {| _queue := []; _nChannels := nChannels;
             _initialCapacity := initialCapacity; _samplesInQueue := 0 |}.

(** [get bufferLength()] *)
Definition bufferLength (q : t) : nat := _samplesInQueue q.

(** [getNReadableSamples()] *)
Definition getNReadableSamples (q : t) : nat := _samplesInQueue q.

(** The variables of the [while] loop of [read]. *)
Record loop : Type := Loop {
  l_queue : list (Float32Array A);
  l_samplesRead : nat;
  l_channels : list (Float32Array A)
}.

(** The copy of [samplesToReadFromChunk] frames of [chunk]. *)
Definition copy_chunk (nChannels : nat) (chunk : Float32Array A)
    (samplesToReadFromChunk samplesRead : nat) (channels : list (Float32Array A))
  : Result (list (Float32Array A)) :=
  for_ samplesToReadFromChunk (λ i,
    for_ nChannels (λ j _channels,
      store _channels j (samplesRead + i) (get chunk (i * nChannels + j))))
    channels.

(** [samplesRead < readableSamples && this._queue.length > 0] *)
Definition loop_test (readableSamples : nat) (s : loop) : bool :=
  bool_decide (l_samplesRead s < readableSamples) && bool_decide (0 < length (l_queue s)).

(** One turn of the loop.  ([this._queue[0]] of an empty queue would be
    [undefined]; the test of the loop excludes it.) *)
Definition loop_body (nChannels readableSamples : nat) (s : loop) : Result loop :=
  match l_queue s with
  | [] => Throw TypeError
  | chunk :: rest =>
      let samplesInChunk := length chunk / nChannels in
      let samplesToReadFromChunk :=
        min samplesInChunk (readableSamples - l_samplesRead s) in
      _channels ← copy_chunk nChannels chunk samplesToReadFromChunk
                     (l_samplesRead s) (l_channels s);
      let queue :=
        if decide (samplesToReadFromChunk = samplesInChunk)
        then rest                                                  (* shift() *)
        else slice (samplesToReadFromChunk * nChannels) chunk :: rest in
      Ok {| l_queue := queue;
            l_samplesRead := l_samplesRead s + samplesToReadFromChunk;
            l_channels := _channels |}
  end.

(** [read(nSamples, channels = null)].  The arrays of [channels] are
    written in place; the result of the model is their content after the
    call, which is also what the call returns.  Every turn of the loop
    removes a chunk or is the last, so the length of the queue is budget
    enough: [read_spec] below shows that the call returns. *)
Definition read (nSamples : nat) (channels : option (list (Float32Array A))) (q : t)
  : Result (list (Float32Array A) * t) :=
  let readableSamples := min nSamples (getNReadableSamples q) in
  if decide (readableSamples = 0) then
    match channels with
    | None => Ok (replicate (_nChannels q) (Float32Array_new 0), q)
    | Some channels => Ok ((λ ch, fill zero 0 nSamples ch) <$> channels, q)
    end
  else
    let _channels :=
      match channels with
      | None => replicate (_nChannels q) (Float32Array_new nSamples)
      | Some channels => fill_all zero <$> channels
      end in
    s ← while_ (length (_queue q)) (loop_test readableSamples)
           (loop_body (_nChannels q) readableSamples)
           {| l_queue := _queue q; l_samplesRead := 0; l_channels := _channels |};
    Ok (l_channels s,
        {| _queue := l_queue s; _nChannels := _nChannels q;
           _initialCapacity := _initialCapacity q;
           _samplesInQueue := _samplesInQueue q - l_samplesRead s |}).

(** [write(float32Data)].  The argument is a typed array by its type here,
    so the [ArrayBuffer.isView] guard passes. *)
Definition write (float32Data : Float32Array A) (q : t) : Result ((bool * nat) * t) :=
  let copy := float32Data in
  let samplesInQueue := _samplesInQueue q + length copy / _nChannels q in
  Ok ((false, samplesInQueue),
      {| _queue := _queue q ++ [copy]; _nChannels := _nChannels q;
         _initialCapacity := _initialCapacity q;
         _samplesInQueue := samplesInQueue |}).

(** [clear()] *)
Definition clear (q : t) : t :=
  {| _queue := []; _nChannels := _nChannels q;
     _initialCapacity := _initialCapacity q; _samplesInQueue := 0 |}.
End AudioQueue.
Arguments t A : clear implicits.
Arguments loop A : clear implicits.
End AudioQueue.
(** ** Numbers *)

(** JavaScript numbers: exact rationals for the finite values, with the
    infinities and [NaN].  Rounding and the sign of zero are not modelled;
    the operands of the divisions here are sample counts. *)
Module Number.
Inductive t : Type :=
  | Num (q : Q)
  | Infinity
  | NegInfinity
  | NaN.

Definition of_Z (z : Z) : t := Num (inject_Z z).
Definition of_nat (n : nat) : t := of_Z (Z.of_nat n).

(** [a / b] *)
Definition div (a b : t) : t :=
  match a, b with
  | NaN, _ | _, NaN => NaN
  | Num x, Num y =>
      if Qeq_bool y 0 then
        if Qeq_bool x 0 then NaN
        else if Qlt_le_dec 0 x then Infinity else NegInfinity
      else Num (x / y)
  | Num _, (Infinity | NegInfinity) => Num 0
  | Infinity, Num y => if Qlt_le_dec y 0 then NegInfinity else Infinity
  | NegInfinity, Num y => if Qlt_le_dec y 0 then Infinity else NegInfinity
  | (Infinity | NegInfinity), (Infinity | NegInfinity) => NaN
  end.

(** [Math.max(a, b)] *)
Definition max (a b : t) : t :=
  match a, b with
  | NaN, _ | _, NaN => NaN
  | Infinity, _ | _, Infinity => Infinity
  | NegInfinity, x | x, NegInfinity => x
  | Num x, Num y => Num (Qmax x y)
  end.

(** [Math.min(a, b)] *)
Definition min (a b : t) : t :=
  match a, b with
  | NaN, _ | _, NaN => NaN
  | NegInfinity, _ | _, NegInfinity => NegInfinity
  | Infinity, x | x, Infinity => x
  | Num x, Num y => Num (Qmin x y)
  end.

(** [a < b]: false when either side is [NaN]. *)
Definition ltb (a b : t) : bool :=
  match a, b with
  | NaN, _ | _, NaN => false
  | Num x, Num y => if Qlt_le_dec x y then true else false
  | NegInfinity, (Num _ | Infinity) => true
  | Num _, Infinity => true
  | _, _ => false
  end.

(** [a > b] *)
Definition gtb (a b : t) : bool := ltb b a.

(** Whether [a || d] is [d]: the numbers 0 and [NaN] are falsy. *)
Definition falsy (a : t) : bool :=
  match a with
  | Num q => Qeq_bool q 0
  | NaN => true
  | Infinity | NegInfinity => false
  end.

(** [l.includes(a)] for a list of finite numbers. *)
Definition includes (l : list Q) (a : t) : bool :=
  match a with
  | Num q => existsb (Qeq_bool q) l
  | _ => false
  end.

(** The integer that a number is, if it is one. *)
Definition to_Z (a : t) : option Z :=
  match a with
  | Num q =>
      if decide (Qnum q mod Z.pos (Qden q) = 0)%Z then Some (Qnum q / Z.pos (Qden q))%Z
      else None
  | _ => None
  end.

Definition to_nat (a : t) : option nat :=
  match to_Z a with
  | Some z => if decide (0 ≤ z)%Z then Some (Z.to_nat z) else None
  | None => None
  end.
End Number.


(** ** [abstract-backend.js] *)

Inductive BackendState : Type := UNINITIALIZED | READY | PLAYING | STARVED.

Global Instance BackendState_eq_dec : EqDecision BackendState.
Proof. solve_decision. Defined.

Module BufferType.
Definition RING_BUFFER : string := "ring_buffer".
Definition FIFO_QUEUE : string := "fifo_queue".
End BufferType.

(** ** [util.js] and [ring-buffer.js] *)

(** Modelled from the spec: [writeSilence] of [util.js], which is not among
    the sources.  Section 4.4 has the adapter "fill output with zeroed
    frames" in every state but [Playing]. *)
Definition writeSilence {A : Type} `{!Sample A} (outs : list (Float32Array A))
  : list (Float32Array A) :=
  fill_all zero <$> outs.

(** [ring-buffer.js] is not among the sources either.  The backends reach a
    ring buffer through the same members as the queue; these are taken as
    parameters, for any implementation [R]. *)
Class RingBuffer (A R : Type) := {
  ring_new : Z → nat → Result R;
  ring_bufferLength : R → nat;
  ring_getNReadableSamples : R → nat;
  ring_read : nat → option (list (Float32Array A)) → R → Result (list (Float32Array A) * R);
  ring_write : Float32Array A → R → Result ((bool * nat) * R);
  ring_clear : R → R
}.

(** What [this._buffer] holds: an instance of one of the two classes, with
    the member calls dispatched on it. *)
Module Buffer.
Section Buffer.
Context {A R : Type} `{!Sample A, !RingBuffer A R}.

Inductive t : Type :=
  | Ring (r : R)
  | Queue (q : AudioQueue.t A).

(** [new AudioQueue(...)] or [new RingBuffer(...)], as both backends choose. *)
Definition new (bufferType : string) (bufferLength : Z) (nChannels : nat) : Result t :=
  if decide (bufferType = BufferType.FIFO_QUEUE)
  then q ← AudioQueue.new bufferLength nChannels; Ok (Queue q)
  else r ← ring_new bufferLength nChannels; Ok (Ring r).

Definition bufferLength (b : t) : nat :=
  match b with
  | Ring r => ring_bufferLength r
  | Queue q => AudioQueue.bufferLength q
  end.

Definition getNReadableSamples (b : t) : nat :=
  match b with
  | Ring r => ring_getNReadableSamples r
  | Queue q => AudioQueue.getNReadableSamples q
  end.

Definition read (nSamples : nat) (channels : option (list (Float32Array A))) (b : t)
  : Result (list (Float32Array A) * t) :=
  match b with
  | Ring r => '(out, r') ← ring_read nSamples channels r; Ok (out, Ring r')
  | Queue q => '(out, q') ← AudioQueue.read nSamples channels q; Ok (out, Queue q')
  end.

Definition write (float32Data : Float32Array A) (b : t) : Result ((bool * nat) * t) :=
  match b with
  | Ring r => '(res, r') ← ring_write float32Data r; Ok (res, Ring r')
  | Queue q => '(res, q') ← AudioQueue.write float32Data q; Ok (res, Queue q')
  end.

Definition clear (b : t) : t :=
  match b with
  | Ring r => Ring (ring_clear r)
  | Queue q => Queue (AudioQueue.clear q)
  end.
End Buffer.
Arguments t A R : clear implicits.
End Buffer.

(** ** The [AudioContext] of the browser *)

(** What the sources ask of the [AudioContext] they are given:
    [context.sampleRate], [context.createScriptProcessor(bufferSize,
    numberOfInputChannels, numberOfOutputChannels)], which returns a node or
    raises, and [context.audioWorklet.addModule(path)], which returns a
    promise or - when there is no [context.audioWorklet] - raises.  The
    nodes themselves stay with the browser. *)
Module AudioContext.
Record t : Type := mk {
  sampleRate : Number.t;
  createScriptProcessor : nat → nat → nat → Call ();
  addModule : Call (Promise ())
}.
End AudioContext.

(** ** [script-processor-backend.js] *)

Module ScriptProcessorBackend.
Section ScriptProcessorBackend.
Context {A R : Type} `{!Sample A, !RingBuffer A R}.

(** The fields of the object.  [onStateChange] is the callback that the owner
    installs; its calls are kept, oldest first.  The [ScriptProcessorNode]
    that the constructor asks of the context belongs to the browser, and is
    not kept. *)
Record t : Type := mk {
  batchSize : nat;
  nChannels : nat;
  bufferThreshold : Z;
  _bufferType : string;
  _buffer : Buffer.t A R;
  state : BackendState;
  onStateChange : list BackendState
}.

Definition set_state (s : BackendState) (b : t) : t :=
  mk (batchSize b) (nChannels b) (bufferThreshold b) (_bufferType b) (_buffer b) s
     (onStateChange b).

Definition set_buffer (buf : Buffer.t A R) (b : t) : t :=
  mk (batchSize b) (nChannels b) (bufferThreshold b) (_bufferType b) buf (state b)
     (onStateChange b).

Definition set_bufferThreshold (threshold : Z) (b : t) : t :=
  mk (batchSize b) (nChannels b) threshold (_bufferType b) (_buffer b) (state b)
     (onStateChange b).

(** [this.onStateChange(state)] *)
Definition call_onStateChange (s : BackendState) (b : t) : t :=
  mk (batchSize b) (nChannels b) (bufferThreshold b) (_bufferType b) (_buffer b) (state b)
     (onStateChange b ++ [s]).

(** [constructor(context, nChannels, batchSize, bufferLength, bufferThreshold,
    bufferType)] *)
Definition new (context : AudioContext.t) (nChannels batchSize : nat)
    (bufferLength bufferThreshold : Z) (bufferType : string) : Result t :=
  _ ← of_call (AudioContext.createScriptProcessor context batchSize 0 nChannels);
  buffer ← Buffer.new bufferType bufferLength nChannels;
  Ok {| batchSize := batchSize; nChannels := nChannels;
        bufferThreshold := bufferThreshold; _bufferType := bufferType;
        _buffer := buffer; state := READY; onStateChange := [] |}.

(** [get bufferLength()] *)
Definition bufferLength (b : t) : nat := Buffer.bufferLength (_buffer b).

(** [feed(float32Array)] *)
Definition feed (float32Array : Float32Array A) (b : t) : Result t :=
  '(_, buffer) ← Buffer.write float32Array (_buffer b); Ok (set_buffer buffer b).

(** [getBufferType()] *)
Definition getBufferType (b : t) : string := _bufferType b.

(** [clearBuffer()] *)
Definition clearBuffer (b : t) : t := set_buffer (Buffer.clear (_buffer b)) b.

(** [getCurrentBufferFill()] *)
Definition getCurrentBufferFill (b : t) : nat := Buffer.getNReadableSamples (_buffer b).

(** [_updateState()] *)
Definition _updateState (b : t) : t :=
  let staleState := state b in
  if decide (state b = UNINITIALIZED) then b
  else
    let b :=
      match state b with
      | PLAYING =>
          if decide (Buffer.getNReadableSamples (_buffer b) = 0)
          then set_state STARVED b else b
      | READY | STARVED =>
          if decide (Z.of_nat (Buffer.getNReadableSamples (_buffer b)) >= bufferThreshold b)%Z
          then set_state PLAYING b else b
      | UNINITIALIZED => b
      end in
    if decide (staleState ≠ state b) then call_onStateChange (state b) b else b.

(** [outputBuffer.getChannelData(i)]: an index past the channels of the
    buffer raises. *)
Definition getChannelData (outputBuffer : list (Float32Array A)) (i : nat)
  : Result (Float32Array A) :=
  match outputBuffer !! i with
  | Some ch => Ok ch
  | None => Throw (Thrown "IndexSizeError")
  end.

(** [_playNext(audioProcessingEvent)], on the channels of
    [audioProcessingEvent.outputBuffer]; the arrays are written in place and
    the result has their content after the call. *)
Definition _playNext (outputBuffer : list (Float32Array A)) (b : t)
  : Result (list (Float32Array A) * t) :=
  let b := _updateState b in
  outs ← mapM (getChannelData outputBuffer) (seq 0 (nChannels b));
  if decide (state b = PLAYING) then
    '(outs, buffer) ← Buffer.read (batchSize b) (Some outs) (_buffer b);
    Ok (outs, set_buffer buffer b)
  else Ok (writeSilence outs, b).

(** [setBufferThreshold(threshold)]: the outcome, and the object after the
    call. *)
Definition setBufferThreshold (threshold : Z) (b : t) : Result () * t :=
  if decide (threshold < 0)%Z then
    (Throw (Thrown "bufferThreshold cannot be less than 0"), b)
  else if decide (threshold > Z.of_nat (bufferLength b))%Z then
    (Throw (Thrown "bufferThreshold cannot be greater than bufferLength"), b)
  else (Ok (), set_bufferThreshold threshold b).
End ScriptProcessorBackend.
Arguments t A R : clear implicits.
End ScriptProcessorBackend.

(** ** Messages between the main thread and the audio thread *)

Module Message.
Section Message.
Context {A : Type}.

(** Posted to the processor: [{ command: ..., ... }]. *)
Inductive command : Type :=
  | init (nChannels : nat) (bufferLength : Z) (bufferThreshold : Z) (bufferType : string)
  | feed (data : Float32Array A)
  | setBufferThreshold (threshold : Z)
  | connect
  | getBufferFill (callbackId : option nat)
  | clearBuffer
  | unspecified (command : string).

(** Posted by the processor. *)
Inductive reply : Type :=
  | bufferLengthChange (bufferLength : nat)
  | stateChange (state : BackendState)
  | bufferFillUpdate (bufferFill : nat) (callbackId : option nat)
  | unrecognized (command : string).
End Message.
Arguments command A : clear implicits.
End Message.

(** ** The worklet processor of [feeder-node.js] *)

Module WorkletProcessor.
Section WorkletProcessor.
Context {A R : Type} `{!Sample A, !RingBuffer A R}.

Definition BATCH_SIZE : nat := 128.

(** The fields of the processor; [bufferThreshold] and [_buffer] are
    [undefined] until [_init].  [port] holds what was posted to the main
    thread, oldest first. *)
Record t : Type := mk {
  bufferThreshold : option Z;
  state : BackendState;
  _bufferType : string;
  _buffer : option (Buffer.t A R);
  port : list Message.reply
}.

Definition set_state (s : BackendState) (p : t) : t :=
  mk (bufferThreshold p) s (_bufferType p) (_buffer p) (port p).

Definition set_buffer (buf : Buffer.t A R) (p : t) : t :=
  mk (bufferThreshold p) (state p) (_bufferType p) (Some buf) (port p).

Definition set_bufferThreshold (threshold : Z) (p : t) : t :=
  mk (Some threshold) (state p) (_bufferType p) (_buffer p) (port p).

Definition set_bufferType (bufferType : string) (p : t) : t :=
  mk (bufferThreshold p) (state p) bufferType (_buffer p) (port p).

(** [this.port.postMessage(m)] *)
Definition postMessage (m : Message.reply) (p : t) : t :=
  mk (bufferThreshold p) (state p) (_bufferType p) (_buffer p) (port p ++ [m]).

(** [constructor(options)] *)
Definition new : t :=
  {| bufferThreshold := None; state := UNINITIALIZED;
     _bufferType := BufferType.RING_BUFFER; _buffer := None; port := [] |}.

(** [this._buffer], which raises on a member access while [undefined]. *)
Definition buffer (p : t) : Result (Buffer.t A R) :=
  match _buffer p with
  | Some buf => Ok buf
  | None => Throw TypeError
  end.

(** [n >= this.bufferThreshold]; a comparison with [undefined] is false. *)
Definition reaches (n : nat) (threshold : option Z) : bool :=
  match threshold with
  | Some threshold => bool_decide (Z.of_nat n >= threshold)%Z
  | None => false
  end.

(** [_notifyStateChange()] *)
Definition _notifyStateChange (p : t) : t := postMessage (Message.stateChange (state p)) p.

(** [_updateState()] *)
Definition _updateState (p : t) : Result t :=
  let staleState := state p in
  if decide (state p = UNINITIALIZED) then Ok p
  else
    p ← match state p with
        | PLAYING =>
            buf ← buffer p;
            Ok (if decide (Buffer.getNReadableSamples buf = 0)
                then set_state STARVED p else p)
        | READY | STARVED =>
            buf ← buffer p;
            Ok (if reaches (Buffer.getNReadableSamples buf) (bufferThreshold p)
                then set_state PLAYING p else p)
        | UNINITIALIZED => Ok p
        end;
    Ok (if decide (staleState ≠ state p) then _notifyStateChange p else p).

(** [process(inputs, outputs, parameters)], on [outputs[0]]; it returns
    [true]. *)
Definition process (output : list (Float32Array A)) (p : t)
  : Result (list (Float32Array A) * t) :=
  p ← _updateState p;
  if decide (state p = PLAYING) then
    buf ← buffer p;
    '(output, buf) ← Buffer.read BATCH_SIZE (Some output) buf;
    Ok (output, set_buffer buf p)
  else Ok (writeSilence output, p).

(** [_sendBufferFill(callbackId)] *)
Definition _sendBufferFill (callbackId : option nat) (p : t) : t :=
  match _buffer p with
  | None => p
  | Some buf =>
      postMessage (Message.bufferFillUpdate (Buffer.getNReadableSamples buf) callbackId) p
  end.

(** [_feed(float32Array)] *)
Definition _feed (float32Array : Float32Array A) (p : t) : Result t :=
  buf ← buffer p;
  '((didResize, bufferLength), buf) ← Buffer.write float32Array buf;
  let p := set_buffer buf p in
  let p := if (didResize : bool) then postMessage (Message.bufferLengthChange bufferLength) p
           else p in
  Ok (_sendBufferFill None p).

(** [_init(bufferLength, nChannels, bufferThreshold)] *)
Definition _init (bufferLength : Z) (nChannels : nat) (bufferThreshold : Z) (p : t)
  : Result t :=
  buf ← Buffer.new (_bufferType p) bufferLength nChannels;
  Ok (_notifyStateChange (set_state READY (set_bufferThreshold bufferThreshold
                                            (set_buffer buf p)))).

(** [_onMessage(e)] *)
Definition _onMessage (e : Message.command A) (p : t) : Result t :=
  match e with
  | Message.init nChannels bufferLength bufferThreshold bufferType =>
      _init bufferLength nChannels bufferThreshold (set_bufferType bufferType p)
  | Message.feed data => _feed data p
  | Message.setBufferThreshold threshold => Ok (set_bufferThreshold threshold p)
  | Message.connect => Ok p
  | Message.getBufferFill callbackId => Ok (_sendBufferFill callbackId p)
  | Message.clearBuffer =>
      Ok (match _buffer p with
          | Some buf => set_buffer (Buffer.clear buf) p
          | None => p
          end)
  | Message.unspecified _ => Throw (Thrown "command not specified")
  end.
End WorkletProcessor.
Arguments t A R : clear implicits.
End WorkletProcessor.

(** ** [audio-worklet-backend.js] *)

Module AudioWorkletBackend.
Section AudioWorkletBackend.
Context {A : Type}.

(** The fields of the object.  [port] holds what was posted to the processor
    through [audioNode.port], oldest first; [_bufferFillCallbacks] is the
    set of keys of the map, and the calls of its callbacks and of
    [onStateChange] are kept. *)
Record t : Type := mk {
  nChannels : nat;
  bufferLength : Z;
  batchSize : nat;
  state : BackendState;
  _currentBufferFill : nat;
  _bufferFillCallbacks : list nat;
  _nextCallbackId : nat;
  _bufferType : string;
  port : list (Message.command A);
  onStateChange : list BackendState;
  callbacks : list (nat * nat)
}.

(** [constructor(nChannels, bufferLength, audioNode, bufferType)] *)
Definition new (nChannels : nat) (bufferLength : Z) (bufferType : string) : t :=
  {| nChannels := nChannels; bufferLength := bufferLength; batchSize := 128;
     state := READY; _currentBufferFill := 0; _bufferFillCallbacks := [];
     _nextCallbackId := 1; _bufferType := bufferType; port := [];
     onStateChange := []; callbacks := [] |}.

(** [this.audioNode.port.postMessage(m)] *)
Definition postMessage (m : Message.command A) (b : t) : t :=
  mk (nChannels b) (bufferLength b) (batchSize b) (state b) (_currentBufferFill b)
     (_bufferFillCallbacks b) (_nextCallbackId b) (_bufferType b) (port b ++ [m])
     (onStateChange b) (callbacks b).

(** [feed(float32Array)]; the warning of the other branch is not kept. *)
Definition feed (float32Array : Float32Array A) (b : t) : t :=
  if decide (state b = UNINITIALIZED) then b
  else postMessage (Message.feed float32Array) b.

(** [setPort(port)] *)
Definition setPort (b : t) : t := postMessage Message.connect b.

(** [getCurrentBufferFill()] *)
Definition getCurrentBufferFill (b : t) : nat * t :=
  let b := postMessage (Message.getBufferFill None) b in
  (_currentBufferFill b, b).

(** [setBufferThreshold(threshold)]: the outcome, and the object after the
    call. *)
Definition setBufferThreshold (threshold : Z) (b : t) : Result () * t :=
  if decide (threshold < 0)%Z then
    (Throw (Thrown "bufferThreshold cannot be less than 0"), b)
  else if decide (threshold > bufferLength b)%Z then
    (Throw (Thrown "bufferThreshold cannot be greater than bufferLength"), b)
  else (Ok (), postMessage (Message.setBufferThreshold threshold) b).

(** [_onMessage(e)] *)
Definition _onMessage (e : Message.reply) (b : t) : Result t :=
  match e with
  | Message.bufferLengthChange len =>
      Ok (mk (nChannels b) (Z.of_nat len) (batchSize b) (state b) (_currentBufferFill b)
             (_bufferFillCallbacks b) (_nextCallbackId b) (_bufferType b) (port b)
             (onStateChange b) (callbacks b))
  | Message.stateChange s =>
      Ok (mk (nChannels b) (bufferLength b) (batchSize b) (state b) (_currentBufferFill b)
             (_bufferFillCallbacks b) (_nextCallbackId b) (_bufferType b) (port b)
             (onStateChange b ++ [s]) (callbacks b))
  | Message.bufferFillUpdate bufferFill callbackId =>
      let pending :=
        match callbackId with
        | Some id => bool_decide (id ≠ 0) && bool_decide (id ∈ _bufferFillCallbacks b)
        | None => false
        end in
      Ok (mk (nChannels b) (bufferLength b) (batchSize b) (state b) bufferFill
             (if pending
              then filter (λ id, Some id ≠ callbackId) (_bufferFillCallbacks b)
              else _bufferFillCallbacks b)
             (_nextCallbackId b) (_bufferType b) (port b) (onStateChange b)
             (if pending
              then callbacks b ++ [(default 0 callbackId, bufferFill)]
              else callbacks b))
  | Message.unrecognized _ => Throw (Thrown "command unrecognized")
  end.

(** [getBufferType()] *)
Definition getBufferType (b : t) : string := _bufferType b.

(** [clearBuffer()] *)
Definition clearBuffer (b : t) : t := postMessage Message.clearBuffer b.
End AudioWorkletBackend.
Arguments t A : clear implicits.
End AudioWorkletBackend.

(** ** [feeder-node.js] *)

Module FeederNode.
Section FeederNode.
Context {A R : Type} `{!Sample A, !RingBuffer A R}.

(** The resamplers are outside these sources; the node looks only at which
    class it was given. *)
Inductive Resampler : Type := WorkerResampler | MainThreadResampler.

Inductive Backend : Type :=
  | ScriptProcessor (b : ScriptProcessorBackend.t A R)
  | AudioWorklet (b : AudioWorkletBackend.t A).

(** The hooks [onBackendReady], [onBackendPlaying] and [onBackendStarved],
    named by the state they stand for; their calls are kept. *)
Record t : Type := mk {
  _resampler : Resampler;
  _backend : Backend;
  hooks : list BackendState
}.

(** [constructor(resampler, backend)] *)
Definition new (resampler : Resampler) (backend : Backend) : t :=
  let backend :=
    match resampler, backend with
    | WorkerResampler, AudioWorklet b => AudioWorklet (AudioWorkletBackend.setPort b)
    | _, _ => backend
    end in
  {| _resampler := resampler; _backend := backend; hooks := [] |}.

(** [get bufferLength()] *)
Definition bufferLength (node : t) : Number.t :=
  match _backend node with
  | ScriptProcessor b => Number.of_nat (ScriptProcessorBackend.bufferLength b)
  | AudioWorklet b => Number.of_Z (AudioWorkletBackend.bufferLength b)
  end.

(** [get nChannels()] *)
Definition nChannels (node : t) : nat :=
  match _backend node with
  | ScriptProcessor b => ScriptProcessorBackend.nChannels b
  | AudioWorklet b => AudioWorkletBackend.nChannels b
  end.

(** [get batchSize()] *)
Definition batchSize (node : t) : nat :=
  match _backend node with
  | ScriptProcessor b => ScriptProcessorBackend.batchSize b
  | AudioWorklet b => AudioWorkletBackend.batchSize b
  end.

(** [setBufferThreshold(threshold)] *)
Definition setBufferThreshold (threshold : Z) (node : t) : Result () * t :=
  match _backend node with
  | ScriptProcessor b =>
      let '(r, b) := ScriptProcessorBackend.setBufferThreshold threshold b in
      (r, mk (_resampler node) (ScriptProcessor b) (hooks node))
  | AudioWorklet b =>
      let '(r, b) := AudioWorkletBackend.setBufferThreshold threshold b in
      (r, mk (_resampler node) (AudioWorklet b) (hooks node))
  end.

(** [getCurrentBufferFill()] *)
Definition getCurrentBufferFill (node : t) : Number.t * t :=
  match _backend node with
  | ScriptProcessor b =>
      (Number.of_nat (ScriptProcessorBackend.getCurrentBufferFill b), node)
  | AudioWorklet b =>
      let '(fill, b) := AudioWorkletBackend.getCurrentBufferFill b in
      (Number.of_nat fill, mk (_resampler node) (AudioWorklet b) (hooks node))
  end.

(** [Math.min(1, Math.max(0, currentFill / maxFill))] *)
Definition bufferHealth (currentFill maxFill : Number.t) : Number.t :=
  Number.min (Number.Num 1) (Number.max (Number.Num 0) (Number.div currentFill maxFill)).

(** [getBufferHealth()] *)
Definition getBufferHealth (node : t) : Number.t * t :=
  let '(currentFill, node) := getCurrentBufferFill node in
  let maxFill := bufferLength node in
  (bufferHealth currentFill maxFill, node).

(** [_onResampleComplete(float32Array)] *)
Definition _onResampleComplete (float32Array : Float32Array A) (node : t) : Result t :=
  match _backend node with
  | ScriptProcessor b =>
      b ← ScriptProcessorBackend.feed float32Array b;
      Ok (mk (_resampler node) (ScriptProcessor b) (hooks node))
  | AudioWorklet b =>
      Ok (mk (_resampler node) (AudioWorklet (AudioWorkletBackend.feed float32Array b))
             (hooks node))
  end.

(** [_onBackendStateChange(state)] *)
Definition _onBackendStateChange (state : BackendState) (node : t) : Result t :=
  match state with
  | READY | PLAYING | STARVED =>
      Ok (mk (_resampler node) (_backend node) (hooks node ++ [state]))
  | UNINITIALIZED => Throw (Thrown "unknown state")
  end.

(** [getBufferType()] *)
Definition getBufferType (node : t) : string :=
  match _backend node with
  | ScriptProcessor b => ScriptProcessorBackend.getBufferType b
  | AudioWorklet b => AudioWorkletBackend.getBufferType b
  end.

(** [clearBuffer()] *)
Definition clearBuffer (node : t) : t :=
  match _backend node with
  | ScriptProcessor b =>
      mk (_resampler node) (ScriptProcessor (ScriptProcessorBackend.clearBuffer b)) (hooks node)
  | AudioWorklet b =>
      mk (_resampler node) (AudioWorklet (AudioWorkletBackend.clearBuffer b)) (hooks node)
  end.
End FeederNode.
Arguments t A R : clear implicits.
Arguments Backend A R : clear implicits.
End FeederNode.

(** ** [index.js] *)

Module Index.
Section Index.
Context {A R : Type} `{!Sample A, !RingBuffer A R}.

(** The batch sizes that [validate] accepts. *)
Definition VALID_BATCH_SIZES : list Q := [128; 256; 512; 1024; 2048; 4096; 8192; 16384]%Q.

(** [ConverterType.SRC_SINC_FASTEST] of libsamplerate, an outside package,
    whose converters are numbered from 0 to 4. *)
Definition SRC_SINC_FASTEST : Number.t := Number.Num 2.

(** The members of [options] that are numbers or the buffer type; each may be
    absent.  The three paths play no part in what follows. *)
Record Options : Type := {
  batchSize : option Number.t;
  bufferThreshold : option Number.t;
  bufferLength : option Number.t;
  bufferType : option string;
  resampConverterType : option Number.t;
  inputSampleRate : option Number.t
}.

(** What [index.js] and [createAudioWorklet] take from outside these
    sources: whether [window.AudioWorklet] and [window.WebAssembly] are
    defined; [new AudioWorkletNode(context, "FeederNode", { ...,
    outputChannelCount: [nChannels] })] of the browser; and the two
    resamplers, whose files are not among the sources -
    [createWorkerResampler(nChannels, inputSampleRate, outputSampleRate,
    converterType, ...)], of which it is only known that its result is
    awaited, and [new MainThreadResampler(nChannels, inputSampleRate,
    outputSampleRate)].  Each of them may return or raise; the class
    [AudioWorkletNode] is taken to be defined where [window.AudioWorklet]
    is. *)
Record Environment : Type := {
  AudioWorklet : bool;
  WebAssembly : bool;
  AudioWorkletNode : nat → Call ();
  createWorkerResampler : Number.t → Number.t → Number.t → Number.t → Call (Promise ());
  MainThreadResampler : Number.t → Number.t → Number.t → Call ()
}.

(** [o || d] for numbers: an absent member, 0 and [NaN] are falsy. *)
Definition or_number (o : option Number.t) (d : Number.t) : Number.t :=
  match o with
  | Some v => if Number.falsy v then d else v
  | None => d
  end.

Definition or_string (o : option string) (d : string) : string :=
  match o with
  | Some v => if decide (v = "") then d else v
  | None => d
  end.

(** [validate(nChannels, batchSize, bufferThreshold, bufferLength,
    converterType, inputSampleRate, bufferType)], on numbers: each guard is a
    comparison of JavaScript, false on [NaN]. *)
Definition validate (nChannels : option Number.t)
    (batchSize bufferThreshold bufferLength converterType inputSampleRate : Number.t)
    (bufferType : string) : Result () :=
  match nChannels with
  | None => Throw (Thrown "nChannels is undefined")
  | Some nChannels =>
      if Number.ltb nChannels (Number.Num 1) || Number.gtb nChannels (Number.Num 2) then
        Throw (Thrown "invalid nChannels")
      else if negb (Number.includes VALID_BATCH_SIZES batchSize) then
        Throw (Thrown "invalid batchSize")
      else if Number.ltb bufferLength (Number.Num 16384) then
        Throw (Thrown "buffer length must be greater than 16384")
      else if Number.ltb bufferThreshold (Number.Num 0) then
        Throw (Thrown "bufferThreshold cannot be less than 0")
      else if Number.gtb bufferThreshold bufferLength then
        Throw (Thrown "bufferThreshold cannot be greater than bufferLength")
      else if Number.ltb converterType (Number.Num 0)
              || Number.gtb converterType (Number.Num 4) then
        Throw (Thrown "invalid converterType")
      else if Number.ltb inputSampleRate (Number.Num 1)
              || Number.gtb inputSampleRate (Number.Num 192000) then
        Throw (Thrown "invalid inputSampleRate")
      else if decide (bufferType ≠ BufferType.RING_BUFFER
                      ∧ bufferType ≠ BufferType.FIFO_QUEUE) then
        Throw (Thrown "invalid bufferType")
      else Ok ()
  end.

(** [createAudioWorklet(context, nChannels, bufferLength, bufferThreshold,
    pathToWorklet, bufferType)] of [audio-worklet-backend.js]: the promise
    that it returns.  Its executor calls [addModule]; what that call raises
    rejects the promise.  [resolve] is called at the end of the callback
    given to [then], after the node was made and [init] posted to it: when
    the module does not load, or [new WorkletNode(context)] raises in the
    callback, nothing settles the promise. *)
Definition createAudioWorklet (env : Environment) (context : AudioContext.t)
    (nChannels : nat) (bufferLength bufferThreshold : Z) (bufferType : string)
  : Promise (AudioWorkletBackend.t A) :=
  match AudioContext.addModule context with
  | Raised e => Rejected e
  | Returned (Resolved _) =>
      match AudioWorkletNode env nChannels with
      | Returned _ =>
          Resolved (AudioWorkletBackend.postMessage
                      (Message.init nChannels bufferLength bufferThreshold bufferType)
                      (AudioWorkletBackend.new nChannels bufferLength bufferType))
      | Raised _ => Pending
      end
  | Returned (Rejected _) | Returned Pending => Pending
  end.

(** [createBackend(...)], an [async] function: how its promise ends. *)
Definition createBackend (env : Environment) (context : AudioContext.t)
    (nChannels batchSize : nat) (bufferLength bufferThreshold : Z) (bufferType : string)
  : Promise (FeederNode.Backend A R) :=
  if AudioWorklet env then
    b ← createAudioWorklet env context nChannels bufferLength bufferThreshold bufferType;
    Resolved (FeederNode.AudioWorklet b)
  else
    settle (b ← ScriptProcessorBackend.new context nChannels batchSize bufferLength
                  bufferThreshold bufferType;
            Ok (FeederNode.ScriptProcessor b)).

(** [createResampler(...)], an [async] function: how its promise ends. *)
Definition createResampler (env : Environment)
    (nChannels inputSampleRate outputSampleRate converterType : Number.t)
  : Promise FeederNode.Resampler :=
  if WebAssembly env then
    _ ← match createWorkerResampler env nChannels inputSampleRate outputSampleRate
                converterType with
        | Returned p => p
        | Raised e => Rejected e
        end;
    Resolved FeederNode.WorkerResampler
  else
    settle (_ ← of_call (MainThreadResampler env nChannels inputSampleRate outputSampleRate);
            Ok FeederNode.MainThreadResampler).

(** What [createNode] has brought into being, in order. *)
Inductive resource : Type := backend_created | resampler_created.

(** [createNode(context, nChannels, options)], an [async] function: what the
    call gives its caller, next to the resources created on the way.  The
    constructors are modelled on integers: the result is [None] for a
    configuration that passes validation with a channel count, a buffer
    length or a threshold that is not an integer - a fraction, an infinity
    or [NaN] - and of such a call the model says nothing more. *)
Definition createNode (env : Environment) (context : AudioContext.t)
    (nChannels : option Number.t) (options : Options)
  : option (list resource * Call (Promise (FeederNode.t A R))) :=
  let batchSize :=
    or_number (batchSize options) (Number.Num (if AudioWorklet env then 128 else 512)) in
  let bufferThreshold := or_number (bufferThreshold options) (Number.Num 4096) in
  let bufferLength := or_number (bufferLength options) (Number.Num 192000) in
  let bufferType := or_string (bufferType options) BufferType.RING_BUFFER in
  let converterType :=
    match resampConverterType options with
    | None => SRC_SINC_FASTEST
    | Some c => c
    end in
  let inputSampleRate :=
    or_number (inputSampleRate options) (AudioContext.sampleRate context) in
  let outputSampleRate := AudioContext.sampleRate context in
  match validate nChannels batchSize bufferThreshold bufferLength converterType
          inputSampleRate bufferType with
  | Throw e => Some ([], async (Rejected e))
  | Timeout => Some ([], async Pending)
  | Ok _ =>
      match nChannels with
      | Some N =>
          match Number.to_nat N, Number.to_nat batchSize, Number.to_Z bufferLength,
                Number.to_Z bufferThreshold with
          | Some n, Some bs, Some len, Some thr =>
              Some
                match createBackend env context n bs len thr bufferType with
                | Rejected e => ([], async (Rejected e))
                | Pending => ([], async Pending)
                | Resolved backend =>
                    match createResampler env N inputSampleRate outputSampleRate
                            converterType with
                    | Rejected e => ([backend_created], async (Rejected e))
                    | Pending => ([backend_created], async Pending)
                    | Resolved resampler =>
                        ([backend_created; resampler_created],
                         async (Resolved (FeederNode.new resampler backend)))
                    end
                end
          | _, _, _, _ => None
          end
      | None => None
      end
  end.

(** [createQueueNode(context, nChannels, options)]: it sets
    [options.bufferType] - on the object it was given - and returns what
    [createNode] returns. *)
Definition createQueueNode (env : Environment) (context : AudioContext.t)
    (nChannels : option Number.t) (options : Options)
  : option (list resource * Call (Promise (FeederNode.t A R))) :=
  let options :=
    {| batchSize := batchSize options; bufferThreshold := bufferThreshold options;
       bufferLength := bufferLength options; bufferType := Some BufferType.FIFO_QUEUE;
       resampConverterType := resampConverterType options;
       inputSampleRate := inputSampleRate options |} in
  createNode env context nChannels options.
End Index.
End Index.

(** ** Vocabulary of the properties: the queue as a sequence of frames *)

Section Vocabulary.
Context {A : Type} `{!Sample A}.
Implicit Types (q : AudioQueue.t A) (chs : list (list A)) (data chunk : list A).

(** The first [T] samples of channel [j] of interleaved [data]: sample [i]
    of channel [j] is element [i * N + j]. *)
Definition frames (N j T : nat) data : list A :=
  (λ i, get data (i * N + j)) <$> seq 0 T.

(** Channel [j] of interleaved [data] with [N] channels. *)
Definition channel_of (N j : nat) data : list A :=
  frames N j (length data / N) data.

(** Interleaved data for [N] channels: whole frames only. *)
Definition interleaved (N : nat) data : Prop := (N | length data).

Global Instance interleaved_dec N data : Decision (interleaved N data).
Proof. unfold interleaved. apply _. Defined.

(** Channel [j < N] of [chs] receives the first [T] samples of channel [j]
    of [data] from position [off] on; stores past the end are dropped. *)
Definition overlay (N off T : nat) data chs : list (list A) :=
  imap (λ j ch, if decide (j < N)
                then list_inserts off (frames N j T data) ch else ch) chs.

(** The interleaved samples waiting in the queue, oldest first. *)
Definition contents q : list A := concat (AudioQueue._queue q).

(** The representation invariant: at least one channel, whole frames only,
    and a counter that agrees with what is stored. *)
Record valid q : Prop := {
  valid_nChannels : 0 < AudioQueue._nChannels q;
  valid_chunks : Forall (interleaved (AudioQueue._nChannels q)) (AudioQueue._queue q);
  valid_count :
    AudioQueue._samplesInQueue q * AudioQueue._nChannels q = length (contents q)
}.

(** Output arrays passed to [read] cover the channels of the queue. *)
Definition covers q (channels : option (list (list A))) : Prop :=
  match channels with
  | None => True
  | Some chs => AudioQueue._nChannels q ≤ length chs
  end.

(** What [read] returns, in closed form. *)
Definition read_output (nSamples : nat) (channels : option (list (list A))) q
  : list (list A) :=
  let N := AudioQueue._nChannels q in
  let r := nSamples `min` AudioQueue._samplesInQueue q in
  match channels with
  | None =>
      if decide (r = 0) then replicate N []
      else overlay N 0 r (contents q) (replicate N (replicate nSamples zero))
  | Some chs =>
      if decide (r = 0) then fill zero 0 nSamples <$> chs
      else overlay N 0 r (contents q) (fill_all zero <$> chs)
  end.

(** A call of one of the three methods of the queue. *)
Inductive op : Type :=
  | Write (float32Data : list A)
  | Read (nSamples : nat) (channels : option (list (list A)))
  | Clear.

(** What such a call returns. *)
Inductive returned : Type :=
  | RWrite (r : bool * nat)
  | RRead (out : list (list A))
  | RClear.

(** One call as a client sees it: the call, [getNReadableSamples()] before
    and after it, and what it returned. *)
Record event : Type := Event {
  ev_op : op;
  ev_before : nat;
  ev_after : nat;
  ev_ret : returned
}.

(** The call on a queue, and a sequence of calls with its record of events. *)
Definition call (o : op) q : Result (returned * AudioQueue.t A) :=
  match o with
  | Write data => '(r, q') ← AudioQueue.write data q; Ok (RWrite r, q')
  | Read n channels => '(out, q') ← AudioQueue.read n channels q; Ok (RRead out, q')
  | Clear => Ok (RClear, AudioQueue.clear q)
  end.

Fixpoint run (ops : list op) q : Result (list event * AudioQueue.t A) :=
  match ops with
  | [] => Ok ([], q)
  | o :: ops =>
      '(r, q') ← call o q;
      '(evs, q'') ← run ops q';
      Ok (Event o (AudioQueue.getNReadableSamples q)
                  (AudioQueue.getNReadableSamples q') r :: evs, q'')
  end.

(** Calls that the queue for [N] channels can serve: interleaved data is
    written, and output arrays, when passed, are one per channel at least. *)
Definition op_callable (N : nat) (o : op) : Prop :=
  match o with
  | Write data => interleaved N data
  | Read n None => True
  | Read n (Some chs) => N ≤ length chs
  | Clear => True
  end.

(** Calls whose output arrays, when passed, are also long enough for the
    request. *)
Definition op_ok (N : nat) (o : op) : Prop :=
  op_callable N o
  ∧ match o with
    | Read n (Some chs) => Forall (λ ch, n ≤ length ch) chs
    | _ => True
    end.

(** The call is [clear()]. *)
Definition is_clear (o : op) : bool := if o is Clear then true else false.

(** Everything written, in write order. *)
Definition written (ops : list op) : list A :=
  concat ((λ o, if o is Write data then data else []) <$> ops).

(** The samples of channel [j] that the reads handed over, in read order:
    of each returned array the part that was taken from the queue. *)
Definition delivered (j : nat) (evs : list event) : list A :=
  concat ((λ e, if ev_ret e is RRead out
                then take (ev_before e - ev_after e) (default [] (out !! j))
                else []) <$> evs).

(** Frames per channel written. *)
Definition frames_written (N : nat) (evs : list event) : nat :=
  sum_list ((λ e, if ev_op e is Write data then length data / N else 0) <$> evs).

(** Frames per channel taken by the reads, and dropped by [clear]. *)
Definition frames_read (evs : list event) : nat :=
  sum_list ((λ e, if ev_op e is Read _ _ then ev_before e - ev_after e else 0) <$> evs).

Definition frames_discarded (evs : list event) : nat :=
  sum_list ((λ e, if ev_op e is Clear then ev_before e - ev_after e else 0) <$> evs).

(** What each call may be observed to do. *)
Definition event_ok (N : nat) (e : event) : Prop :=
  match ev_op e, ev_ret e with
  | Write data, RWrite (didResize, len) =>
      didResize = false ∧ len = ev_after e ∧ ev_after e = ev_before e + length data / N
  | Read n _, RRead out =>
      ev_after e + n `min` ev_before e = ev_before e
  | Clear, RClear => ev_after e = 0
  | _, _ => False
  end.
End Vocabulary.

(** Samples with integer values, for running the model. *)
Inductive pcm : Type := V (z : Z) | NaN.
Global Instance pcm_sample : Sample pcm := {| zero := V 0; nan := NaN |}.

(** An instance for runs on the queue alone: with [ring-buffer.js] absent no
    ring buffer comes into being. *)
Global Instance no_ring {A : Type} : RingBuffer A Empty_set := {|
  ring_new _ _ := Throw (Thrown "ring-buffer.js is absent");
  ring_bufferLength (r : Empty_set) := match r with end;
  ring_getNReadableSamples (r : Empty_set) := match r with end;
  ring_read _ _ (r : Empty_set) := match r with end;
  ring_write _ (r : Empty_set) := match r with end;
  ring_clear (r : Empty_set) := r
|}.

(** ** Vocabulary of the properties: playback state, health, configuration *)

(** The state machine in the words of the design document (section 4.3). *)
Definition transition (current_state : BackendState) (readable_length : nat)
    (threshold : Z) : BackendState :=
  match current_state with
  | UNINITIALIZED => UNINITIALIZED
  | PLAYING => if decide (readable_length = 0) then STARVED else PLAYING
  | READY | STARVED =>
      if decide (threshold ≤ Z.of_nat readable_length)%Z then PLAYING else current_state
  end.

(** The state-change notifications of one update. *)
Definition notifications (old new : BackendState) : list BackendState :=
  if decide (old = new) then [] else [new].


(** Numbers that stand for the same value. *)
Definition same_number (a b : Number.t) : Prop :=
  match a, b with
  | Number.Num x, Number.Num y => Qeq x y
  | Number.Infinity, Number.Infinity
  | Number.NegInfinity, Number.NegInfinity
  | Number.NaN, Number.NaN => True
  | _, _ => False
  end.

(** The order of the numbers: the rationals between the two infinities.
    [NaN] is below nothing and above nothing. *)
Definition number_le (a b : Number.t) : Prop :=
  match a, b with
  | Number.Num x, Number.Num y => (x <= y)%Q
  | Number.NegInfinity, (Number.Num _ | Number.Infinity | Number.NegInfinity) => True
  | (Number.Num _ | Number.Infinity), Number.Infinity => True
  | _, _ => False
  end.

(** A number that is not below [lo], and one that is not above [hi]: on the
    right side of the bound, or not comparable with it. *)
Definition not_below (lo x : Number.t) : Prop :=
  x = Number.NaN ∨ lo = Number.NaN ∨ number_le lo x.
Definition not_above (hi x : Number.t) : Prop :=
  x = Number.NaN ∨ hi = Number.NaN ∨ number_le x hi.

(** One of the finite numbers of a list. *)
Definition one_of (l : list Q) (x : Number.t) : Prop :=
  ∃ q, x = Number.Num q ∧ Exists (Qeq q) l.

(** The configurations that [validate] lets pass. *)
Record in_range (nChannels : option Number.t)
    (batchSize bufferThreshold bufferLength converterType inputSampleRate : Number.t)
    (bufferType : string) : Prop := {
  range_nChannels :
    ∃ n, nChannels = Some n
      ∧ not_below (Number.Num 1) n ∧ not_above (Number.Num 2) n;
  range_batchSize : one_of [128; 256; 512; 1024; 2048; 4096; 8192; 16384]%Q batchSize;
  range_bufferLength : not_below (Number.Num 16384) bufferLength;
  range_bufferThreshold :
    not_below (Number.Num 0) bufferThreshold ∧ not_above bufferLength bufferThreshold;
  range_converterType :
    not_below (Number.Num 0) converterType ∧ not_above (Number.Num 4) converterType;
  range_inputSampleRate :
    not_below (Number.Num 1) inputSampleRate
    ∧ not_above (Number.Num 192000) inputSampleRate;
  range_bufferType : bufferType = "ring_buffer" ∨ bufferType = "fifo_queue"
}.

(** The ranges as the design document lists them (section 6). *)
Record in_listed_range (nChannels : option Number.t)
    (batchSize bufferThreshold bufferLength converterType inputSampleRate : Number.t)
  : Prop := {
  listed_nChannels :
    ∃ n, nChannels = Some n ∧ number_le (Number.Num 1) n ∧ number_le n (Number.Num 2);
  listed_batchSize : one_of [128; 256; 512; 1024; 2048; 4096; 8192; 16384]%Q batchSize;
  listed_bufferLength : number_le (Number.Num 16384) bufferLength;
  listed_bufferThreshold :
    number_le (Number.Num 0) bufferThreshold ∧ number_le bufferThreshold bufferLength;
  listed_converterType :
    number_le (Number.Num 0) converterType ∧ number_le converterType (Number.Num 4);
  listed_inputSampleRate :
    ∃ q, inputSampleRate = Number.Num q ∧ (0 < q)%Q ∧ (q <= 192000)%Q
}.

(** What [createNode] hands to [validate]: the options with the defaults in
    the place of absent and of falsy members. *)
Definition effective_batchSize (env : Index.Environment) (options : Index.Options)
  : Number.t :=
  Index.or_number (Index.batchSize options)
    (Number.Num (if Index.AudioWorklet env then 128 else 512)).
Definition effective_bufferThreshold (options : Index.Options) : Number.t :=
  Index.or_number (Index.bufferThreshold options) (Number.Num 4096).
Definition effective_bufferLength (options : Index.Options) : Number.t :=
  Index.or_number (Index.bufferLength options) (Number.Num 192000).
Definition effective_bufferType (options : Index.Options) : string :=
  Index.or_string (Index.bufferType options) "ring_buffer".
Definition effective_converterType (options : Index.Options) : Number.t :=
  default (Number.Num 2) (Index.resampConverterType options).
Definition effective_inputSampleRate (context : AudioContext.t) (options : Index.Options)
  : Number.t :=
  Index.or_number (Index.inputSampleRate options) (AudioContext.sampleRate context).

(** Silence in the shape of the given output arrays. *)
Definition silence {A : Type} `{!Sample A} (outs : list (list A)) : list (list A) :=
  (λ ch, replicate (length ch) zero) <$> outs.

(** A call that threw. *)
Definition threw {X : Type} (outcome : Result X) : Prop := ∃ e, outcome = Throw e.

(** ** Concrete inputs *)

(** A run on a stereo queue: two chunks, a first read smaller than the first
    chunk, reads with and without output arrays, a read past the end. *)
Definition stereo_run : list (op (A:=pcm)) :=
  [ Write [V 1; V 2; V 3; V 4; V 5; V 6];
    Read 2 None;
    Write [V 7; V 8];
    Read 3 (Some [[V 9; V 9; V 9]; [V 9; V 9; V 9]]);
    Read 3 None ].

(** The same with a [clear] before the last write. *)
Definition stereo_run_cleared : list (op (A:=pcm)) :=
  [ Write [V 1; V 2; V 3; V 4; V 5; V 6];
    Read 2 None;
    Clear;
    Write [V 7; V 8];
    Read 3 (Some [[V 9; V 9; V 9]; [V 9; V 9; V 9]]) ].

(** A script-processor backend on a stereo queue, for batches of 4. *)
Definition stereo_backend (st : BackendState) (threshold : Z) (q : AudioQueue.t pcm)
  : ScriptProcessorBackend.t pcm Empty_set :=
  ScriptProcessorBackend.mk 4 2 threshold "fifo_queue" (Buffer.Queue q) st [].

Definition empty_queue : AudioQueue.t pcm := AudioQueue.mk [] 2 16384 0.
Definition loaded_queue : AudioQueue.t pcm :=
  AudioQueue.mk [[V 1; V 2; V 3; V 4; V 5; V 6]] 2 16384 3.

(** A node over that backend. *)
Definition stereo_node (q : AudioQueue.t pcm) : FeederNode.t pcm Empty_set :=
  FeederNode.mk FeederNode.MainThreadResampler
    (FeederNode.ScriptProcessor (stereo_backend PLAYING 2 q)) [].


(** A context like those of the browsers: as the Web Audio API has it,
    [createScriptProcessor] takes the buffer sizes 0, 256, 512, ..., 16384
    and from one to 32 channels, and raises an [IndexSizeError] otherwise;
    the worklet module loads. *)
Definition browser : AudioContext.t :=
  {| AudioContext.sampleRate := Number.Num 44100;
     AudioContext.createScriptProcessor bufferSize numberOfInputChannels
         numberOfOutputChannels :=
       if bool_decide (Z.of_nat bufferSize ∈ [0; 256; 512; 1024; 2048; 4096; 8192; 16384]%Z)
          && bool_decide (0 < numberOfInputChannels + numberOfOutputChannels)
          && bool_decide (numberOfInputChannels ≤ 32 ∧ numberOfOutputChannels ≤ 32)
       then Returned ()
       else Raised (Thrown "IndexSizeError");
     AudioContext.addModule := Returned (Resolved ()) |}.

(** A browser without AudioWorklet and WebAssembly, in which the resampler
    of the main thread can be constructed. *)
Definition script_env : Index.Environment :=
  {| Index.AudioWorklet := false; Index.WebAssembly := false;
     Index.AudioWorkletNode _ := Raised (Thrown "AudioWorkletNode is not defined");
     Index.createWorkerResampler _ _ _ _ := Raised (Thrown "WebAssembly is not defined");
     Index.MainThreadResampler _ _ _ := Returned () |}.

(** Options that leave everything to the defaults. *)
Definition no_options : Index.Options :=
  {| Index.batchSize := None; Index.bufferThreshold := None; Index.bufferLength := None;
     Index.bufferType := None; Index.resampConverterType := None;
     Index.inputSampleRate := None |}.

(** ** Vocabulary of further properties *)

Section MoreVocabulary.
Context {A R : Type} `{!Sample A, !RingBuffer A R}.

(** The queue with another [_initialCapacity]. *)
Definition with_capacity (initialCapacity : Z) (q : AudioQueue.t A) : AudioQueue.t A :=
  AudioQueue.mk (AudioQueue._queue q) (AudioQueue._nChannels q) initialCapacity
    (AudioQueue._samplesInQueue q).

(** The calls that an owner makes on a script-processor backend. *)
Inductive backend_op : Type :=
  | Feed (float32Array : list A)
  | Pull (outputBuffer : list (list A))
  | ClearBuffer
  | SetBufferThreshold (threshold : Z).

(** One such call; a [setBufferThreshold] that throws leaves the object as it
    was, and the owner goes on with it. *)
Definition backend_call (o : backend_op) (b : ScriptProcessorBackend.t A R)
  : Result (ScriptProcessorBackend.t A R) :=
  match o with
  | Feed data => ScriptProcessorBackend.feed data b
  | Pull outputBuffer =>
      '(_, b) ← ScriptProcessorBackend._playNext outputBuffer b; Ok b
  | ClearBuffer => Ok (ScriptProcessorBackend.clearBuffer b)
  | SetBufferThreshold threshold =>
      Ok (ScriptProcessorBackend.setBufferThreshold threshold b).2
  end.

Fixpoint backend_run (ops : list backend_op) (b : ScriptProcessorBackend.t A R)
  : Result (ScriptProcessorBackend.t A R) :=
  match ops with
  | [] => Ok b
  | o :: ops => b ← backend_call o b; backend_run ops b
  end.

(** Calls within the contract of a backend for [N] channels: interleaved data
    is fed, and a pull comes with one output array per channel. *)
Definition backend_op_ok (N : nat) (o : backend_op) : Prop :=
  match o with
  | Feed data => interleaved N data
  | Pull outputBuffer => length outputBuffer = N
  | _ => True
  end.

(** The number of pulls among the calls. *)
Definition pulls (ops : list backend_op) : nat :=
  sum_list ((λ o, match o with Pull _ => 1 | _ => 0 end) <$> ops).

(** The owner's handler for the backend's notifications, called with each of
    them in turn. *)
Fixpoint on_state_changes (states : list BackendState) (node : FeederNode.t A R)
  : Result (FeederNode.t A R) :=
  match states with
  | [] => Ok node
  | s :: states =>
      node ← FeederNode._onBackendStateChange s node; on_state_changes states node
  end.

(** The calls that reach an audio-worklet backend: its methods, and the
    messages of its processor. *)
Inductive worklet_backend_op : Type :=
  | WFeed (float32Array : list A)
  | WSetPort
  | WGetCurrentBufferFill
  | WSetBufferThreshold (threshold : Z)
  | WOnMessage (e : Message.reply)
  | WClearBuffer.

(** One such call; a call that throws leaves the object as it was. *)
Definition worklet_backend_call (o : worklet_backend_op) (b : AudioWorkletBackend.t A)
  : AudioWorkletBackend.t A :=
  match o with
  | WFeed data => AudioWorkletBackend.feed data b
  | WSetPort => AudioWorkletBackend.setPort b
  | WGetCurrentBufferFill => (AudioWorkletBackend.getCurrentBufferFill b).2
  | WSetBufferThreshold threshold => (AudioWorkletBackend.setBufferThreshold threshold b).2
  | WOnMessage e =>
      match AudioWorkletBackend._onMessage e b with
      | Ok b' => b'
      | _ => b
      end
  | WClearBuffer => AudioWorkletBackend.clearBuffer b
  end.

Definition worklet_backend_run (ops : list worklet_backend_op) (b : AudioWorkletBackend.t A)
  : AudioWorkletBackend.t A :=
  foldl (λ b o, worklet_backend_call o b) b ops.

(** What was fed, in order: among the calls, and among the messages posted to
    the processor. *)
Definition fed (ops : list worklet_backend_op) : list (list A) :=
  omap (λ o, match o with WFeed data => Some data | _ => None end) ops.

Definition feed_messages (port : list (Message.command A)) : list (list A) :=
  omap (λ m, match m with Message.feed data => Some data | _ => None end) port.

(** The state changes among the messages of the processor. *)
Definition state_changes (ops : list worklet_backend_op) : list BackendState :=
  omap (λ o, match o with WOnMessage (Message.stateChange s) => Some s | _ => None end) ops.

(** The options with every zero number taken out. *)
Definition without_zeros (options : Index.Options) : Index.Options :=
  let nonzero (o : option Number.t) :=
    match o with
    | Some (Number.Num q) => if Qeq_bool q 0 then None else o
    | _ => o
    end in
  {| Index.batchSize := nonzero (Index.batchSize options);
     Index.bufferThreshold := nonzero (Index.bufferThreshold options);
     Index.bufferLength := nonzero (Index.bufferLength options);
     Index.bufferType := Index.bufferType options;
     Index.resampConverterType := Index.resampConverterType options;
     Index.inputSampleRate := nonzero (Index.inputSampleRate options) |}.
End MoreVocabulary.

(** The state after [k] changes of a backend that started Ready, and the
    notifications of those changes: Playing, Starved, Playing, ... *)
Definition state_at (k : nat) : BackendState :=
  match k with
  | 0 => READY
  | S i => if Nat.even i then PLAYING else STARVED
  end.

Definition expected_log (k : nat) : list BackendState :=
  (λ i, state_at (S i)) <$> seq 0 k.

(** ** More concrete inputs *)

(** The samples of [loaded_queue], held in two chunks. *)
Definition split_queue : AudioQueue.t pcm :=
  AudioQueue.mk [[V 1; V 2]; [V 3; V 4; V 5; V 6]] 2 16384 3.

(** Calls on a queue that holds three stereo frames. *)
Definition loaded_run : list (op (A:=pcm)) :=
  [ Read 2 None; Write [V 7; V 8]; Read 3 None ].

(** The output arrays of a stereo pull, with what the last batch left in
    them. *)
Definition stereo_output : list (list pcm) := [[V 9; V 9; V 9; V 9]; [V 9; V 9; V 9; V 9]].

(** A stereo backend for batches of 256, the smallest that [browser] takes,
    and the output arrays of its pulls, with what the last batch left in
    them. *)
Definition browser_backend (st : BackendState) (threshold : Z) (q : AudioQueue.t pcm)
  : ScriptProcessorBackend.t pcm Empty_set :=
  ScriptProcessorBackend.mk 256 2 threshold "fifo_queue" (Buffer.Queue q) st [].

Definition browser_output : list (list pcm) := replicate 2 (replicate 256 (V 9)).

(** A session on that backend: a pull before any data, three frames fed and
    played, a pull on the drained queue, then more data. *)
Definition stereo_session : list (backend_op (A:=pcm)) :=
  [ Pull browser_output;
    Feed [V 1; V 2; V 3; V 4; V 5; V 6];
    Pull browser_output;
    Pull browser_output;
    ClearBuffer;
    SetBufferThreshold 0;
    Feed [V 7; V 8];
    Pull browser_output ].

(** A worklet processor on a stereo queue, and the backend on the main
    thread. *)
Definition stereo_processor : WorkletProcessor.t pcm Empty_set :=
  WorkletProcessor.mk (Some 2%Z) READY "fifo_queue" (Some (Buffer.Queue loaded_queue)) [].

Definition stereo_worklet_backend : AudioWorkletBackend.t pcm :=
  AudioWorkletBackend.new 2 16384 "fifo_queue".

(** Options that ask for a ring buffer and for a threshold of 0. *)
Definition queue_options : Index.Options :=
  {| Index.batchSize := Some (Number.Num 1024);
     Index.bufferThreshold := Some (Number.Num 0);
     Index.bufferLength := None; Index.bufferType := Some "ring_buffer";
     Index.resampConverterType := None; Index.inputSampleRate := None |}.

(** The backend that [createQueueNode] makes of them for two channels. *)
Definition created_backend : ScriptProcessorBackend.t pcm Empty_set :=
  ScriptProcessorBackend.mk 1024 2 4096 "fifo_queue"
    (Buffer.Queue (AudioQueue.mk [] 2 192000 0)) READY [].

(** * Proofs *)

(** ** Loops *)

Section Loops.
Context {S : Type}.
Implicit Types (body : nat → S → Result S) (s : S).

Lemma for_each_app ixs1 ixs2 body s :
  for_each (ixs1 ++ ixs2) body s = s' ← for_each ixs1 body s; for_each ixs2 body s'.
Proof.
  revert s. induction ixs1 as [|i ixs1 IH]; intros s; simpl; [done|].
  destruct (body i s); simpl; auto.
Qed.

Lemma for_0 body s : for_ 0 body s = Ok s.
Proof. done. Qed.

Lemma for_S n body s : for_ (Datatypes.S n) body s = s' ← for_ n body s; body n s'.
Proof.
  unfold for_. rewrite seq_S, for_each_app. simpl.
  destruct (for_each (seq 0 n) body s) as [s'| |]; simpl; [|done..].
  by destruct (body n s').
Qed.
End Loops.

(** ** Deinterleaving *)

Section Frames.
Context {A : Type} `{!Sample A}.
Implicit Types (q : AudioQueue.t A) (chs : list (list A)) (data chunk : list A).

Lemma length_frames N j T data : length (frames N j T data) = T.
Proof. unfold frames. by rewrite length_fmap, length_seq. Qed.

Lemma lookup_frames N j T data i :
  i < T → frames N j T data !! i = Some (get data (i * N + j)).
Proof.
  intros Hi. unfold frames. by rewrite list_lookup_fmap, lookup_seq_lt.
Qed.

Lemma frames_S N j T data :
  frames N j (S T) data = frames N j T data ++ [get data (T * N + j)].
Proof. unfold frames. by rewrite seq_S, fmap_app. Qed.

Lemma frames_add N j T1 T2 data :
  frames N j (T1 + T2) data = frames N j T1 data ++ frames N j T2 (drop (T1 * N) data).
Proof.
  unfold frames. rewrite seq_app, fmap_app. f_equal.
  apply list_eq; intros i. rewrite !list_lookup_fmap.
  destruct (decide (i < T2)) as [Hi|Hi].
  - rewrite !lookup_seq_lt by done. simpl. unfold get.
    rewrite lookup_drop. do 3 f_equal. lia.
  - by rewrite !lookup_seq_ge by lia.
Qed.

Lemma frames_app_l N j T d1 d2 :
  j < N → T * N ≤ length d1 → frames N j T (d1 ++ d2) = frames N j T d1.
Proof.
  intros Hj HT. apply list_eq; intros i.
  destruct (decide (i < T)) as [Hi|Hi].
  - rewrite !lookup_frames by done. unfold get.
    rewrite lookup_app_l; [done|]. nia.
  - rewrite !lookup_ge_None_2; [done|rewrite length_frames; lia..].
Qed.

Lemma frames_app N j c T d1 d2 :
  j < N → length d1 = c * N →
  frames N j (c + T) (d1 ++ d2) = frames N j c d1 ++ frames N j T d2.
Proof.
  intros Hj Hlen. rewrite frames_add, frames_app_l by (done || lia).
  by rewrite <-Hlen, drop_app_length.
Qed.

Lemma take_frames N j T T' data :
  T ≤ T' → take T (frames N j T' data) = frames N j T data.
Proof.
  intros HT. unfold frames. rewrite <-fmap_take. f_equal.
  replace T' with (T + (T' - T)) by lia. by rewrite seq_app, take_app_length' by (by rewrite length_seq).
Qed.

Lemma length_channel_of N j data : length (channel_of N j data) = length data / N.
Proof. apply length_frames. Qed.

Lemma channel_of_nil N j : channel_of N j [] = [].
Proof. unfold channel_of. simpl. by rewrite Nat.Div0.div_0_l. Qed.

Lemma channel_of_app N j d1 d2 :
  j < N → interleaved N d1 →
  channel_of N j (d1 ++ d2) = channel_of N j d1 ++ channel_of N j d2.
Proof.
  intros Hj [c Hc]. unfold channel_of.
  rewrite length_app, Hc, Nat.div_add_l, Nat.div_mul by lia.
  by apply frames_app.
Qed.

Lemma div_sub_mul a T N : 0 < N → (a - T * N) / N = a / N - T.
Proof.
  intros HN. destruct (decide (T * N ≤ a)) as [Ha|Ha].
  - replace a with ((a - T * N) + T * N) at 2 by lia.
    rewrite Nat.div_add by lia. lia.
  - replace (a - T * N) with 0 by lia. rewrite Nat.Div0.div_0_l.
    assert (a / N < T); [|lia]. apply Nat.Div0.div_lt_upper_bound. lia.
Qed.

Lemma channel_of_drop N j T data :
  0 < N → channel_of N j (drop (T * N) data) = drop T (channel_of N j data).
Proof.
  intros HN. unfold channel_of. rewrite length_drop, div_sub_mul by done.
  destruct (decide (T ≤ length data / N)) as [HT|HT].
  - pose proof (frames_add N j T (length data / N - T) data) as E.
    replace (T + (length data / N - T)) with (length data / N) in E by lia.
    rewrite E, drop_app_length'; [|by rewrite length_frames].
    reflexivity.
  - replace (length data / N - T) with 0 by lia.
    rewrite (drop_ge (frames _ _ _ _)); [reflexivity|rewrite length_frames; lia].
Qed.

(** One frame: the inner [for] loop over the channels. *)
Lemma store_frame N idx (v : nat → A) chs :
  N ≤ length chs →
  for_ N (λ j _channels, store _channels j idx (v j)) chs
  = Ok (imap (λ j ch, if decide (j < N) then <[idx := v j]> ch else ch) chs).
Proof.
  induction N as [|N IH]; intros HN.
  - rewrite for_0. f_equal. apply list_eq; intros i.
    rewrite list_lookup_imap. by destruct (chs !! i).
  - rewrite for_S, IH by lia. simpl. unfold store.
    rewrite list_lookup_imap.
    destruct (lookup_lt_is_Some_2 chs N) as [ch Hch]; [lia|].
    rewrite Hch. simpl. case_decide; [lia|]. f_equal.
    apply list_eq; intros i. rewrite list_lookup_insert, !list_lookup_imap, length_imap.
    case_decide as Hi.
    + destruct Hi as [-> _]. rewrite Hch. simpl. case_decide; [done|lia].
    + destruct (chs !! i) eqn:Hi'; simpl; [|done].
      repeat case_decide; try done; try lia.
Qed.

(** One chunk: channel [j] receives the first [T] samples of channel [j] of
    the chunk, from position [samplesRead] on. *)
Lemma copy_chunk_spec N chunk T samplesRead chs :
  N ≤ length chs →
  AudioQueue.copy_chunk N chunk T samplesRead chs
  = Ok (imap (λ j ch, if decide (j < N)
                      then list_inserts samplesRead (frames N j T chunk) ch
                      else ch) chs).
Proof.
  intros HN. unfold AudioQueue.copy_chunk. induction T as [|T IH].
  - rewrite for_0. f_equal. apply list_eq; intros i.
    rewrite list_lookup_imap. destruct (chs !! i); simpl; [|done].
    by case_decide.
  - rewrite for_S, IH. cbn -[frames].
    rewrite store_frame by (by rewrite length_imap). f_equal.
    apply list_eq; intros i. rewrite !list_lookup_imap.
    destruct (chs !! i) as [ch|]; cbn -[frames]; [|done].
    case_decide; [|done]. f_equal.
    rewrite frames_S, list_inserts_app_l, length_frames. simpl.
    f_equal. lia.
Qed.
End Frames.

(** ** The read loop and the queue operations *)

Section QueueSpec.
Context {A : Type} `{!Sample A}.
Implicit Types (q : AudioQueue.t A) (chs : list (list A)) (data chunk : list A).

Lemma length_overlay N off T data chs : length (overlay N off T data chs) = length chs.
Proof. apply length_imap. Qed.

Lemma overlay_0 N off data chs : overlay N off 0 data chs = chs.
Proof.
  apply list_eq; intros i. unfold overlay. rewrite list_lookup_imap.
  destruct (chs !! i); simpl; [|done]. by case_decide.
Qed.

Lemma overlay_app_l N off T d1 d2 chs :
  T * N ≤ length d1 → overlay N off T (d1 ++ d2) chs = overlay N off T d1 chs.
Proof.
  intros HT. unfold overlay. apply imap_ext; intros j ch _.
  case_decide; [|done]. by rewrite frames_app_l.
Qed.

Lemma overlay_app N off c T d1 d2 chs :
  length d1 = c * N →
  overlay N (off + c) T d2 (overlay N off c d1 chs) = overlay N off (c + T) (d1 ++ d2) chs.
Proof.
  intros Hlen. apply list_eq; intros j. unfold overlay.
  rewrite !list_lookup_imap. destruct (chs !! j) as [ch|]; cbn -[frames]; [|done].
  case_decide; [|done]. f_equal.
  rewrite frames_app, list_inserts_app_l, length_frames by done.
  f_equal. lia.
Qed.

Lemma while_exit {S : Type} fuel (cond : S → bool) body s :
  cond s = false → while_ fuel cond body s = Ok s.
Proof. intros Hc. destruct fuel; simpl; by rewrite Hc. Qed.

Lemma while_step {S : Type} fuel (cond : S → bool) body s :
  cond s = true →
  while_ (Datatypes.S fuel) cond body s = s' ← body s; while_ fuel cond body s'.
Proof. intros Hc. simpl. by rewrite Hc. Qed.

Lemma loop_body_spec N readable chunk rest samplesRead chs :
  N ≤ length chs →
  AudioQueue.loop_body N readable (AudioQueue.Loop (chunk :: rest) samplesRead chs)
  = let T := (length chunk / N) `min` (readable - samplesRead) in
    Ok (AudioQueue.Loop
          (if decide (T = length chunk / N) then rest else slice (T * N) chunk :: rest)
          (samplesRead + T) (overlay N samplesRead T chunk chs)).
Proof.
  intros Hchs. unfold AudioQueue.loop_body; simpl.
  by rewrite copy_chunk_spec.
Qed.

(** The [while] loop of [read]: it runs to [readableSamples] within its
    budget, hands the frames over in order and leaves the rest queued. *)
Lemma read_loop_spec N readable queue :
  0 < N → Forall (interleaved N) queue →
  ∀ fuel samplesRead chs,
    length queue ≤ fuel → N ≤ length chs → samplesRead ≤ readable →
    (readable - samplesRead) * N ≤ length (concat queue) →
    ∃ queue',
      while_ fuel (AudioQueue.loop_test readable) (AudioQueue.loop_body N readable)
        (AudioQueue.Loop queue samplesRead chs)
      = Ok (AudioQueue.Loop queue' readable
              (overlay N samplesRead (readable - samplesRead) (concat queue) chs))
      ∧ concat queue' = drop ((readable - samplesRead) * N) (concat queue)
      ∧ Forall (interleaved N) queue'.
Proof.
  intros HN Hwf. induction Hwf as [|chunk rest [c Hc] Hrest IH];
    intros fuel sr chs Hfuel Hchs Hsr Hdata.
  - assert (sr = readable) as -> by (simpl in Hdata; nia).
    exists []. rewrite while_exit.
    + by rewrite Nat.sub_diag, overlay_0.
    + unfold AudioQueue.loop_test; simpl. rewrite bool_decide_eq_false_2; [done|lia].
  - destruct (decide (sr = readable)) as [->|Hne].
    { exists (chunk :: rest). rewrite while_exit.
      - rewrite Nat.sub_diag, overlay_0. split; [done|]. split; [done|].
        constructor; [by exists c|done].
      - unfold AudioQueue.loop_test; simpl.
        rewrite bool_decide_eq_false_2; [done|lia]. }
    destruct fuel as [|fuel]; [simpl in Hfuel; lia|].
    rewrite while_step; cycle 1.
    { unfold AudioQueue.loop_test; simpl.
      rewrite !bool_decide_eq_true_2; [done|lia..]. }
    rewrite loop_body_spec by done. cbn zeta. rewrite Hc, Nat.div_mul by lia.
    cbn [mbind Result_bind].
    rewrite concat_cons, length_app, Hc in Hdata.
    case_decide as Hfull.
    + (* the whole chunk is consumed *)
      assert (c ≤ readable - sr) as Hle by lia.
      rewrite Hfull.
      destruct (IH fuel (sr + c) (overlay N sr c chunk chs)) as (queue' & Hrun & Hcat & Hwf');
        [simpl in Hfuel; lia|by rewrite length_overlay|lia|nia|].
      exists queue'. rewrite Hrun. split; [|split; [|done]].
      * do 2 f_equal. rewrite overlay_app by done. f_equal. lia.
      * rewrite Hcat, concat_cons, drop_app_ge by (rewrite Hc; nia).
        f_equal. rewrite Hc. nia.
    + (* the chunk is consumed in part: the read is complete *)
      assert (c `min` (readable - sr) = readable - sr) as -> by lia.
      assert ((readable - sr) * N ≤ length chunk) by (rewrite Hc; nia).
      replace (sr + (readable - sr)) with readable by lia.
      exists (slice ((readable - sr) * N) chunk :: rest). rewrite while_exit.
      * split; [|split].
        -- by rewrite concat_cons, overlay_app_l.
        -- unfold slice. by rewrite !concat_cons, drop_app_le.
        -- constructor; [|done]. unfold interleaved, slice.
           rewrite length_drop, Hc. exists (c - (readable - sr)). nia.
      * unfold AudioQueue.loop_test; simpl.
        rewrite bool_decide_eq_false_2; [done|lia].
Qed.

Lemma new_valid initialCapacity nChannels q :
  AudioQueue.new initialCapacity nChannels = Ok q →
  valid q ∧ AudioQueue._nChannels q = nChannels ∧ contents q = []
  ∧ AudioQueue._samplesInQueue q = 0.
Proof.
  unfold AudioQueue.new. repeat case_decide; intros [= <-]; try done.
  split; [|done]. split; simpl; [lia|constructor|done].
Qed.

Lemma write_spec data q :
  valid q → interleaved (AudioQueue._nChannels q) data →
  ∃ q', AudioQueue.write data q
        = Ok ((false, AudioQueue._samplesInQueue q
                      + length data / AudioQueue._nChannels q), q')
    ∧ valid q'
    ∧ AudioQueue._nChannels q' = AudioQueue._nChannels q
    ∧ AudioQueue.getNReadableSamples q'
      = AudioQueue._samplesInQueue q + length data / AudioQueue._nChannels q
    ∧ contents q' = contents q ++ data.
Proof.
  intros [HN Hwf Hcount] [c Hc]. eexists. split; [reflexivity|].
  unfold contents in *. simpl. rewrite concat_app. simpl. rewrite app_nil_r.
  repeat split; try done; simpl.
  - apply Forall_app; split; [done|]. constructor; [by exists c|constructor].
  - unfold contents. simpl. rewrite concat_app, length_app. simpl.
    rewrite app_nil_r, Hc, Nat.div_mul by lia. lia.
Qed.

Lemma clear_spec q :
  valid q →
  valid (AudioQueue.clear q)
  ∧ AudioQueue._nChannels (AudioQueue.clear q) = AudioQueue._nChannels q
  ∧ AudioQueue.getNReadableSamples (AudioQueue.clear q) = 0
  ∧ contents (AudioQueue.clear q) = [].
Proof. intros [HN _ _]. repeat split; done. Qed.

(** [read] returns; it takes [min nSamples available] frames from the front
    of the queue and leaves the remaining frames in place. *)
Lemma read_spec nSamples channels q :
  valid q → covers q channels →
  let r := nSamples `min` AudioQueue._samplesInQueue q in
  ∃ q', AudioQueue.read nSamples channels q = Ok (read_output nSamples channels q, q')
    ∧ valid q'
    ∧ AudioQueue._nChannels q' = AudioQueue._nChannels q
    ∧ AudioQueue._initialCapacity q' = AudioQueue._initialCapacity q
    ∧ AudioQueue._samplesInQueue q' = AudioQueue._samplesInQueue q - r
    ∧ contents q' = drop (r * AudioQueue._nChannels q) (contents q).
Proof.
  intros [HN Hwf Hcount] Hcov r.
  unfold AudioQueue.read, read_output, AudioQueue.getNReadableSamples. fold r.
  case_decide as Hr.
  - exists q. rewrite Hr. simpl. rewrite Nat.sub_0_r.
    split; [by destruct channels|]. done.
  - set (init := match channels with
                 | None => replicate _ _
                 | Some chs => fill_all zero <$> chs
                 end).
    destruct (read_loop_spec (AudioQueue._nChannels q) r (AudioQueue._queue q) HN Hwf
                (length (AudioQueue._queue q)) 0 init)
      as (queue' & Hrun & Hcat & Hwf'); [done| |lia| |].
    { subst init. destruct channels; simpl in *.
      - by rewrite length_fmap.
      - by rewrite length_replicate. }
    { fold (contents q). rewrite <-Hcount. nia. }
    rewrite Nat.sub_0_r in *. rewrite Hrun. cbn [mbind Result_bind].
    eexists. split.
    { f_equal. f_equal. cbn [AudioQueue.l_channels]. subst init.
      by destruct channels. }
    cbn. repeat split; try done.
    unfold contents in *. simpl. rewrite Hcat, length_drop. nia.
Qed.

(** A read of fewer frames than the oldest chunk holds trims that chunk at
    the front and leaves the rest of it at the head of the queue. *)
Lemma read_front_trim nSamples channels chunk rest N cap count :
  0 < nSamples → nSamples < length chunk / N → nSamples ≤ count →
  covers (AudioQueue.mk (chunk :: rest) N cap count) channels →
  ∃ out, AudioQueue.read nSamples channels (AudioQueue.mk (chunk :: rest) N cap count)
         = Ok (out, AudioQueue.mk (slice (nSamples * N) chunk :: rest) N cap
                      (count - nSamples)).
Proof.
  intros Hn Hlt Hcount Hcov. unfold AudioQueue.read, AudioQueue.getNReadableSamples.
  cbn [AudioQueue._samplesInQueue AudioQueue._queue AudioQueue._nChannels
       AudioQueue._initialCapacity].
  replace (nSamples `min` count) with nSamples by lia.
  case_decide; [lia|]. cbn [length]. rewrite while_step; cycle 1.
  { unfold AudioQueue.loop_test; simpl. rewrite !bool_decide_eq_true_2; [done|lia..]. }
  rewrite loop_body_spec; cycle 1.
  { destruct channels; simpl in *; [by rewrite length_fmap|by rewrite length_replicate]. }
  cbn zeta. rewrite Nat.sub_0_r.
  replace ((length chunk / N) `min` nSamples) with nSamples by lia.
  case_decide; [lia|]. cbn [mbind Result_bind]. rewrite while_exit.
  - cbn. eexists. reflexivity.
  - unfold AudioQueue.loop_test; simpl. rewrite bool_decide_eq_false_2; [done|lia].
Qed.
Lemma fill_all_zero (ch : list A) : fill_all zero ch = replicate (length ch) zero.
Proof.
  apply list_eq; intros i. unfold fill_all, fill. rewrite list_lookup_imap.
  destruct (ch !! i) eqn:Hi; simpl.
  - apply lookup_lt_Some in Hi. rewrite lookup_replicate_2 by done.
    case_decide; [done|lia].
  - apply lookup_ge_None in Hi. symmetry. apply lookup_replicate_None. lia.
Qed.

Lemma fill_zero_prefix n (ch : list A) :
  fill zero 0 n ch = replicate (n `min` length ch) zero ++ drop n ch.
Proof.
  apply list_eq; intros i. unfold fill. rewrite list_lookup_imap.
  destruct (decide (i < length ch)) as [Hi|Hi].
  - destruct (lookup_lt_is_Some_2 ch i) as [x Hx]; [done|]. rewrite Hx. simpl.
    case_decide.
    + by rewrite lookup_app_l, lookup_replicate_2 by (rewrite ?length_replicate; lia).
    + rewrite lookup_app_r, length_replicate, lookup_drop by (rewrite length_replicate; lia).
      rewrite <-Hx. f_equal. lia.
  - rewrite !lookup_ge_None_2; [done| |lia].
    rewrite length_app, length_replicate, length_drop. lia.
Qed.

Lemma inserts_silence (l : list A) L :
  length l ≤ L → list_inserts 0 l (replicate L zero) = l ++ replicate (L - length l) zero.
Proof.
  intros Hl. replace L with (length l + (L - length l)) at 1 by lia.
  rewrite replicate_add. apply list_inserts_0_r. by rewrite length_replicate.
Qed.

Lemma valid_available q :
  valid q → length (contents q) / AudioQueue._nChannels q = AudioQueue._samplesInQueue q.
Proof. intros [HN _ Hcount]. rewrite <-Hcount. apply Nat.div_mul. lia. Qed.

Lemma valid_interleaved q : valid q → interleaved (AudioQueue._nChannels q) (contents q).
Proof. intros [_ _ Hcount]. eexists. by rewrite <-Hcount. Qed.

Lemma frames_contents q j r :
  valid q → r ≤ AudioQueue._samplesInQueue q →
  frames (AudioQueue._nChannels q) j r (contents q)
  = take r (channel_of (AudioQueue._nChannels q) j (contents q)).
Proof.
  intros Hq Hr. unfold channel_of. rewrite valid_available by done.
  by rewrite take_frames.
Qed.

(** Channel [j] of what [read] returns when it allocates the arrays and
    frames are available: the frames taken from the queue, then zeros up to
    [nSamples]. *)
Lemma read_output_alloc nSamples q j :
  valid q → j < AudioQueue._nChannels q →
  let r := nSamples `min` AudioQueue._samplesInQueue q in
  0 < r →
  read_output nSamples None q !! j
  = Some (take r (channel_of (AudioQueue._nChannels q) j (contents q))
          ++ replicate (nSamples - r) zero).
Proof.
  intros Hq Hj r Hr. unfold read_output. fold r. case_decide; [lia|].
  unfold overlay. rewrite list_lookup_imap, lookup_replicate_2 by done.
  cbn -[frames]. case_decide; [|lia]. f_equal.
  rewrite inserts_silence, length_frames by (rewrite length_frames; lia).
  by rewrite frames_contents by (done || lia).
Qed.

(** When nothing is available the allocated arrays are empty. *)
Lemma read_output_alloc_empty nSamples q :
  nSamples `min` AudioQueue._samplesInQueue q = 0 →
  read_output nSamples None q = replicate (AudioQueue._nChannels q) [].
Proof. intros Hr. unfold read_output. rewrite Hr. by case_decide. Qed.

(** Channel [j] of an array passed to [read]: the frames taken from the
    queue, then zeros up to [nSamples]; a longer array is zeroed to its end
    when frames were available and left as it was beyond [nSamples] when
    none were. *)
Lemma read_output_supplied nSamples chs q j ch :
  valid q → j < AudioQueue._nChannels q →
  chs !! j = Some ch → nSamples ≤ length ch →
  let r := nSamples `min` AudioQueue._samplesInQueue q in
  read_output nSamples (Some chs) q !! j
  = Some (take r (channel_of (AudioQueue._nChannels q) j (contents q))
          ++ replicate (nSamples - r) zero
          ++ (if decide (r = 0) then drop nSamples ch
              else replicate (length ch - nSamples) zero)).
Proof.
  intros Hq Hj Hch Hlen r. unfold read_output. fold r. case_decide as Hr.
  - rewrite list_lookup_fmap, Hch. simpl. f_equal.
    rewrite Hr, take_0, Nat.sub_0_r, fill_zero_prefix. simpl.
    f_equal. f_equal. lia.
  - unfold overlay. rewrite list_lookup_imap, list_lookup_fmap, Hch.
    cbn -[frames]. case_decide; [|lia]. f_equal.
    rewrite fill_all_zero, inserts_silence, length_frames by (rewrite length_frames; lia).
    rewrite frames_contents by (done || lia). f_equal.
    rewrite <-replicate_add. f_equal. lia.
Qed.

Lemma length_channel_contents q j :
  valid q →
  length (channel_of (AudioQueue._nChannels q) j (contents q))
  = AudioQueue._samplesInQueue q.
Proof. intros Hq. by rewrite length_channel_of, valid_available. Qed.
End QueueSpec.

(** ** Sequences of queue operations *)

Section QueueRuns.
Context {A : Type} `{!Sample A}.
Implicit Types (q : AudioQueue.t A) (chs : list (list A)) (data chunk : list A).

Lemma call_spec N o q :
  valid q → AudioQueue._nChannels q = N → op_callable N o →
  ∃ r q', call o q = Ok (r, q') ∧ valid q' ∧ AudioQueue._nChannels q' = N
    ∧ event_ok N (Event o (AudioQueue.getNReadableSamples q)
                          (AudioQueue.getNReadableSamples q') r)
    ∧ match o, r with
      | Write data, _ => contents q' = contents q ++ data
      | Read n channels, RRead out =>
          let k := n `min` AudioQueue._samplesInQueue q in
          contents q' = drop (k * N) (contents q)
          ∧ (op_ok N o → ∀ j, j < N →
               take k (default [] (out !! j)) = take k (channel_of N j (contents q)))
      | Clear, _ => contents q' = []
      | _, _ => False
      end.
Proof.
  intros Hq <- Hop. destruct o as [data|n channels|]; cbn [call op_callable] in *.
  - destruct (write_spec data q Hq Hop) as (q' & -> & Hq' & HN & Hlen & Hc).
    simpl. exists (RWrite (false, AudioQueue._samplesInQueue q
                                  + length data / AudioQueue._nChannels q)), q'.
    unfold event_ok. simpl. rewrite Hlen. done.
  - assert (covers q channels) as Hcov by (destruct channels; simpl; tauto).
    destruct (read_spec n channels q Hq Hcov) as (q' & -> & Hq' & HN & _ & Hlen & Hc).
    simpl. exists (RRead (read_output n channels q)), q'.
    unfold event_ok, AudioQueue.getNReadableSamples. simpl. rewrite Hlen.
    do 3 (split; [done|]). split; [lia|]. split; [done|]. intros [_ Hall] j Hj.
    set (k := n `min` AudioQueue._samplesInQueue q).
    destruct (decide (k = 0)) as [->|Hk]; [by rewrite !take_0|].
    assert (length (take k (channel_of (AudioQueue._nChannels q) j (contents q))) = k) as Hk'.
    { rewrite length_take, length_channel_contents by done. lia. }
    destruct channels as [chs|].
    + destruct (lookup_lt_is_Some_2 chs j) as [ch Hch]; [lia|].
      rewrite (read_output_supplied n chs q j ch) by
        (done || by eapply (Forall_lookup_1 _ _ _ _ Hall)).
      simpl. fold k. by rewrite take_app_length'.
    + rewrite read_output_alloc by (done || lia). simpl. fold k.
      by rewrite take_app_length'.
  - exists RClear, (AudioQueue.clear q). by destruct (clear_spec q Hq) as (? & ? & ? & ?).
Qed.

Lemma written_cons_write data ops :
  written (A:=A) (Write data :: ops) = data ++ written ops.
Proof. done. Qed.

(** Runs without [clear]: what the reads hand over, followed by what is still
    queued, is what was queued at the start followed by what was written. *)
Lemma run_stream N ops : ∀ q,
  valid q → AudioQueue._nChannels q = N →
  Forall (op_ok N) ops → Forall (λ o, is_clear o = false) ops →
  ∃ evs q', run ops q = Ok (evs, q') ∧ valid q' ∧ AudioQueue._nChannels q' = N
    ∧ ∀ j, j < N →
        delivered j evs ++ channel_of N j (contents q')
        = channel_of N j (contents q) ++ channel_of N j (written ops).
Proof.
  induction ops as [|o ops IH]; intros q Hq HN Hops Hnc.
  - exists [], q. do 3 (split; [done|]). intros j Hj.
    unfold written. simpl. by rewrite channel_of_nil, app_nil_r.
  - apply Forall_cons in Hops as [Ho Hops]. apply Forall_cons in Hnc as [Hc Hnc].
    destruct (call_spec N o q Hq HN (proj1 Ho)) as (r & q1 & Hcall & Hq1 & HN1 & Hev & Hshape).
    destruct (IH q1 Hq1 HN1 Hops Hnc) as (evs & q' & Hrun & Hq' & HN' & Hstream).
    cbn [run]. rewrite Hcall. cbn [mbind Result_bind]. rewrite Hrun. cbn [mbind Result_bind].
    eexists _, q'. split; [done|]. split; [done|]. split; [done|].
    intros j Hj. specialize (Hstream j Hj).
    destruct o as [data|n channels|]; [| |done].
    + destruct r as [r| |]; [|done..].
      unfold delivered in *. cbn [fmap list_fmap concat ev_ret app].
      rewrite Hstream, Hshape, written_cons_write.
      rewrite !channel_of_app; [by rewrite app_assoc|lia|apply Ho|lia|].
      subst N; by apply valid_interleaved.
    + destruct r as [|out|]; [done| |done]. destruct Hshape as [Hcont Hout].
      unfold delivered in *. cbn [fmap list_fmap concat ev_ret ev_before ev_after].
      pose proof (read_spec n channels q Hq) as Hrd.
      assert (AudioQueue.getNReadableSamples q - AudioQueue.getNReadableSamples q1
              = n `min` AudioQueue._samplesInQueue q) as ->.
      { assert (covers q channels) as Hcov
          by (destruct Ho as [Ho _]; destruct channels; simpl in *; subst; tauto).
        destruct (Hrd Hcov) as (q1' & Hread & _ & _ & _ & Hlen & _).
        simpl in Hcall. rewrite Hread in Hcall. simpl in Hcall.
        injection Hcall as _ <-. unfold AudioQueue.getNReadableSamples. lia. }
      rewrite <-app_assoc, Hstream, Hcont, (Hout Ho) by done.
      rewrite channel_of_drop by (subst N; apply Hq).
      rewrite app_assoc, take_drop. by unfold written.
Qed.

(** Any run: the counter accounts for every frame written, read or dropped,
    and every call behaves as [event_ok] says. *)
Lemma run_accounting N ops : ∀ q,
  valid q → AudioQueue._nChannels q = N → Forall (op_callable N) ops →
  ∃ evs q', run ops q = Ok (evs, q') ∧ valid q' ∧ AudioQueue._nChannels q' = N
    ∧ AudioQueue.getNReadableSamples q' + frames_read evs + frames_discarded evs
      = AudioQueue.getNReadableSamples q + frames_written N evs
    ∧ Forall (event_ok N) evs.
Proof.
  induction ops as [|o ops IH]; intros q Hq HN Hops.
  - exists [], q. do 3 (split; [done|]). split; [|constructor].
    unfold frames_read, frames_discarded, frames_written. simpl. lia.
  - apply Forall_cons in Hops as [Ho Hops].
    destruct (call_spec N o q Hq HN Ho) as (r & q1 & Hcall & Hq1 & HN1 & Hev & _).
    destruct (IH q1 Hq1 HN1 Hops) as (evs & q' & Hrun & Hq' & HN' & Hacc & Hevs).
    cbn [run]. rewrite Hcall. cbn [mbind Result_bind]. rewrite Hrun. cbn [mbind Result_bind].
    eexists _, q'. do 3 (split; [done|]). split; [|by constructor].
    unfold frames_read, frames_discarded, frames_written in *.
    cbn [fmap list_fmap sum_list sum_list_with ev_op ev_before ev_after].
    unfold event_ok in Hev. cbn [ev_op ev_ret ev_before ev_after] in Hev.
    destruct o as [data|n channels|], r as [[didResize len]|out|]; try done; unfold id in *; lia.
Qed.

(** C1 (AudioQueue.read, AudioQueue.write).  On a queue for N channels, after
    any sequence of writes of interleaved data and of reads - with or without
    output arrays, of any sizes, among them a first read smaller than the
    first chunk - every call returns; every read takes [min n available]
    frames; and for each channel the frames the reads have taken, in read
    order, followed by the frames still queued, are exactly that channel of
    the concatenation of the written data: nothing is lost, duplicated or
    reordered.  A read of fewer frames than the oldest chunk holds trims that
    chunk at the front and leaves the rest of it first in the queue, for the
    reads that follow. *)
Theorem fifo_reads_reconstruct_writes initialCapacity N (ops : list op) q0 :
  AudioQueue.new (A:=A) initialCapacity N = Ok q0 →
  Forall (op_ok N) ops → Forall (λ o, is_clear o = false) ops →
  (∃ evs q', run ops q0 = Ok (evs, q')
     ∧ Forall (event_ok N) evs
     ∧ ∀ j, j < N →
         delivered j evs ++ channel_of N j (contents q') = channel_of N j (written ops))
  ∧ (∀ nSamples channels chunk rest count,
       0 < nSamples → nSamples < length chunk / N → nSamples ≤ count →
       covers (AudioQueue.mk (chunk :: rest) N initialCapacity count) channels →
       ∃ out,
         AudioQueue.read nSamples channels
           (AudioQueue.mk (chunk :: rest) N initialCapacity count)
         = Ok (out, AudioQueue.mk (slice (nSamples * N) chunk :: rest) N initialCapacity
                      (count - nSamples))).
Proof.
  intros Hnew Hops Hnc. split; [|intros; by apply read_front_trim].
  destruct (new_valid _ _ _ Hnew) as (Hq0 & HN & Hempty & _).
  destruct (run_stream N ops q0 Hq0 HN Hops Hnc) as (evs & q' & Hrun & _ & _ & Hstream).
  destruct (run_accounting N ops q0 Hq0 HN) as (evs' & q'' & Hrun' & _ & _ & _ & Hevs).
  { eapply Forall_impl; [exact Hops|]. by intros o [Ho _]. }
  rewrite Hrun in Hrun'. injection Hrun' as <- <-.
  exists evs, q'. split; [done|]. split; [done|]. intros j Hj.
  by rewrite Hstream, Hempty, channel_of_nil.
Qed.

(** C9 (AudioQueue.write, AudioQueue.read, AudioQueue.clear).  After any
    sequence of write, read and clear calls on a new queue, every call has
    returned; [getNReadableSamples()] plus the frames taken by the reads plus
    the frames dropped by [clear] is the number of frames written, and it is
    the number of frames actually stored; every read took exactly
    [min n available] frames; the channel count is the one given at
    construction; every write returned [false] with the updated readable
    length. *)
Theorem queue_accounting initialCapacity N (ops : list op) q0 :
  AudioQueue.new (A:=A) initialCapacity N = Ok q0 →
  Forall (op_callable N) ops →
  ∃ evs q', run ops q0 = Ok (evs, q')
    ∧ AudioQueue._nChannels q' = N
    ∧ AudioQueue.getNReadableSamples q' + frames_read evs + frames_discarded evs
      = frames_written N evs
    ∧ AudioQueue.getNReadableSamples q' * N = length (contents q')
    ∧ Forall (event_ok N) evs.
Proof.
  intros Hnew Hops. destruct (new_valid _ _ _ Hnew) as (Hq0 & HN & _ & Hzero).
  destruct (run_accounting N ops q0 Hq0 HN Hops) as (evs & q' & Hrun & Hq' & HN' & Hacc & Hevs).
  exists evs, q'. do 2 (split; [done|]). split; [|split; [|done]].
  - rewrite Hacc. unfold AudioQueue.getNReadableSamples. lia.
  - rewrite <-HN'. apply Hq'.
Qed.
End QueueRuns.

(** ** The playback state machine *)

Section StateMachine.
Context {A R : Type} `{!Sample A, !RingBuffer A R}.

(** [ScriptProcessorBackend._updateState] is the transition of the design
    document on the state, one call of [onStateChange] when the state
    changed, and nothing else. *)
Lemma script_updateState (b : ScriptProcessorBackend.t A R) :
  let s' := transition (ScriptProcessorBackend.state b)
              (Buffer.getNReadableSamples (ScriptProcessorBackend._buffer b))
              (ScriptProcessorBackend.bufferThreshold b) in
  ScriptProcessorBackend._updateState b
  = ScriptProcessorBackend.mk (ScriptProcessorBackend.batchSize b)
      (ScriptProcessorBackend.nChannels b) (ScriptProcessorBackend.bufferThreshold b)
      (ScriptProcessorBackend._bufferType b) (ScriptProcessorBackend._buffer b) s'
      (ScriptProcessorBackend.onStateChange b
       ++ notifications (ScriptProcessorBackend.state b) s').
Proof.
  destruct b as [bs nc thr ty buf st calls].
  unfold ScriptProcessorBackend._updateState, transition, notifications.
  destruct st; simpl; repeat (case_decide; simpl); try done; try lia;
    by rewrite ?app_nil_r.
Qed.

(** The same for [WorkletProcessor._updateState], which posts a
    [stateChange] message instead. *)
Lemma worklet_updateState (st : BackendState) threshold ty (buf : Buffer.t A R) port :
  let s' := transition st (Buffer.getNReadableSamples buf) threshold in
  WorkletProcessor._updateState (WorkletProcessor.mk (Some threshold) st ty (Some buf) port)
  = Ok (WorkletProcessor.mk (Some threshold) s' ty (Some buf)
          (port ++ (Message.stateChange <$> notifications st s'))).
Proof.
  unfold WorkletProcessor._updateState, transition, notifications,
    WorkletProcessor.reaches.
  destruct st; simpl; repeat (case_bool_decide || case_decide; simpl);
    try done; try lia; by rewrite ?app_nil_r.
Qed.

Lemma worklet_updateState_uninitialized (p : WorkletProcessor.t A R) :
  WorkletProcessor.state p = UNINITIALIZED → WorkletProcessor._updateState p = Ok p.
Proof. intros Hs. unfold WorkletProcessor._updateState. by case_decide. Qed.

(** C2 (ScriptProcessorBackend._updateState, WorkletProcessor._updateState).
    The update of the playback state is the function [transition] of the
    current state, the readable length and the threshold, in both backends:
    from Playing to Starved exactly when the readable length is 0, from Ready
    or Starved to Playing exactly when the readable length is at least the
    threshold (so always with threshold 0), no change from Uninitialized or
    otherwise; one notification of the new state is emitted when the state
    changed and none when it did not; nothing else changes. *)
Theorem updateState_transition :
  (∀ b : ScriptProcessorBackend.t A R,
     let s' := transition (ScriptProcessorBackend.state b)
                 (Buffer.getNReadableSamples (ScriptProcessorBackend._buffer b))
                 (ScriptProcessorBackend.bufferThreshold b) in
     ScriptProcessorBackend._updateState b
     = ScriptProcessorBackend.mk (ScriptProcessorBackend.batchSize b)
         (ScriptProcessorBackend.nChannels b) (ScriptProcessorBackend.bufferThreshold b)
         (ScriptProcessorBackend._bufferType b) (ScriptProcessorBackend._buffer b) s'
         (ScriptProcessorBackend.onStateChange b
          ++ notifications (ScriptProcessorBackend.state b) s'))
  ∧ (∀ st threshold ty (buf : Buffer.t A R) port,
       let s' := transition st (Buffer.getNReadableSamples buf) threshold in
       WorkletProcessor._updateState
         (WorkletProcessor.mk (Some threshold) st ty (Some buf) port)
       = Ok (WorkletProcessor.mk (Some threshold) s' ty (Some buf)
               (port ++ (Message.stateChange <$> notifications st s'))))
  ∧ (∀ p : WorkletProcessor.t A R,
       WorkletProcessor.state p = UNINITIALIZED → WorkletProcessor._updateState p = Ok p)
  ∧ (∀ s n threshold,
       (transition s n threshold = STARVED ∧ s ≠ STARVED ↔ s = PLAYING ∧ n = 0)
       ∧ (transition s n threshold = PLAYING ∧ s ≠ PLAYING
          ↔ (s = READY ∨ s = STARVED) ∧ (threshold ≤ Z.of_nat n)%Z)
       ∧ (transition s n threshold ≠ s
          → transition s n threshold = STARVED ∨ transition s n threshold = PLAYING)
       ∧ (s = UNINITIALIZED → transition s n threshold = s)
       ∧ (s = READY ∨ s = STARVED → transition s n 0 = PLAYING)).
Proof.
  split; [exact script_updateState|]. split; [exact worklet_updateState|].
  split; [exact worklet_updateState_uninitialized|].
  intros s n thr.
  destruct s; simpl; repeat case_decide; try lia;
    intuition (discriminate || lia || congruence).
Qed.
End StateMachine.

(** ** Threshold reconfiguration *)

Section Threshold.
Context {A R : Type} `{!Sample A, !RingBuffer A R}.

(** The guards of [setBufferThreshold], in both backends: the call throws
    exactly when the threshold is negative or greater than [bufferLength] as
    the backend reports it, and then leaves the object as it was; otherwise
    the script-processor backend holds the new threshold and the worklet
    backend has posted it to its processor, which takes it on receipt. *)
Lemma setBufferThreshold_guards :
  (∀ (b : ScriptProcessorBackend.t A R) (threshold : Z),
     let outcome := (ScriptProcessorBackend.setBufferThreshold threshold b).1 in
     let b' := (ScriptProcessorBackend.setBufferThreshold threshold b).2 in
     (threw outcome
      ↔ (threshold < 0 ∨ threshold > Z.of_nat (ScriptProcessorBackend.bufferLength b))%Z)
     ∧ (threw outcome ∨ outcome = Ok ())
     ∧ (threw outcome → b' = b)
     ∧ (outcome = Ok () →
        b' = ScriptProcessorBackend.mk (ScriptProcessorBackend.batchSize b)
               (ScriptProcessorBackend.nChannels b) threshold
               (ScriptProcessorBackend._bufferType b) (ScriptProcessorBackend._buffer b)
               (ScriptProcessorBackend.state b) (ScriptProcessorBackend.onStateChange b)))
  ∧ (∀ (w : AudioWorkletBackend.t A) (threshold : Z),
       let outcome := (AudioWorkletBackend.setBufferThreshold threshold w).1 in
       let w' := (AudioWorkletBackend.setBufferThreshold threshold w).2 in
       (threw outcome ↔ (threshold < 0 ∨ threshold > AudioWorkletBackend.bufferLength w)%Z)
       ∧ (threw outcome ∨ outcome = Ok ())
       ∧ (threw outcome → w' = w)
       ∧ (outcome = Ok () →
          AudioWorkletBackend.port w'
          = AudioWorkletBackend.port w ++ [Message.setBufferThreshold threshold]
          ∧ AudioWorkletBackend.state w' = AudioWorkletBackend.state w
          ∧ AudioWorkletBackend.bufferLength w' = AudioWorkletBackend.bufferLength w))
  ∧ (∀ (p : WorkletProcessor.t A R) (threshold : Z),
       WorkletProcessor._onMessage (Message.setBufferThreshold threshold) p
       = Ok (WorkletProcessor.mk (Some threshold) (WorkletProcessor.state p)
               (WorkletProcessor._bufferType p) (WorkletProcessor._buffer p)
               (WorkletProcessor.port p))).
Proof.
  unfold threw. split; [|split].
  - intros b threshold. unfold ScriptProcessorBackend.setBufferThreshold.
    repeat case_decide; simpl; repeat split; try done; try lia; eauto;
      try (intros [e He]; discriminate); intros [?|?]; lia.
  - intros w threshold. unfold AudioWorkletBackend.setBufferThreshold.
    repeat case_decide; simpl; repeat split; try done; try lia; eauto;
      try (intros [e He]; discriminate); intros [?|?]; lia.
  - done.
Qed.

(** Over the queue the bound of [setBufferThreshold] is the number of frames
    buffered when it is called. *)
Lemma setBufferThreshold_queue (b : ScriptProcessorBackend.t A R) q (threshold : Z) :
  ScriptProcessorBackend._buffer b = Buffer.Queue q →
  ((ScriptProcessorBackend.setBufferThreshold threshold b).1 = Ok ()
   ↔ (0 ≤ threshold ≤ Z.of_nat (AudioQueue.getNReadableSamples q))%Z)
  ∧ ((Z.of_nat (AudioQueue.getNReadableSamples q) < threshold)%Z →
     ScriptProcessorBackend.setBufferThreshold threshold b
     = (Throw (Thrown "bufferThreshold cannot be greater than bufferLength"), b)).
Proof.
  destruct b as [bs nc thr ty buf st calls]; simpl. intros ->.
  unfold ScriptProcessorBackend.setBufferThreshold, ScriptProcessorBackend.bufferLength,
    AudioQueue.getNReadableSamples.
  simpl. unfold AudioQueue.bufferLength.
  repeat case_decide; simpl; split; try done; try lia; split; (done || lia).
Qed.
End Threshold.

(** C7 (ScriptProcessorBackend.setBufferThreshold and bufferLength,
    AudioQueue.bufferLength, AudioWorkletBackend.setBufferThreshold), on the
    code.  Over the queue the bound that [setBufferThreshold] enforces is not
    the buffer length that the backend was constructed with: it is the number
    of frames buffered when the call is made, which is what the getter
    [bufferLength] of the queue returns.  A backend constructed with a buffer
    length of 16384 and a threshold of 4096 reports a [bufferLength] of 0 and
    throws on [setBufferThreshold(4096)] and on [setBufferThreshold(1)]; it
    takes 0.  After two frames were fed it takes 2 and throws on 3.  The
    worklet backend constructed with the same length takes 4096. *)
Theorem setBufferThreshold_bound_is_the_fill :
  (∀ (A R : Type) (HA : Sample A) (HR : RingBuffer A R)
     (b : ScriptProcessorBackend.t A R) (q : AudioQueue.t A) (threshold : Z),
     ScriptProcessorBackend._buffer b = Buffer.Queue q →
     ((ScriptProcessorBackend.setBufferThreshold threshold b).1 = Ok ()
      ↔ (0 ≤ threshold ≤ Z.of_nat (AudioQueue.getNReadableSamples q))%Z)
     ∧ ((Z.of_nat (AudioQueue.getNReadableSamples q) < threshold)%Z →
        ScriptProcessorBackend.setBufferThreshold threshold b
        = (Throw (Thrown "bufferThreshold cannot be greater than bufferLength"), b)))
  ∧ (b ← ScriptProcessorBackend.new (A:=pcm) (R:=Empty_set) browser 2 512 16384 4096
           "fifo_queue";
     Ok (ScriptProcessorBackend.bufferLength b,
         (ScriptProcessorBackend.setBufferThreshold 4096 b).1,
         (ScriptProcessorBackend.setBufferThreshold 1 b).1,
         (ScriptProcessorBackend.setBufferThreshold 0 b).1))
    = Ok (0,
          Throw (Thrown "bufferThreshold cannot be greater than bufferLength"),
          Throw (Thrown "bufferThreshold cannot be greater than bufferLength"),
          Ok ())
  ∧ (b ← ScriptProcessorBackend.new (A:=pcm) (R:=Empty_set) browser 2 512 16384 4096
           "fifo_queue";
     b ← ScriptProcessorBackend.feed [V 1; V 2; V 3; V 4] b;
     Ok (ScriptProcessorBackend.bufferLength b,
         (ScriptProcessorBackend.setBufferThreshold 2 b).1,
         (ScriptProcessorBackend.setBufferThreshold 3 b).1))
    = Ok (2, Ok (),
          Throw (Thrown "bufferThreshold cannot be greater than bufferLength"))
  ∧ (AudioWorkletBackend.setBufferThreshold 4096
       (AudioWorkletBackend.new (A:=pcm) 2 16384 "fifo_queue")).1
    = Ok ().
Proof.
  split; [intros A R HA HR b q threshold; apply setBufferThreshold_queue|].
  split; [vm_compute; reflexivity|]. split; vm_compute; reflexivity.
Qed.

(** ** Pulls *)

Section Pulls.
Context {A R : Type} `{!Sample A, !RingBuffer A R}.
Implicit Types (q : AudioQueue.t A) (outputBuffer output : list (list A)).

Lemma mapM_getChannelData outputBuffer : ∀ n k,
  k + n ≤ length outputBuffer →
  mapM (ScriptProcessorBackend.getChannelData outputBuffer) (seq k n)
  = Ok (take n (drop k outputBuffer)).
Proof.
  induction n as [|n IH]; intros k Hk; [done|].
  destruct (lookup_lt_is_Some_2 outputBuffer k) as [ch Hch]; [lia|].
  cbn [seq mapM].
  assert (ScriptProcessorBackend.getChannelData outputBuffer k = Ok ch) as ->
    by (unfold ScriptProcessorBackend.getChannelData; by rewrite Hch).
  cbn [mbind Result_bind]. rewrite IH by lia. cbn [mbind Result_bind mret Result_ret].
  by rewrite (drop_S _ _ _ Hch).
Qed.

Lemma channels_of_event outputBuffer n :
  length outputBuffer = n →
  mapM (ScriptProcessorBackend.getChannelData outputBuffer) (seq 0 n) = Ok outputBuffer.
Proof.
  intros <-. rewrite mapM_getChannelData by lia. by rewrite drop_0, firstn_all.
Qed.

Lemma writeSilence_silence output : writeSilence output = silence output.
Proof. unfold writeSilence, silence. apply list_fmap_ext; intros _ ch _. apply fill_all_zero. Qed.

(** A read from an empty queue into arrays of the requested length leaves
    them zeroed, and the queue as it was. *)
Lemma read_empty_zero_fills n output q :
  AudioQueue.getNReadableSamples q = 0 →
  Forall (λ ch, length ch = n) output →
  AudioQueue.read n (Some output) q = Ok (replicate (length output) (replicate n zero), q).
Proof.
  intros Hq Hlen. unfold AudioQueue.read. rewrite Hq, Nat.min_0_r. simpl.
  do 2 f_equal. apply list_eq; intros i. rewrite list_lookup_fmap.
  destruct (output !! i) as [ch|] eqn:Hi; simpl.
  - rewrite lookup_replicate_2 by (by eapply lookup_lt_Some). f_equal.
    pose proof (Forall_lookup_1 _ _ _ _ Hlen Hi) as Hch. simpl in Hch.
    by rewrite fill_zero_prefix, drop_ge, app_nil_r, Nat.min_l by lia.
  - symmetry. apply lookup_replicate_None. by apply lookup_ge_None.
Qed.

(** C3 (ScriptProcessorBackend._playNext, WorkletProcessor.process,
    AudioQueue.read).  With the queue as buffer, in state Ready with
    threshold 0 and nothing buffered, the first pull returns, moves the state
    to Playing with exactly one notification of Playing, and leaves the
    output arrays - one of [batchSize] samples per channel - all zero: the
    read of [batchSize] frames from the empty queue zero-fills them.  The
    queue is left as it was. *)
Theorem first_pull_with_zero_threshold :
  (∀ (b : ScriptProcessorBackend.t A R) q outputBuffer,
     ScriptProcessorBackend.state b = READY →
     ScriptProcessorBackend.bufferThreshold b = 0%Z →
     ScriptProcessorBackend._buffer b = Buffer.Queue q →
     AudioQueue.getNReadableSamples q = 0 →
     length outputBuffer = ScriptProcessorBackend.nChannels b →
     Forall (λ ch, length ch = ScriptProcessorBackend.batchSize b) outputBuffer →
     ScriptProcessorBackend._playNext outputBuffer b
     = Ok (replicate (ScriptProcessorBackend.nChannels b)
             (replicate (ScriptProcessorBackend.batchSize b) zero),
           ScriptProcessorBackend.mk (ScriptProcessorBackend.batchSize b)
             (ScriptProcessorBackend.nChannels b) 0 (ScriptProcessorBackend._bufferType b)
             (Buffer.Queue q) PLAYING (ScriptProcessorBackend.onStateChange b ++ [PLAYING])))
  ∧ (∀ ty q (port : list Message.reply) output,
       AudioQueue.getNReadableSamples q = 0 →
       Forall (λ ch, length ch = WorkletProcessor.BATCH_SIZE) output →
       WorkletProcessor.process output
         (WorkletProcessor.mk (Some 0%Z) READY ty (Some (Buffer.Queue (R:=R) q)) port)
       = Ok (replicate (length output) (replicate WorkletProcessor.BATCH_SIZE zero),
             WorkletProcessor.mk (Some 0%Z) PLAYING ty (Some (Buffer.Queue q))
               (port ++ [Message.stateChange PLAYING]))).
Proof.
  split.
  - intros [bs nc thr ty buf st calls] q outputBuffer; simpl.
    intros -> -> -> Hq Hlen Hall.
    unfold ScriptProcessorBackend._playNext. rewrite script_updateState.
    cbn [ScriptProcessorBackend.state ScriptProcessorBackend._buffer
         ScriptProcessorBackend.bufferThreshold ScriptProcessorBackend.nChannels
         ScriptProcessorBackend.batchSize ScriptProcessorBackend.onStateChange
         ScriptProcessorBackend._bufferType Buffer.getNReadableSamples].
    rewrite Hq. cbn [transition notifications]. cbn.
    rewrite channels_of_event by done. cbn [mbind Result_bind].
    rewrite read_empty_zero_fills by done. cbn. by rewrite Hlen.
  - intros ty q port output Hq Hall.
    unfold WorkletProcessor.process. rewrite worklet_updateState.
    cbn [Buffer.getNReadableSamples]. rewrite Hq. cbn.
    rewrite read_empty_zero_fills by done. done.
Qed.

(** C8 (AudioQueue.clear, ScriptProcessorBackend.clearBuffer,
    ScriptProcessorBackend._updateState).  With the queue as buffer, after
    [clearBuffer] the fill is 0 and nothing is left in the queue; and if the
    state was Playing, the next pull returns, moves the state to Starved with
    exactly one notification of Starved, and leaves silence in the output
    arrays.  The same holds of the worklet processor on receipt of
    [clearBuffer]. *)
Theorem clear_then_pull_starves :
  (∀ (b : ScriptProcessorBackend.t A R) q,
     ScriptProcessorBackend._buffer b = Buffer.Queue q →
     let b1 := ScriptProcessorBackend.clearBuffer b in
     ScriptProcessorBackend.getCurrentBufferFill b1 = 0
     ∧ (∃ q1, ScriptProcessorBackend._buffer b1 = Buffer.Queue q1 ∧ contents q1 = []
              ∧ AudioQueue._queue q1 = [])
     ∧ ScriptProcessorBackend.state b1 = ScriptProcessorBackend.state b
     ∧ ScriptProcessorBackend.onStateChange b1 = ScriptProcessorBackend.onStateChange b
     ∧ (ScriptProcessorBackend.state b = PLAYING →
        ∀ outputBuffer, length outputBuffer = ScriptProcessorBackend.nChannels b →
          ∃ b2, ScriptProcessorBackend._playNext outputBuffer b1
                = Ok (silence outputBuffer, b2)
            ∧ ScriptProcessorBackend.state b2 = STARVED
            ∧ ScriptProcessorBackend.onStateChange b2
              = ScriptProcessorBackend.onStateChange b ++ [STARVED]
            ∧ ScriptProcessorBackend.getCurrentBufferFill b2 = 0))
  ∧ (∀ threshold st ty q (port : list Message.reply),
       let p := WorkletProcessor.mk (Some threshold) st ty
                  (Some (Buffer.Queue (R:=R) q)) port in
       let p1 := WorkletProcessor.mk (Some threshold) st ty
                   (Some (Buffer.Queue (R:=R) (AudioQueue.clear q))) port in
       WorkletProcessor._onMessage Message.clearBuffer p = Ok p1
       ∧ AudioQueue.getNReadableSamples (AudioQueue.clear q) = 0
       ∧ (st = PLAYING → ∀ output,
            WorkletProcessor.process output p1
            = Ok (silence output,
                  WorkletProcessor.mk (Some threshold) STARVED ty
                    (Some (Buffer.Queue (AudioQueue.clear q)))
                    (port ++ [Message.stateChange STARVED])))).
Proof.
  split.
  - intros [bs nc thr ty buf st calls] q; simpl. intros ->.
    unfold ScriptProcessorBackend.getCurrentBufferFill; simpl.
    split; [done|]. split; [by eexists|]. do 2 (split; [done|]).
    intros -> outputBuffer Hlen.
    unfold ScriptProcessorBackend._playNext, ScriptProcessorBackend.clearBuffer.
    rewrite script_updateState. cbn.
    rewrite channels_of_event by done. cbn.
    eexists. split; [by rewrite writeSilence_silence|]. done.
  - intros threshold st ty q port. cbn zeta. split; [done|]. split; [done|].
    intros -> output. unfold WorkletProcessor.process.
    rewrite worklet_updateState. cbn. by rewrite writeSilence_silence.
Qed.
End Pulls.

(** ** Buffer health *)

Section Health.
Context {A R : Type} `{!Sample A, !RingBuffer A R}.



(** With a positive capacity the arithmetic of [getBufferHealth] is a
    clamped ratio. *)
Lemma bufferHealth_clamp (currentFill maxFill : Q) :
  (0 < maxFill)%Q →
  FeederNode.bufferHealth (Number.Num currentFill) (Number.Num maxFill)
  = Number.Num (Qmin 1 (Qmax 0 (currentFill / maxFill))).
Proof.
  intros Hpos. unfold FeederNode.bufferHealth. simpl.
  destruct (Qeq_bool maxFill 0) eqn:Hz; [|done].
  apply Qeq_bool_eq in Hz. rewrite Hz in Hpos. by apply Qlt_irrefl in Hpos.
Qed.


Lemma of_nat_positive n : 0 < n → (0 < inject_Z (Z.of_nat n))%Q.
Proof. intros Hn. change 0%Q with (inject_Z 0). rewrite <-Zlt_Qlt. lia. Qed.

(** C10 (FeederNode.getBufferHealth, ScriptProcessorBackend.bufferLength,
    AudioQueue.bufferLength).  On a script-processor backend whose buffer is
    the queue, the [bufferLength] that the node divides by is the number of
    samples readable at that moment - the same number as the fill - so
    [getBufferHealth] returns 1 whenever the queue holds samples and [NaN],
    from 0 / 0, whenever it is empty. *)
Theorem queue_health_is_one_or_NaN (node : FeederNode.t A R)
    (b : ScriptProcessorBackend.t A R) (q : AudioQueue.t A) :
  FeederNode._backend node = FeederNode.ScriptProcessor b →
  ScriptProcessorBackend._buffer b = Buffer.Queue q →
  FeederNode.bufferLength node = Number.of_nat (AudioQueue.getNReadableSamples q)
  ∧ (FeederNode.getCurrentBufferFill node).1
    = Number.of_nat (AudioQueue.getNReadableSamples q)
  ∧ (0 < AudioQueue.getNReadableSamples q →
     same_number (FeederNode.getBufferHealth node).1 (Number.Num 1))
  ∧ (AudioQueue.getNReadableSamples q = 0 →
     (FeederNode.getBufferHealth node).1 = Number.NaN).
Proof.
  intros Hb Hq.
  assert (FeederNode.bufferLength node
          = Number.of_nat (AudioQueue.getNReadableSamples q)) as Hlen.
  { unfold FeederNode.bufferLength, ScriptProcessorBackend.bufferLength.
    by rewrite Hb, Hq. }
  assert (FeederNode.getCurrentBufferFill node
          = (Number.of_nat (AudioQueue.getNReadableSamples q), node)) as Hfill.
  { unfold FeederNode.getCurrentBufferFill, ScriptProcessorBackend.getCurrentBufferFill.
    by rewrite Hb, Hq. }
  split; [done|]. split; [by rewrite Hfill|].
  unfold FeederNode.getBufferHealth. rewrite Hfill, Hlen. cbn [fst]. split.
  - intros Hn. unfold Number.of_nat, Number.of_Z.
    rewrite bufferHealth_clamp by (by apply of_nat_positive). simpl.
    pose proof (of_nat_positive _ Hn) as Hpos.
    assert (inject_Z (Z.of_nat (AudioQueue.getNReadableSamples q))
            / inject_Z (Z.of_nat (AudioQueue.getNReadableSamples q)) == 1)%Q as ->.
    { apply Qmult_inv_r. intros Hz. rewrite Hz in Hpos. by apply Qlt_irrefl in Hpos. }
    done.
  - intros ->. done.
Qed.
End Health.

(** ** Construction *)

Section Comparisons.

(** A comparison of JavaScript is false exactly when the order holds the
    other way round, or one side is [NaN]. *)
Lemma ltb_false a b : Number.ltb a b = false ↔ not_below b a.
Proof.
  unfold not_below, number_le.
  destruct a as [x| | |], b as [y| | |]; simpl;
    try destruct (Qlt_le_dec x y) as [Hlt|Hle];
    split; intros H; try done; eauto;
    repeat (destruct H as [H|H]; try done).
  by apply Qlt_not_le in Hlt.
Qed.

Lemma gtb_false a b : Number.gtb a b = false ↔ not_above b a.
Proof.
  unfold Number.gtb. rewrite ltb_false. unfold not_below, not_above. tauto.
Qed.

Lemma includes_one_of l a : Number.includes l a = true ↔ one_of l a.
Proof.
  unfold one_of. destruct a as [q| | |]; simpl;
    try (split; [done|by intros (? & ? & _)]).
  split.
  - intros Hin. exists q. split; [done|].
    induction l as [|x l IH]; simpl in Hin; [done|].
    apply orb_true_iff in Hin as [Hx|Hl].
    + apply Exists_cons_hd. by apply Qeq_bool_iff.
    + apply Exists_cons_tl. by apply IH.
  - intros (q' & [= <-] & Hin).
    induction Hin as [x l Hx|x l _ IH]; simpl; apply orb_true_iff.
    + left. by apply Qeq_bool_iff.
    + by right.
Qed.

(** What [to_Z] returns is the number. *)
Lemma to_Z_Some a z : Number.to_Z a = Some z → ∃ q, a = Number.Num q ∧ (q == inject_Z z)%Q.
Proof.
  destruct a as [q| | |]; simpl; try done. case_decide as Hmod; [|done].
  intros [= <-]. exists q. split; [done|].
  unfold Qeq, inject_Z. simpl.
  apply Z.mod_divide in Hmod as [k Hk]; [|done].
  rewrite Hk, Z.div_mul by done. lia.
Qed.

(** A default takes the place of [NaN] and of 0. *)
Lemma or_number_truthy o d :
  Number.falsy d = false → Number.falsy (Index.or_number o d) = false.
Proof.
  intros Hd. unfold Index.or_number. destruct o as [v|]; [|done].
  by destruct (Number.falsy v) eqn:Hv.
Qed.
End Comparisons.

Section Construction.
Context {A R : Type} `{!Sample A, !RingBuffer A R}.

Lemma validate_in_range nChannels batchSize bufferThreshold bufferLength converterType
    inputSampleRate bufferType :
  Index.validate nChannels batchSize bufferThreshold bufferLength converterType
    inputSampleRate bufferType = Ok ()
  ↔ in_range nChannels batchSize bufferThreshold bufferLength converterType
      inputSampleRate bufferType.
Proof.
  unfold Index.validate, Index.VALID_BATCH_SIZES, BufferType.RING_BUFFER,
    BufferType.FIFO_QUEUE.
  split.
  - intros Hv. destruct nChannels as [n|]; [|done].
    destruct (_ || _) eqn:Hn in Hv; [done|].
    destruct (negb _) eqn:Hbs in Hv; [done|].
    destruct (Number.ltb bufferLength _) eqn:Hlen in Hv; [done|].
    destruct (Number.ltb bufferThreshold _) eqn:Hthr in Hv; [done|].
    destruct (Number.gtb bufferThreshold _) eqn:Hthr' in Hv; [done|].
    destruct (_ || _) eqn:Hconv in Hv; [done|].
    destruct (_ || _) eqn:Hrate in Hv; [done|].
    case_decide as Hty; [done|].
    apply orb_false_iff in Hn as [Hn1 Hn2], Hconv as [Hc1 Hc2], Hrate as [Hr1 Hr2].
    apply negb_false_iff in Hbs.
    split.
    + exists n. split; [done|]. split; [by apply ltb_false|by apply gtb_false].
    + by apply includes_one_of.
    + by apply ltb_false.
    + split; [by apply ltb_false|by apply gtb_false].
    + split; [by apply ltb_false|by apply gtb_false].
    + split; [by apply ltb_false|by apply gtb_false].
    + destruct (decide (bufferType = "ring_buffer")); [by left|].
      destruct (decide (bufferType = "fifo_queue")); [by right|]. tauto.
  - intros [(n & -> & Hn1 & Hn2) Hbs Hlen [Hthr Hthr'] [Hc1 Hc2] [Hr1 Hr2] Hty].
    apply ltb_false in Hn1, Hlen, Hthr, Hc1, Hr1.
    apply gtb_false in Hn2, Hthr', Hc2, Hr2.
    apply includes_one_of in Hbs.
    rewrite Hn1, Hn2, Hbs, Hlen, Hthr, Hthr', Hc1, Hc2, Hr1, Hr2. simpl.
    case_decide as Hbad; [|done]. destruct Hbad, Hty; congruence.
Qed.

Lemma validate_outcome nChannels batchSize bufferThreshold bufferLength converterType
    inputSampleRate bufferType :
  Index.validate nChannels batchSize bufferThreshold bufferLength converterType
    inputSampleRate bufferType = Ok ()
  ∨ threw (Index.validate nChannels batchSize bufferThreshold bufferLength converterType
             inputSampleRate bufferType).
Proof.
  unfold Index.validate, threw. destruct nChannels; [|by eauto].
  repeat (match goal with |- context [if ?c then _ else _] => destruct c end;
          [by eauto|]).
  by left.
Qed.

(** C6, as the code has it (index.js: validate, createNode).  [createNode]
    validates what it has made of its arguments - the options, with the
    defaults in the place of absent and falsy members - before it creates
    the backend or the resampler.  Validation throws exactly when that
    configuration is outside these bounds, by the comparisons of JavaScript,
    under which [NaN] is outside of nothing: channel count defined and
    neither below 1 nor above 2; batch size one of 128, 256, 512, 1024, 2048,
    4096, 8192, 16384; buffer length not below 16384; threshold neither below
    0 nor above the buffer length; converter type neither below 0 nor above
    4; input sample rate neither below 1 nor above 192000; buffer type
    "ring_buffer" or "fifo_queue".  What it throws is not raised at the
    caller: [createNode] being an [async] function, every call returns a
    promise, which on a failed validation is rejected with what [validate]
    threw, nothing having been created.  Whatever was created, and every
    node, came after a validation that passed. *)
Theorem createNode_validates_first (env : Index.Environment) (context : AudioContext.t)
    (nChannels : option Number.t) (options : Index.Options) :
  let outcome :=
    Index.validate nChannels (effective_batchSize env options)
      (effective_bufferThreshold options) (effective_bufferLength options)
      (effective_converterType options) (effective_inputSampleRate context options)
      (effective_bufferType options) in
  let created := Index.createNode (A:=A) (R:=R) env context nChannels options in
  (outcome = Ok ()
   ↔ in_range nChannels (effective_batchSize env options)
       (effective_bufferThreshold options) (effective_bufferLength options)
       (effective_converterType options) (effective_inputSampleRate context options)
       (effective_bufferType options))
  ∧ (outcome = Ok () ∨ threw outcome)
  ∧ (∀ e, outcome = Throw e → created = Some ([], Returned (Rejected e)))
  ∧ (∀ resources call, created = Some (resources, call) → ∃ promise, call = Returned promise)
  ∧ (created = None → outcome = Ok ())
  ∧ (∀ resources promise,
       created = Some (resources, Returned promise) →
       resources ≠ [] ∨ (∃ node, promise = Resolved node) → outcome = Ok ())
  ∧ (∀ resources node,
       created = Some (resources, Returned (Resolved node)) →
       resources = [Index.backend_created; Index.resampler_created]).
Proof.
  cbn zeta. split; [apply validate_in_range|]. split; [apply validate_outcome|].
  unfold Index.createNode.
  fold (effective_batchSize env options) (effective_bufferThreshold options)
       (effective_bufferLength options) (effective_bufferType options)
       (effective_inputSampleRate context options).
  change (match Index.resampConverterType options with
          | Some c => c
          | None => Index.SRC_SINC_FASTEST
          end) with (effective_converterType options).
  destruct (Index.validate _ _ _ _ _ _ _) as [[]|e|].
  - split; [done|].
    destruct nChannels as [N|]; [|by repeat split].
    destruct (Number.to_nat N); [|by repeat split].
    destruct (Number.to_nat (effective_batchSize env options)); [|by repeat split].
    destruct (Number.to_Z (effective_bufferLength options)); [|by repeat split].
    destruct (Number.to_Z (effective_bufferThreshold options)); [|by repeat split].
    destruct (Index.createBackend _ _ _ _ _ _ _) as [backend|e|];
      [destruct (Index.createResampler _ _ _ _ _) as [resampler|e|]|..];
      unfold async; (split; [intros ?? [= <- <-]; by eexists|]);
      (split; [done|]); (split; [done|]);
      intros ?? [= <- Hp]; done.
  - split; [by intros e' [= <-]|]. unfold async.
    split; [intros ?? [= <- <-]; by eexists|]. split; [done|].
    split; [|done].
    intros ?? [= <- <-] [?|[? ?]]; done.
  - split; [done|]. unfold async.
    split; [intros ?? [= <- <-]; by eexists|]. split; [done|].
    split; [|done].
    intros ?? [= <- <-] [?|[? ?]]; done.
Qed.
End Construction.

(** C6 as stated fails.  A configuration within every range that the claim
    lists is rejected for its buffer type, and another for an input sample
    rate between 0 and 1; a channel count and a converter type that are
    [NaN], and so within no range, pass validation; and a channel count of 3
    makes [createNode] return a promise that is rejected, not raise. *)
Lemma listed_ranges_are_not_exact :
  (in_listed_range (Some (Number.Num 2)) (Number.Num 512) (Number.Num 4096)
     (Number.Num 192000) (Number.Num 2) (Number.Num 44100)
   ∧ Index.validate (Some (Number.Num 2)) (Number.Num 512) (Number.Num 4096)
       (Number.Num 192000) (Number.Num 2) (Number.Num 44100) "buffer"
     = Throw (Thrown "invalid bufferType")
   ∧ Index.createNode (A:=pcm) (R:=Empty_set) script_env browser (Some (Number.Num 2))
       {| Index.batchSize := None; Index.bufferThreshold := None;
          Index.bufferLength := None; Index.bufferType := Some "buffer";
          Index.resampConverterType := None; Index.inputSampleRate := None |}
     = Some ([], Returned (Rejected (Thrown "invalid bufferType"))))
  ∧ (in_listed_range (Some (Number.Num 2)) (Number.Num 512) (Number.Num 4096)
       (Number.Num 192000) (Number.Num 2) (Number.Num (1 # 2))
     ∧ Index.validate (Some (Number.Num 2)) (Number.Num 512) (Number.Num 4096)
         (Number.Num 192000) (Number.Num 2) (Number.Num (1 # 2)) "ring_buffer"
       = Throw (Thrown "invalid inputSampleRate"))
  ∧ Index.validate (Some Number.NaN) (Number.Num 512) (Number.Num 4096)
      (Number.Num 192000) Number.NaN (Number.Num 44100) "ring_buffer"
    = Ok ()
  ∧ Index.validate (Some (Number.Num 3)) (Number.Num 512) (Number.Num 4096)
      (Number.Num 192000) (Number.Num 2) (Number.Num 44100) "ring_buffer"
    = Throw (Thrown "invalid nChannels")
  ∧ Index.createNode (A:=pcm) (R:=Empty_set) script_env browser (Some (Number.Num 3))
      no_options
    = Some ([], Returned (Rejected (Thrown "invalid nChannels"))).
Proof.
  assert (∀ rate, (0 < rate)%Q → (rate <= 192000)%Q →
            in_listed_range (Some (Number.Num 2)) (Number.Num 512) (Number.Num 4096)
              (Number.Num 192000) (Number.Num 2) (Number.Num rate)) as Hlisted.
  { intros rate Hlo Hhi. split; simpl; try done.
    - exists (Number.Num 2). by repeat split.
    - exists 512%Q. split; [done|]. do 2 apply Exists_cons_tl. by apply Exists_cons_hd.
    - by exists rate. }
  split; [split; [by apply Hlisted|split; reflexivity]|].
  split; [split; [by apply Hlisted|reflexivity]|].
  repeat split; reflexivity.
Qed.

(** ** Reading past the end of the queue *)

Section PastTheEnd.
Context {A : Type} `{!Sample A}.
Implicit Types (q : AudioQueue.t A) (chs : list (list A)).

(** Without output arrays, and with frames available, every returned array
    has the requested length, whatever is available. *)
Lemma read_alloc_length nSamples q :
  valid q → 0 < nSamples `min` AudioQueue._samplesInQueue q →
  ∃ q', AudioQueue.read nSamples None q = Ok (read_output nSamples None q, q')
    ∧ length (read_output nSamples None q) = AudioQueue._nChannels q
    ∧ Forall (λ ch, length ch = nSamples) (read_output nSamples None q).
Proof.
  intros Hq Hr. destruct (read_spec nSamples None q Hq I) as (q' & Hread & _).
  exists q'. split; [done|].
  assert (length (read_output nSamples None q) = AudioQueue._nChannels q) as Hlen.
  { unfold read_output. case_decide; [lia|]. by rewrite length_overlay, length_replicate. }
  split; [done|]. apply Forall_lookup_2; intros j ch Hj.
  pose proof (lookup_lt_Some _ _ _ Hj) as Hlt. rewrite Hlen in Hlt.
  rewrite read_output_alloc in Hj by done. injection Hj as <-.
  rewrite length_app, length_take, length_replicate, length_channel_contents by done. lia.
Qed.

(** With output arrays of the requested length, one per channel, every array
    holds the available frames followed by zeros, and keeps its length. *)
Lemma read_supplied_zero_fills nSamples chs q :
  valid q → AudioQueue._nChannels q ≤ length chs →
  Forall (λ ch, length ch = nSamples) chs →
  let r := nSamples `min` AudioQueue._samplesInQueue q in
  ∃ q', AudioQueue.read nSamples (Some chs) q = Ok (read_output nSamples (Some chs) q, q')
    ∧ length (read_output nSamples (Some chs) q) = length chs
    ∧ ∀ j, j < AudioQueue._nChannels q →
        read_output nSamples (Some chs) q !! j
        = Some (take r (channel_of (AudioQueue._nChannels q) j (contents q))
                ++ replicate (nSamples - r) zero).
Proof.
  intros Hq Hcov Hall r.
  destruct (read_spec nSamples (Some chs) q Hq Hcov) as (q' & Hread & _).
  exists q'. split; [done|]. split.
  { unfold read_output. case_decide; by rewrite ?length_overlay, length_fmap. }
  intros j Hj. destruct (lookup_lt_is_Some_2 chs j) as [ch Hch]; [lia|].
  pose proof (Forall_lookup_1 _ _ _ _ Hall Hch) as Hlen. simpl in Hlen.
  rewrite (read_output_supplied nSamples chs q j ch) by (done || lia).
  fold r. do 2 f_equal. rewrite drop_ge by lia.
  replace (length ch - nSamples) with 0 by lia.
  case_decide; simpl; by rewrite app_nil_r.
Qed.
End PastTheEnd.

(** C4 (AudioQueue.read), on the code: with two frames queued, a read of five
    frames without output arrays returns arrays of five samples - the two
    frames and three zeros - not of two; the same read from the empty queue
    returns arrays of length 0. *)
Theorem read_without_arrays_pads_to_request :
  (q ← AudioQueue.new 16384 2;
   '(_, q) ← AudioQueue.write [V 1; V 2; V 3; V 4] q;
   '(out, q') ← AudioQueue.read 5 None q;
   Ok (AudioQueue.getNReadableSamples q, out, AudioQueue.getNReadableSamples q'))
  = Ok (2, [[V 1; V 3; V 0; V 0; V 0]; [V 2; V 4; V 0; V 0; V 0]], 0)
  ∧ (q ← AudioQueue.new (A:=pcm) 16384 2;
     '(out, _) ← AudioQueue.read 5 None q;
     Ok (AudioQueue.getNReadableSamples q, out))
    = Ok (0, [[]; []]).
Proof. split; reflexivity. Qed.

(** * Further properties of the queue *)

Section QueueExtras.
Context {A : Type} `{!Sample A}.
Implicit Types (q : AudioQueue.t A) (chs : list (list A)) (data : list A).

Lemma call_with_capacity cap (o : op) q :
  call o (with_capacity cap q)
  = '(r, q') ← call o q; Ok (r, with_capacity cap q').
Proof.
  destruct o as [data|n channels|]; [done| |done].
  unfold call, AudioQueue.read, with_capacity, AudioQueue.getNReadableSamples.
  cbn [AudioQueue._samplesInQueue AudioQueue._queue AudioQueue._nChannels
       AudioQueue._initialCapacity].
  case_decide; [by destruct channels|].
  by destruct (while_ _ _ _ _).
Qed.

(** X1 (AudioQueue constructor, read, write, clear).  The queue keeps the
    initial capacity it was constructed with and never consults it: whatever
    the calls, two queues that differ in it alone return the same things,
    report the same readable lengths and throw in the same places.  No write
    is refused or truncated for want of capacity. *)
Theorem capacity_is_never_consulted initialCapacity (ops : list op) q :
  run ops (with_capacity initialCapacity q)
  = '(evs, q') ← run ops q; Ok (evs, with_capacity initialCapacity q').
Proof.
  revert q. induction ops as [|o ops IH]; intros q; [done|].
  cbn [run]. rewrite call_with_capacity.
  destruct (call o q) as [[r q1]| |]; [|done..].
  cbn [mbind Result_bind]. rewrite IH.
  by destruct (run ops q1) as [[evs q2]| |].
Qed.

(** The inner loop over the channels throws when an array is missing. *)
Lemma store_frame_throws N idx (v : nat → A) chs :
  length chs < N →
  for_ N (λ j _channels, store _channels j idx (v j)) chs = Throw TypeError.
Proof.
  induction N as [|N IH]; intros HN; [lia|]. rewrite for_S.
  destruct (decide (length chs = N)) as [<-|Hne].
  - rewrite store_frame by done. cbn [mbind Result_bind]. unfold store.
    by rewrite lookup_ge_None_2 by (by rewrite length_imap).
  - by rewrite IH by lia.
Qed.

Lemma copy_chunk_throws N chunk T samplesRead chs :
  length chs < N → 0 < T →
  AudioQueue.copy_chunk N chunk T samplesRead chs = Throw TypeError.
Proof.
  intros HN HT. unfold AudioQueue.copy_chunk. induction T as [|T IH]; [lia|].
  rewrite for_S. destruct T as [|T].
  - rewrite for_0. cbn [mbind Result_bind]. by apply store_frame_throws.
  - by rewrite IH by lia.
Qed.

Lemma loop_body_cons N readable chunk rest samplesRead chs :
  AudioQueue.loop_body N readable (AudioQueue.Loop (chunk :: rest) samplesRead chs)
  = let T := (length chunk / N) `min` (readable - samplesRead) in
    _channels ← AudioQueue.copy_chunk N chunk T samplesRead chs;
    Ok (AudioQueue.Loop
          (if decide (T = length chunk / N) then rest else slice (T * N) chunk :: rest)
          (samplesRead + T) _channels).
Proof. done. Qed.

Lemma read_loop_throws N readable queue :
  0 < N → Forall (interleaved N) queue →
  ∀ fuel samplesRead chs,
    length queue ≤ fuel → length chs < N → samplesRead < readable →
    (readable - samplesRead) * N ≤ length (concat queue) →
    while_ fuel (AudioQueue.loop_test readable) (AudioQueue.loop_body N readable)
      (AudioQueue.Loop queue samplesRead chs)
    = Throw TypeError.
Proof.
  intros HN Hwf. induction Hwf as [|chunk rest [c Hc] Hrest IH];
    intros fuel sr chs Hfuel Hchs Hsr Hdata; [simpl in Hdata; nia|].
  destruct fuel as [|fuel]; [simpl in Hfuel; lia|].
  rewrite while_step; cycle 1.
  { unfold AudioQueue.loop_test; simpl. rewrite !bool_decide_eq_true_2; [done|lia..]. }
  rewrite concat_cons, length_app, Hc in Hdata.
  rewrite loop_body_cons. cbn zeta. rewrite Hc, Nat.div_mul by lia.
  destruct c as [|c].
  - rewrite Nat.min_0_l. unfold AudioQueue.copy_chunk. rewrite for_0.
    cbn [mbind Result_bind]. case_decide; [|done].
    apply IH; try done; simpl in *; lia.
  - by rewrite copy_chunk_throws by lia.
Qed.

(** X2 (AudioQueue.read).  When fewer output arrays are passed than the queue
    has channels, [read] throws a [TypeError] exactly when there is something
    to take - a positive request on a queue that holds frames; when there is
    nothing to take it returns, with the arrays it was given zeroed in their
    first [nSamples] positions and the queue as it was. *)
Theorem read_with_too_few_arrays nSamples chs q :
  valid q → length chs < AudioQueue._nChannels q →
  (0 < nSamples `min` AudioQueue.getNReadableSamples q →
   AudioQueue.read nSamples (Some chs) q = Throw TypeError)
  ∧ (nSamples `min` AudioQueue.getNReadableSamples q = 0 →
     AudioQueue.read nSamples (Some chs) q = Ok (fill zero 0 nSamples <$> chs, q)).
Proof.
  intros [HN Hwf Hcount] Hchs. unfold AudioQueue.read, AudioQueue.getNReadableSamples.
  split; intros Hr; (case_decide; [try lia|try lia]); [|done].
  rewrite (read_loop_throws (AudioQueue._nChannels q) _ _ HN Hwf);
    [done|done|by rewrite length_fmap|lia|].
  fold (contents q). rewrite <-Hcount. nia.
Qed.

(** What [read] returns depends on the queue through its channel count, its
    counter and its contents only. *)
Lemma read_same_contents nSamples channels q1 q2 :
  valid q1 → valid q2 → AudioQueue._nChannels q1 = AudioQueue._nChannels q2 →
  contents q1 = contents q2 → covers q1 channels →
  ∃ out q1' q2',
    AudioQueue.read nSamples channels q1 = Ok (out, q1')
    ∧ AudioQueue.read nSamples channels q2 = Ok (out, q2')
    ∧ valid q1' ∧ valid q2'
    ∧ AudioQueue._nChannels q1' = AudioQueue._nChannels q1
    ∧ AudioQueue._nChannels q2' = AudioQueue._nChannels q1
    ∧ contents q1' = contents q2'
    ∧ AudioQueue.getNReadableSamples q1' = AudioQueue.getNReadableSamples q2'
    ∧ AudioQueue.getNReadableSamples q1 = AudioQueue.getNReadableSamples q2.
Proof.
  intros Hq1 Hq2 HN Hc Hcov.
  assert (AudioQueue._samplesInQueue q1 = AudioQueue._samplesInQueue q2) as Hs.
  { destruct Hq1 as [HN1 _ Hc1], Hq2 as [_ _ Hc2]. rewrite Hc, <-Hc2, HN in Hc1.
    rewrite HN in HN1. nia. }
  assert (covers q2 channels) as Hcov2 by (destruct channels; simpl in *; lia).
  destruct (read_spec nSamples channels q1 Hq1 Hcov) as (q1' & Hr1 & Hv1 & HN1 & _ & Hl1 & Hc1).
  destruct (read_spec nSamples channels q2 Hq2 Hcov2) as (q2' & Hr2 & Hv2 & HN2 & _ & Hl2 & Hc2).
  exists (read_output nSamples channels q1), q1', q2'.
  split; [done|]. split.
  { rewrite Hr2. do 2 f_equal. unfold read_output. by rewrite HN, Hs, Hc. }
  do 3 (split; [done|]). split; [congruence|]. split; [by rewrite Hc1, Hc2, HN, Hs, Hc|].
  unfold AudioQueue.getNReadableSamples. split; [lia|done].
Qed.

Lemma call_same_contents N (o : op) q1 q2 :
  valid q1 → valid q2 → AudioQueue._nChannels q1 = N → AudioQueue._nChannels q2 = N →
  contents q1 = contents q2 → op_callable N o →
  ∃ r q1' q2',
    call o q1 = Ok (r, q1') ∧ call o q2 = Ok (r, q2')
    ∧ valid q1' ∧ valid q2'
    ∧ AudioQueue._nChannels q1' = N ∧ AudioQueue._nChannels q2' = N
    ∧ contents q1' = contents q2'
    ∧ AudioQueue.getNReadableSamples q1' = AudioQueue.getNReadableSamples q2'
    ∧ AudioQueue.getNReadableSamples q1 = AudioQueue.getNReadableSamples q2.
Proof.
  intros Hq1 Hq2 HN1 HN2 Hc Ho.
  assert (AudioQueue._samplesInQueue q1 = AudioQueue._samplesInQueue q2) as Hs.
  { destruct Hq1 as [HN _ Hc1], Hq2 as [_ _ Hc2]. rewrite Hc, <-Hc2, HN1, HN2 in Hc1.
    rewrite HN1 in HN. nia. }
  destruct o as [data|n channels|]; cbn [call op_callable] in *.
  - destruct (write_spec data q1 Hq1) as (q1' & -> & Hv1 & HN1' & Hl1 & Hc1);
      [by rewrite HN1|].
    destruct (write_spec data q2 Hq2) as (q2' & -> & Hv2 & HN2' & Hl2 & Hc2);
      [by rewrite HN2|].
    cbn [mbind Result_bind]. eexists _, q1', q2'. split; [done|]. split.
    { by rewrite HN1, HN2, Hs. }
    do 2 (split; [done|]). split; [congruence|]. split; [congruence|].
    split; [by rewrite Hc1, Hc2, Hc|]. split; [|done].
    rewrite Hl1, Hl2. congruence.
  - destruct (read_same_contents n channels q1 q2) as
      (out & q1' & q2' & -> & -> & Hv1 & Hv2 & HN1' & HN2' & Hc' & Hl' & Hl);
      try done; [congruence|by destruct channels; simpl in *; [lia|]|].
    cbn [mbind Result_bind]. exists (RRead out), q1', q2'.
    do 4 (split; [done|]). split; [congruence|]. split; [congruence|]. done.
  - exists RClear, (AudioQueue.clear q1), (AudioQueue.clear q2).
    destruct (clear_spec q1 Hq1) as (? & ? & ? & ?).
    destruct (clear_spec q2 Hq2) as (? & ? & ? & ?).
    do 4 (split; [done|]). split; [congruence|]. split; [congruence|].
    split; [congruence|]. split; [congruence|done].
Qed.

(** X3 (AudioQueue.write, AudioQueue.read, AudioQueue.clear).  How the
    samples are cut into chunks cannot be observed: two queues for the same
    channels that hold the same samples - written in one piece or in many -
    answer every sequence of calls alike, with the same returned arrays and
    the same readable lengths at every step. *)
Theorem chunking_cannot_be_observed N (ops : list op) q1 q2 :
  valid q1 → valid q2 → AudioQueue._nChannels q1 = N → AudioQueue._nChannels q2 = N →
  contents q1 = contents q2 → Forall (op_callable N) ops →
  ∃ evs q1' q2',
    run ops q1 = Ok (evs, q1') ∧ run ops q2 = Ok (evs, q2')
    ∧ contents q1' = contents q2'.
Proof.
  revert q1 q2. induction ops as [|o ops IH]; intros q1 q2 Hq1 Hq2 HN1 HN2 Hc Hops.
  { by exists [], q1, q2. }
  apply Forall_cons in Hops as [Ho Hops].
  destruct (call_same_contents N o q1 q2)
    as (r & q1' & q2' & Hc1 & Hc2 & Hv1 & Hv2 & HN1' & HN2' & Hc' & Hl' & Hl);
    try done.
  destruct (IH q1' q2') as (evs & q1'' & q2'' & Hr1 & Hr2 & Hc''); try done.
  cbn [run]. rewrite Hc1, Hc2. cbn [mbind Result_bind]. rewrite Hr1, Hr2.
  cbn [mbind Result_bind]. eexists _, q1'', q2''. split; [done|].
  split; [by rewrite Hl, Hl'|done].
Qed.

(** X4 (AudioQueue.write, AudioQueue.read).  A write of no samples returns
    [false] with the readable length unchanged and stores an empty chunk;
    after it every read returns what it would have returned without it and
    leaves the same samples and the same readable length. *)
Theorem empty_write_is_invisible nSamples channels q :
  valid q → covers q channels →
  ∃ q0 out q' q0',
    AudioQueue.write [] q = Ok ((false, AudioQueue.getNReadableSamples q), q0)
    ∧ AudioQueue._queue q0 = AudioQueue._queue q ++ [[]]
    ∧ AudioQueue.read nSamples channels q = Ok (out, q')
    ∧ AudioQueue.read nSamples channels q0 = Ok (out, q0')
    ∧ contents q0' = contents q'
    ∧ AudioQueue.getNReadableSamples q0' = AudioQueue.getNReadableSamples q'.
Proof.
  intros Hq Hcov.
  destruct (write_spec [] q Hq) as (q0 & Hw & Hv0 & HN0 & Hl0 & Hc0); [by exists 0|].
  rewrite app_nil_r in Hc0.
  assert (AudioQueue._queue q0 = AudioQueue._queue q ++ [[]]) as Hchunks
    by (unfold AudioQueue.write in Hw; by inversion Hw).
  simpl in Hw. rewrite Nat.Div0.div_0_l, Nat.add_0_r in Hw.
  destruct (read_same_contents nSamples channels q q0)
    as (out & q' & q0' & Hr & Hr0 & _ & _ & _ & _ & Hc' & Hl' & _); try done.
  exists q0, out, q', q0'. by rewrite Hc', Hl'.
Qed.

(** X5 (AudioQueue.read).  Reads compose: when [n + m] frames are available,
    a read of [n] frames followed by a read of [m] frames returns, channel by
    channel, arrays that joined are the array of a single read of [n + m]
    frames, and leaves the same samples and the same readable length. *)
Theorem consecutive_reads_compose n m q :
  valid q → 0 < n → 0 < m → n + m ≤ AudioQueue.getNReadableSamples q →
  ∃ out1 q1 out2 q2 out q',
    AudioQueue.read n None q = Ok (out1, q1)
    ∧ AudioQueue.read m None q1 = Ok (out2, q2)
    ∧ AudioQueue.read (n + m) None q = Ok (out, q')
    ∧ contents q2 = contents q'
    ∧ AudioQueue.getNReadableSamples q2 = AudioQueue.getNReadableSamples q'
    ∧ ∀ j, j < AudioQueue._nChannels q →
        ∃ a b, out1 !! j = Some a ∧ out2 !! j = Some b ∧ out !! j = Some (a ++ b)
               ∧ length a = n ∧ length b = m.
Proof.
  unfold AudioQueue.getNReadableSamples. intros Hq Hn Hm Hnm.
  destruct (read_spec n None q Hq I) as (q1 & Hr1 & Hv1 & HN1 & _ & Hl1 & Hc1).
  destruct (read_spec m None q1 Hv1 I) as (q2 & Hr2 & Hv2 & HN2 & _ & Hl2 & Hc2).
  destruct (read_spec (n + m) None q Hq I) as (q' & Hr & Hv & HN & _ & Hl & Hc).
  cbn zeta in *.
  replace (n `min` AudioQueue._samplesInQueue q) with n in * by lia.
  replace (m `min` AudioQueue._samplesInQueue q1) with m in * by lia.
  replace ((n + m) `min` AudioQueue._samplesInQueue q) with (n + m) in * by lia.
  eexists _, q1, _, q2, _, q'. do 3 (split; [done|]).
  split; [rewrite Hc2, Hc1, Hc, HN1, drop_drop; f_equal; lia|].
  split; [lia|]. intros j Hj.
  pose proof (length_channel_contents q j Hq) as Hlen.
  rewrite read_output_alloc by (done || lia).
  rewrite read_output_alloc by (done || lia).
  rewrite read_output_alloc by (done || lia).
  replace (n `min` AudioQueue._samplesInQueue q) with n by lia.
  replace (m `min` AudioQueue._samplesInQueue q1) with m by lia.
  replace ((n + m) `min` AudioQueue._samplesInQueue q) with (n + m) by lia.
  rewrite !Nat.sub_diag. simpl. rewrite !app_nil_r.
  eexists _, _. do 2 (split; [done|]).
  rewrite Hc1, HN1, channel_of_drop by apply Hq.
  split; [by rewrite take_take_drop|].
  rewrite !length_take, length_drop. lia.
Qed.
End QueueExtras.

(** * Further properties of the script-processor backend *)

Section BackendExtras.
Context {A R : Type} `{!Sample A, !RingBuffer A R}.
Implicit Types (q : AudioQueue.t A) (outputBuffer : list (list A))
  (b : ScriptProcessorBackend.t A R).

(** A pull on a backend over the queue, whatever its state. *)
Lemma playNext_queue bs nc thr ty q st calls outputBuffer :
  valid q → AudioQueue._nChannels q = nc → length outputBuffer = nc →
  let fill := AudioQueue.getNReadableSamples q in
  let s' := transition st fill thr in
  ∃ out q',
    ScriptProcessorBackend._playNext outputBuffer
      (ScriptProcessorBackend.mk bs nc thr ty (Buffer.Queue q) st calls)
    = Ok (out, ScriptProcessorBackend.mk bs nc thr ty (Buffer.Queue q') s'
                 (calls ++ notifications st s'))
    ∧ valid q' ∧ AudioQueue._nChannels q' = nc
    ∧ (s' = PLAYING →
       out = read_output bs (Some outputBuffer) q
       ∧ AudioQueue.getNReadableSamples q' = fill - bs `min` fill
       ∧ contents q' = drop (bs `min` fill * nc) (contents q))
    ∧ (s' ≠ PLAYING → out = silence outputBuffer ∧ q' = q).
Proof.
  intros Hq HN Hlen fill s'. unfold ScriptProcessorBackend._playNext.
  rewrite script_updateState.
  cbn [ScriptProcessorBackend.state ScriptProcessorBackend._buffer
       ScriptProcessorBackend.bufferThreshold ScriptProcessorBackend.nChannels
       ScriptProcessorBackend.batchSize ScriptProcessorBackend.onStateChange
       ScriptProcessorBackend._bufferType Buffer.getNReadableSamples].
  fold fill. fold s'. rewrite channels_of_event by done. cbn [mbind Result_bind].
  case_decide as Hs.
  - destruct (read_spec bs (Some outputBuffer) q Hq) as (q' & Hr & Hv & HN' & _ & Hl & Hc).
    { simpl. lia. }
    cbn [Buffer.read]. rewrite Hr. cbn [mbind Result_bind].
    unfold ScriptProcessorBackend.set_buffer. cbn. rewrite Hs.
    eexists _, q'. split; [done|]. split; [done|]. split; [congruence|].
    split; [|done]. intros _. split; [done|]. rewrite <-HN. done.
  - eexists _, q. split; [by rewrite writeSilence_silence|]. done.
Qed.

(** X6 (ScriptProcessorBackend._playNext, _updateState; AudioQueue.read).  A
    pull whose update leaves or makes the state Playing returns, in each
    output array of [batchSize] samples, the next [min batchSize fill] frames
    of that channel followed by zeros, and takes those frames from the queue.
    The state after it is Playing even when the pull has drained the queue -
    the change to Starved is left to the next pull - and whatever the
    threshold once the backend is playing. *)
Theorem pull_plays_the_next_batch b q outputBuffer :
  ScriptProcessorBackend._buffer b = Buffer.Queue q →
  valid q → AudioQueue._nChannels q = ScriptProcessorBackend.nChannels b →
  length outputBuffer = ScriptProcessorBackend.nChannels b →
  Forall (λ ch, length ch = ScriptProcessorBackend.batchSize b) outputBuffer →
  transition (ScriptProcessorBackend.state b) (AudioQueue.getNReadableSamples q)
    (ScriptProcessorBackend.bufferThreshold b) = PLAYING →
  let r := ScriptProcessorBackend.batchSize b `min` AudioQueue.getNReadableSamples q in
  ∃ out b' q',
    ScriptProcessorBackend._playNext outputBuffer b = Ok (out, b')
    ∧ length out = ScriptProcessorBackend.nChannels b
    ∧ (∀ j, j < ScriptProcessorBackend.nChannels b →
         out !! j
         = Some (take r (channel_of (ScriptProcessorBackend.nChannels b) j (contents q))
                 ++ replicate (ScriptProcessorBackend.batchSize b - r) zero))
    ∧ ScriptProcessorBackend.state b' = PLAYING
    ∧ ScriptProcessorBackend.onStateChange b'
      = ScriptProcessorBackend.onStateChange b
        ++ notifications (ScriptProcessorBackend.state b) PLAYING
    ∧ ScriptProcessorBackend._buffer b' = Buffer.Queue q'
    ∧ ScriptProcessorBackend.getCurrentBufferFill b' = AudioQueue.getNReadableSamples q - r
    ∧ contents q' = drop (r * ScriptProcessorBackend.nChannels b) (contents q).
Proof.
  destruct b as [bs nc thr ty buf st calls]; simpl.
  intros -> Hq HN Hlen Hall Hplay.
  destruct (playNext_queue bs nc thr ty q st calls outputBuffer Hq HN Hlen)
    as (out & q' & Hpull & Hv & HN' & Hdata & _).
  cbn zeta in Hpull. rewrite Hplay in Hpull, Hdata.
  destruct (Hdata eq_refl) as (-> & Hfill & Hc).
  destruct (read_supplied_zero_fills bs outputBuffer q Hq) as (_ & _ & Hlenout & Hout);
    [lia|done|].
  eexists _, _, q'. split; [exact Hpull|]. split; [by rewrite Hlenout|].
  split; [|done]. intros j Hj. rewrite <-HN in *. by apply Hout.
Qed.

(** X7 (ScriptProcessorBackend._playNext, _updateState).  Over either kind of
    buffer, a pull in state Ready or Starved with fewer samples buffered than
    the threshold returns silence in the output arrays and changes nothing:
    no sample is taken, the state stays, nothing is notified. *)
Theorem pull_below_threshold_is_silent b outputBuffer :
  ScriptProcessorBackend.state b = READY ∨ ScriptProcessorBackend.state b = STARVED →
  (Z.of_nat (ScriptProcessorBackend.getCurrentBufferFill b)
   < ScriptProcessorBackend.bufferThreshold b)%Z →
  length outputBuffer = ScriptProcessorBackend.nChannels b →
  ScriptProcessorBackend._playNext outputBuffer b = Ok (silence outputBuffer, b).
Proof.
  destruct b as [bs nc thr ty buf st calls].
  unfold ScriptProcessorBackend.getCurrentBufferFill; simpl. intros Hst Hfill Hlen.
  unfold ScriptProcessorBackend._playNext. rewrite script_updateState. simpl.
  assert (transition st (Buffer.getNReadableSamples buf) thr = st) as ->.
  { destruct Hst as [-> | ->]; simpl; case_decide; (done || lia). }
  unfold notifications. rewrite (decide_True (P:=st = st)) by done.
  rewrite app_nil_r, channels_of_event by done. simpl.
  rewrite decide_False by (destruct Hst; congruence).
  by rewrite writeSilence_silence.
Qed.

Lemma feed_queue bs nc thr ty q st calls data :
  valid q → interleaved (AudioQueue._nChannels q) data →
  ∃ q',
    ScriptProcessorBackend.feed data
      (ScriptProcessorBackend.mk bs nc thr ty (Buffer.Queue q) st calls)
    = Ok (ScriptProcessorBackend.mk bs nc thr ty (Buffer.Queue q') st calls)
    ∧ valid q' ∧ AudioQueue._nChannels q' = AudioQueue._nChannels q
    ∧ contents q' = contents q ++ data
    ∧ AudioQueue.getNReadableSamples q'
      = AudioQueue.getNReadableSamples q + length data / AudioQueue._nChannels q.
Proof.
  intros Hq Hdata.
  destruct (write_spec data q Hq Hdata) as (q' & Hw & Hv & HN & Hl & Hc).
  unfold ScriptProcessorBackend.feed.
  cbn [ScriptProcessorBackend._buffer Buffer.write].
  rewrite Hw. cbn [mbind Result_bind]. by exists q'.
Qed.

(** X8 (ScriptProcessorBackend.feed; AudioQueue.write).  Feeding a backend
    over the queue never throws and only buffers: the fill grows by the
    frames fed, the samples are queued behind those already there, and the
    state, the threshold and the notifications are as before - the state
    moves on pulls alone. *)
Theorem feed_only_buffers b q data :
  ScriptProcessorBackend._buffer b = Buffer.Queue q →
  valid q → interleaved (AudioQueue._nChannels q) data →
  ∃ b' q',
    ScriptProcessorBackend.feed data b = Ok b'
    ∧ ScriptProcessorBackend._buffer b' = Buffer.Queue q'
    ∧ valid q' ∧ contents q' = contents q ++ data
    ∧ ScriptProcessorBackend.getCurrentBufferFill b'
      = ScriptProcessorBackend.getCurrentBufferFill b
        + length data / AudioQueue._nChannels q
    ∧ ScriptProcessorBackend.state b' = ScriptProcessorBackend.state b
    ∧ ScriptProcessorBackend.bufferThreshold b' = ScriptProcessorBackend.bufferThreshold b
    ∧ ScriptProcessorBackend.onStateChange b' = ScriptProcessorBackend.onStateChange b.
Proof.
  destruct b as [bs nc thr ty buf st calls]; simpl. intros -> Hq Hdata.
  destruct (feed_queue bs nc thr ty q st calls data Hq Hdata)
    as (q' & Hfeed & Hv & HN & Hc & Hl).
  eexists _, q'. split; [exact Hfeed|]. by cbn.
Qed.

(** The constructor over the queue: the context is asked for its node
    first, then the queue is made. *)
Lemma new_queue_backend (context : AudioContext.t) nChannels batchSize
    (bufferLength bufferThreshold : Z) :
  ScriptProcessorBackend.new (A:=A) (R:=R) context nChannels batchSize bufferLength
    bufferThreshold "fifo_queue"
  = match AudioContext.createScriptProcessor context batchSize 0 nChannels with
    | Raised e => Throw e
    | Returned _ =>
        if decide (bufferLength ≤ 0)%Z then Throw (Thrown "initialCapacity must be >= 1")
        else if decide (nChannels < 1) then Throw (Thrown "nChannels must >= 1")
        else Ok (ScriptProcessorBackend.mk batchSize nChannels bufferThreshold "fifo_queue"
                   (Buffer.Queue (AudioQueue.mk [] nChannels bufferLength 0)) READY [])
    end.
Proof.
  unfold ScriptProcessorBackend.new, Buffer.new, AudioQueue.new.
  destruct (AudioContext.createScriptProcessor _ _ _ _) as [[]|e]; simpl; [|done].
  by repeat (case_decide; simpl).
Qed.

(** X9 (ScriptProcessorBackend constructor, bufferLength, setBufferThreshold;
    AudioQueue constructor).  With the queue as buffer the constructor throws
    what [context.createScriptProcessor(batchSize, 0, nChannels)] raises,
    whatever its other arguments; when the context returns a node, it throws
    exactly when the buffer length is not positive or there is no channel.
    Otherwise the backend is Ready, empty and has notified nothing, its
    [bufferLength] is 0 whatever length it was given, and so
    [setBufferThreshold] accepts 0 and throws on every other value - the
    threshold it was constructed with among them. *)
Theorem fresh_queue_backend (context : AudioContext.t) nChannels batchSize
    (bufferLength bufferThreshold : Z) :
  let constructed :=
    ScriptProcessorBackend.new (A:=A) (R:=R) context nChannels batchSize bufferLength
      bufferThreshold "fifo_queue" in
  (∀ e, AudioContext.createScriptProcessor context batchSize 0 nChannels = Raised e →
        constructed = Throw e)
  ∧ (AudioContext.createScriptProcessor context batchSize 0 nChannels = Returned () →
     ((bufferLength ≤ 0)%Z ∨ nChannels = 0 → threw constructed)
     ∧ ((0 < bufferLength)%Z → 0 < nChannels →
        ∃ b, constructed = Ok b
          ∧ b = ScriptProcessorBackend.mk batchSize nChannels bufferThreshold "fifo_queue"
                  (Buffer.Queue (AudioQueue.mk [] nChannels bufferLength 0)) READY []
          ∧ ScriptProcessorBackend.bufferLength b = 0
          ∧ ScriptProcessorBackend.getCurrentBufferFill b = 0
          ∧ ∀ t, (ScriptProcessorBackend.setBufferThreshold t b).1 = Ok () ↔ t = 0%Z)).
Proof.
  cbn zeta. rewrite new_queue_backend. split.
  - by intros e ->.
  - intros ->. unfold threw. split.
    + intros Hbad. repeat case_decide; eauto. lia.
    + intros Hlen HN. repeat case_decide; try lia. eexists. split; [done|].
      split; [done|]. split; [done|]. split; [done|]. intros t.
      unfold ScriptProcessorBackend.setBufferThreshold,
        ScriptProcessorBackend.bufferLength. simpl.
      repeat case_decide; simpl; split; intros; (done || lia).
Qed.

Lemma expected_log_S k : expected_log (S k) = expected_log k ++ [state_at (S k)].
Proof. unfold expected_log. by rewrite seq_S, fmap_app. Qed.

(** One update takes the [k]-th state of the alternation to itself or to the
    next one, and notifies in the second case only. *)
Lemma transition_state_at k fill thr :
  ∃ k', transition (state_at k) fill thr = state_at k'
    ∧ expected_log k ++ notifications (state_at k) (state_at k') = expected_log k'
    ∧ k ≤ k' ≤ S k.
Proof.
  assert (∀ i, state_at (S (S i)) = if Nat.even i then STARVED else PLAYING) as Hnext_state.
  { intros i. unfold state_at. rewrite Nat.even_succ, <-Nat.negb_even.
    by destruct (Nat.even i). }
  assert (∀ i, state_at (S i) ≠ state_at (S (S i))) as Hne.
  { intros i. rewrite Hnext_state. unfold state_at. by destruct (Nat.even i). }
  assert (∀ k', expected_log k' ++ notifications (state_at k') (state_at k')
                = expected_log k') as Hsame.
  { intros k'. unfold notifications. rewrite decide_True by done. apply app_nil_r. }
  assert (∀ i, expected_log (S i) ++ notifications (state_at (S i)) (state_at (S (S i)))
               = expected_log (S (S i))) as Hnext.
  { intros i. unfold notifications. rewrite decide_False by apply Hne.
    by rewrite (expected_log_S (S i)). }
  destruct k as [|i].
  - simpl. case_decide.
    + exists 1. split; [done|]. split; [done|lia].
    + exists 0. split; [done|]. split; [done|lia].
  - pose proof (Hnext_state i) as Hss.
    assert (state_at (S i) = if Nat.even i then PLAYING else STARVED) as Hs by done.
    destruct (Nat.even i).
    + destruct (decide (fill = 0)).
      * exists (S (S i)).
        split; [rewrite Hs, Hss; simpl; by rewrite decide_True|].
        split; [apply Hnext|lia].
      * exists (S i).
        split; [rewrite Hs; simpl; by rewrite decide_False|].
        split; [apply Hsame|lia].
    + destruct (decide (thr ≤ Z.of_nat fill)%Z).
      * exists (S (S i)).
        split; [rewrite Hs, Hss; simpl; by rewrite decide_True|].
        split; [apply Hnext|lia].
      * exists (S i).
        split; [rewrite Hs; simpl; by rewrite decide_False|].
        split; [apply Hsame|lia].
Qed.

(** The alternation is kept by every call within the contract. *)
Lemma backend_call_alternates N o b q k :
  backend_op_ok N o →
  ScriptProcessorBackend._buffer b = Buffer.Queue q → valid q →
  AudioQueue._nChannels q = N → ScriptProcessorBackend.nChannels b = N →
  ScriptProcessorBackend.state b = state_at k →
  ScriptProcessorBackend.onStateChange b = expected_log k →
  ∃ b' q' k',
    backend_call o b = Ok b'
    ∧ ScriptProcessorBackend._buffer b' = Buffer.Queue q' ∧ valid q'
    ∧ AudioQueue._nChannels q' = N ∧ ScriptProcessorBackend.nChannels b' = N
    ∧ ScriptProcessorBackend.state b' = state_at k'
    ∧ ScriptProcessorBackend.onStateChange b' = expected_log k'
    ∧ k ≤ k' ≤ k + pulls [o].
Proof.
  destruct b as [bs nc thr ty buf st calls]; simpl.
  intros Hok -> Hq HN -> -> ->. destruct o as [data|outputBuffer| |threshold]; simpl in Hok.
  - destruct (feed_queue bs N thr ty q (state_at k) (expected_log k) data Hq)
      as (q' & Hfeed & Hv & HN' & _); [by rewrite HN|].
    eexists _, q', k. split; [exact Hfeed|]. simpl.
    do 2 (split; [done|]). split; [congruence|]. do 3 (split; [done|]). lia.
  - destruct (playNext_queue bs N thr ty q (state_at k) (expected_log k) outputBuffer
                Hq HN Hok) as (out & q' & Hpull & Hv & HN' & _).
    cbn zeta in Hpull.
    destruct (transition_state_at k (AudioQueue.getNReadableSamples q) thr)
      as (k' & Ht & Hlog & Hk).
    rewrite Ht, Hlog in Hpull. unfold backend_call. rewrite Hpull. simpl.
    eexists _, q', k'. do 7 (split; [done|]). unfold pulls; simpl; lia.
  - destruct (clear_spec q Hq) as (Hv & HN' & _).
    eexists _, (AudioQueue.clear q), k. simpl.
    do 3 (split; [done|]). split; [congruence|]. do 3 (split; [done|]). lia.
  - unfold backend_call, ScriptProcessorBackend.setBufferThreshold.
    repeat case_decide; simpl; eexists _, q, k; simpl;
      (do 7 (split; [done|])); lia.
Qed.

Lemma backend_run_alternates N ops : ∀ b q k,
  Forall (backend_op_ok N) ops →
  ScriptProcessorBackend._buffer b = Buffer.Queue q → valid q →
  AudioQueue._nChannels q = N → ScriptProcessorBackend.nChannels b = N →
  ScriptProcessorBackend.state b = state_at k →
  ScriptProcessorBackend.onStateChange b = expected_log k →
  ∃ b' k',
    backend_run ops b = Ok b'
    ∧ ScriptProcessorBackend.state b' = state_at k'
    ∧ ScriptProcessorBackend.onStateChange b' = expected_log k'
    ∧ k ≤ k' ≤ k + pulls ops.
Proof.
  induction ops as [|o ops IH]; intros b q k Hops Hb Hq HN HNb Hst Hlog.
  - exists b, k. do 3 (split; [done|]). lia.
  - inversion Hops as [|? ? Ho Hops']; subst.
    destruct (backend_call_alternates _ o b q k Ho Hb Hq eq_refl HNb Hst Hlog)
      as (b1 & q1 & k1 & Hcall & Hb1 & Hq1 & HN1 & HNb1 & Hst1 & Hlog1 & Hk1).
    destruct (IH b1 q1 k1 Hops' Hb1 Hq1 HN1 HNb1 Hst1 Hlog1)
      as (b' & k' & Hrun & Hst' & Hlog' & Hk').
    exists b', k'. simpl. rewrite Hcall. simpl. do 3 (split; [done|]).
    assert (pulls (o :: ops) = pulls [o] + pulls ops) as ->; [|lia].
    unfold pulls. rewrite !fmap_cons. cbn [sum_list sum_list_with fmap list_fmap]. lia.
Qed.

Lemma on_state_changes_app states1 states2 (node : FeederNode.t A R) :
  on_state_changes (states1 ++ states2) node
  = node ← on_state_changes states1 node; on_state_changes states2 node.
Proof.
  revert node. induction states1 as [|s states1 IH]; intros node; [done|].
  simpl. destruct (FeederNode._onBackendStateChange s node); simpl; [apply IH|done..].
Qed.

Lemma on_state_changes_expected k (node : FeederNode.t A R) :
  on_state_changes (expected_log k) node
  = Ok (FeederNode.mk (FeederNode._resampler node) (FeederNode._backend node)
          (FeederNode.hooks node ++ expected_log k)).
Proof.
  induction k as [|k IH].
  - destruct node. simpl. by rewrite app_nil_r.
  - rewrite expected_log_S, on_state_changes_app, IH. simpl.
    rewrite app_assoc. by destruct (Nat.even k).
Qed.

(** X10 (ScriptProcessorBackend constructor, feed, _playNext, _updateState,
    clearBuffer, setBufferThreshold; FeederNode._onBackendStateChange).  A
    backend constructed over the queue goes through any sequence of feeds of
    interleaved data, pulls with one output array per channel, clears and
    threshold changes without throwing.  Its notifications are then Playing,
    Starved, Playing, ... in strict alternation, beginning with Playing; its
    state is the last one notified, or Ready when there was none; only pulls
    notify, each at most once; and the owner's handler accepts every one of
    the notifications, calling the hook of each in order. *)
Theorem notifications_alternate (context : AudioContext.t) nChannels batchSize
    (bufferLength bufferThreshold : Z) ops b (node : FeederNode.t A R) :
  ScriptProcessorBackend.new context nChannels batchSize bufferLength bufferThreshold
    "fifo_queue"
  = Ok b →
  Forall (backend_op_ok nChannels) ops →
  ∃ b' k,
    backend_run ops b = Ok b'
    ∧ k ≤ pulls ops
    ∧ ScriptProcessorBackend.state b' = state_at k
    ∧ ScriptProcessorBackend.onStateChange b' = expected_log k
    ∧ on_state_changes (ScriptProcessorBackend.onStateChange b') node
      = Ok (FeederNode.mk (FeederNode._resampler node) (FeederNode._backend node)
              (FeederNode.hooks node ++ ScriptProcessorBackend.onStateChange b')).
Proof.
  unfold ScriptProcessorBackend.new, Buffer.new.
  destruct (AudioContext.createScriptProcessor _ _ _ _); [|done].
  rewrite decide_True by done. cbn [of_call mbind Result_bind].
  destruct (AudioQueue.new bufferLength nChannels) as [q| |] eqn:Hnew; [|done..].
  destruct (new_valid _ _ _ Hnew) as (Hq & HN & _). simpl. intros [= <-] Hops.
  destruct (backend_run_alternates nChannels ops
              (ScriptProcessorBackend.mk batchSize nChannels bufferThreshold "fifo_queue"
                 (Buffer.Queue q) READY [])
              q 0 Hops eq_refl Hq HN eq_refl eq_refl eq_refl)
    as (b' & k & Hrun & Hst & Hlog & Hk).
  exists b', k. split; [done|]. split; [lia|]. split; [done|]. split; [done|].
  rewrite Hlog. apply on_state_changes_expected.
Qed.
End BackendExtras.

(** * Further properties of the audio-worklet processor and its backend *)

Section WorkletExtras.
Context {A R : Type} `{!Sample A, !RingBuffer A R}.
Implicit Types (p : WorkletProcessor.t A R) (q : AudioQueue.t A).

(** X11 (WorkletProcessor.process, _updateState; ScriptProcessorBackend.
    _playNext, _updateState).  On the same state, threshold and buffer - of
    either kind - [process] of the worklet processor does what [_playNext] of
    a script-processor backend with batch size 128 does: the same samples in
    the output arrays, the same buffer and state afterwards, an exception
    exactly when the other throws, and one [stateChange] message for each of
    the other's notifications. *)
Theorem process_is_playNext_with_128 (st : BackendState) (threshold : Z) ty
    (buf : Buffer.t A R) port output :
  WorkletProcessor.process output (WorkletProcessor.mk (Some threshold) st ty (Some buf) port)
  = '(out, b) ← ScriptProcessorBackend._playNext output
                  (ScriptProcessorBackend.mk WorkletProcessor.BATCH_SIZE (length output)
                     threshold ty buf st []);
    Ok (out, WorkletProcessor.mk (Some threshold) (ScriptProcessorBackend.state b) ty
               (Some (ScriptProcessorBackend._buffer b))
               (port ++ (Message.stateChange <$> ScriptProcessorBackend.onStateChange b))).
Proof.
  unfold WorkletProcessor.process, ScriptProcessorBackend._playNext.
  rewrite worklet_updateState, script_updateState. simpl.
  rewrite channels_of_event by done. simpl.
  case_decide; simpl; [|done].
  by destruct (Buffer.read _ _ buf) as [[out buf']| |].
Qed.

(** X12 (WorkletProcessor constructor, process, _updateState, _onMessage,
    _feed, _sendBufferFill).  A processor that has not been initialised plays
    silence and posts nothing; it ignores a request for the fill and a clear,
    and takes a threshold without leaving its state; but a [feed] raises a
    TypeError, for there is no buffer to write to. *)
Theorem before_init p output :
  WorkletProcessor.state p = UNINITIALIZED → WorkletProcessor._buffer p = None →
  WorkletProcessor.process output p = Ok (silence output, p)
  ∧ (∀ data, WorkletProcessor._onMessage (Message.feed data) p = Throw TypeError)
  ∧ (∀ callbackId, WorkletProcessor._onMessage (Message.getBufferFill callbackId) p = Ok p)
  ∧ WorkletProcessor._onMessage Message.clearBuffer p = Ok p
  ∧ (∀ threshold,
       WorkletProcessor._onMessage (Message.setBufferThreshold threshold) p
       = Ok (WorkletProcessor.mk (Some threshold) UNINITIALIZED
               (WorkletProcessor._bufferType p) None (WorkletProcessor.port p))).
Proof.
  destruct p as [thr st ty buf port]; simpl. intros -> ->.
  split.
  { unfold WorkletProcessor.process. rewrite worklet_updateState_uninitialized by done.
    simpl. by rewrite writeSilence_silence. }
  done.
Qed.

(** X13 (WorkletProcessor._onMessage, _init, _notifyStateChange; AudioQueue
    constructor; AudioWorkletBackend._onMessage; FeederNode.
    _onBackendStateChange).  An [init] message for the queue, sent to a
    processor in any condition, throws when the buffer length is not positive
    or there is no channel.  Otherwise it leaves the processor Ready with the
    threshold of the message and an empty queue - what was buffered before is
    gone - and posts exactly one message, [stateChange] to Ready; the backend
    hands that state to its owner and is otherwise as it was, and the owner's
    handler calls the hook for Ready. *)
Theorem init_makes_ready p nChannels (bufferLength bufferThreshold : Z)
    (b : AudioWorkletBackend.t A) (node : FeederNode.t A R) :
  ((bufferLength ≤ 0)%Z ∨ nChannels = 0 →
   threw (WorkletProcessor._onMessage
            (Message.init nChannels bufferLength bufferThreshold "fifo_queue") p))
  ∧ ((0 < bufferLength)%Z → 0 < nChannels →
     WorkletProcessor._onMessage
       (Message.init nChannels bufferLength bufferThreshold "fifo_queue") p
     = Ok (WorkletProcessor.mk (Some bufferThreshold) READY "fifo_queue"
             (Some (Buffer.Queue (AudioQueue.mk [] nChannels bufferLength 0)))
             (WorkletProcessor.port p ++ [Message.stateChange READY]))
     ∧ AudioWorkletBackend._onMessage (Message.stateChange READY) b
       = Ok (AudioWorkletBackend.mk (AudioWorkletBackend.nChannels b)
               (AudioWorkletBackend.bufferLength b) (AudioWorkletBackend.batchSize b)
               (AudioWorkletBackend.state b) (AudioWorkletBackend._currentBufferFill b)
               (AudioWorkletBackend._bufferFillCallbacks b)
               (AudioWorkletBackend._nextCallbackId b) (AudioWorkletBackend._bufferType b)
               (AudioWorkletBackend.port b)
               (AudioWorkletBackend.onStateChange b ++ [READY])
               (AudioWorkletBackend.callbacks b))
     ∧ FeederNode._onBackendStateChange READY node
       = Ok (FeederNode.mk (FeederNode._resampler node) (FeederNode._backend node)
               (FeederNode.hooks node ++ [READY]))).
Proof.
  unfold WorkletProcessor._onMessage, WorkletProcessor._init, Buffer.new, AudioQueue.new,
    threw, BufferType.FIFO_QUEUE.
  simpl. split.
  - intros Hbad. repeat case_decide; simpl; eauto. lia.
  - intros Hlen HN. repeat case_decide; try lia; done.
Qed.

Lemma processor_feed_queue thr st ty q port data :
  valid q → interleaved (AudioQueue._nChannels q) data →
  ∃ q',
    WorkletProcessor._onMessage (Message.feed data)
      (WorkletProcessor.mk thr st ty (Some (Buffer.Queue q)) port)
    = Ok (WorkletProcessor.mk thr st ty (Some (Buffer.Queue q'))
            (port ++ [Message.bufferFillUpdate (AudioQueue.getNReadableSamples q') None]))
    ∧ valid q' ∧ AudioQueue._nChannels q' = AudioQueue._nChannels q
    ∧ contents q' = contents q ++ data
    ∧ AudioQueue.getNReadableSamples q'
      = AudioQueue.getNReadableSamples q + length data / AudioQueue._nChannels q.
Proof.
  intros Hq Hdata.
  destruct (write_spec data q Hq Hdata) as (q' & Hw & Hv & HN & Hl & Hc).
  unfold WorkletProcessor._onMessage, WorkletProcessor._feed, WorkletProcessor.buffer.
  cbn [WorkletProcessor._buffer mbind Result_bind Buffer.write].
  rewrite Hw. cbn [mbind Result_bind].
  unfold WorkletProcessor._sendBufferFill. cbn. by exists q'.
Qed.

(** X14 (WorkletProcessor._onMessage, _feed, _sendBufferFill; AudioQueue.write;
    AudioWorkletBackend._onMessage, getCurrentBufferFill).  A [feed] message
    to a processor over the queue queues the data and posts exactly one
    message, the new fill - the fill before plus the frames fed - and never a
    change of buffer length; state and threshold stay.  The backend that
    receives the message calls no callback, and its next
    [getCurrentBufferFill] returns that fill. *)
Theorem processor_feed_reports_fill p q data (b : AudioWorkletBackend.t A) :
  WorkletProcessor._buffer p = Some (Buffer.Queue q) →
  valid q → interleaved (AudioQueue._nChannels q) data →
  let fill := AudioQueue.getNReadableSamples q + length data / AudioQueue._nChannels q in
  ∃ p' q' b',
    WorkletProcessor._onMessage (Message.feed data) p = Ok p'
    ∧ WorkletProcessor._buffer p' = Some (Buffer.Queue q')
    ∧ contents q' = contents q ++ data
    ∧ WorkletProcessor.port p'
      = WorkletProcessor.port p ++ [Message.bufferFillUpdate fill None]
    ∧ WorkletProcessor.state p' = WorkletProcessor.state p
    ∧ WorkletProcessor.bufferThreshold p' = WorkletProcessor.bufferThreshold p
    ∧ AudioWorkletBackend._onMessage (Message.bufferFillUpdate fill None) b = Ok b'
    ∧ AudioWorkletBackend.callbacks b' = AudioWorkletBackend.callbacks b
    ∧ (AudioWorkletBackend.getCurrentBufferFill b').1 = fill.
Proof.
  destruct p as [thr st ty buf port]; simpl. intros -> Hq Hdata.
  destruct (processor_feed_queue thr st ty q port data Hq Hdata)
    as (q' & Hfeed & Hv & HN & Hc & Hl).
  eexists _, q', _. split; [exact Hfeed|]. simpl. rewrite Hl.
  do 5 (split; [done|]). split; [done|]. done.
Qed.

(** X15 (AudioWorkletBackend.getCurrentBufferFill, _onMessage;
    WorkletProcessor._onMessage, _sendBufferFill).  [getCurrentBufferFill]
    answers one round late: the call returns the fill last reported, and
    posts a request; the processor, over either kind of buffer, answers the
    request with its readable length; once the backend has received the
    answer, the next call returns that length. *)
Theorem fill_query_round_trip (b : AudioWorkletBackend.t A) p (buf : Buffer.t A R) :
  WorkletProcessor._buffer p = Some buf →
  let '(fill1, b1) := AudioWorkletBackend.getCurrentBufferFill b in
  fill1 = AudioWorkletBackend._currentBufferFill b
  ∧ AudioWorkletBackend.port b1 = AudioWorkletBackend.port b ++ [Message.getBufferFill None]
  ∧ ∃ answer p' b2,
      WorkletProcessor._onMessage (Message.getBufferFill None) p = Ok p'
      ∧ WorkletProcessor.port p' = WorkletProcessor.port p ++ [answer]
      ∧ WorkletProcessor._buffer p' = Some buf
      ∧ AudioWorkletBackend._onMessage answer b1 = Ok b2
      ∧ (AudioWorkletBackend.getCurrentBufferFill b2).1 = Buffer.getNReadableSamples buf.
Proof.
  destruct p as [thr st ty ? port]; simpl. intros ->.
  split; [done|]. split; [done|].
  eexists _, _, _. unfold WorkletProcessor._onMessage, WorkletProcessor._sendBufferFill.
  simpl. split; [done|]. split; [done|]. split; [done|]. split; [done|]. done.
Qed.

Lemma worklet_backend_call_invariant (o : worklet_backend_op (A:=A)) b :
  AudioWorkletBackend.state b = READY →
  AudioWorkletBackend._bufferFillCallbacks b = [] →
  let b' := worklet_backend_call o b in
  AudioWorkletBackend.state b' = READY
  ∧ AudioWorkletBackend._bufferFillCallbacks b' = []
  ∧ AudioWorkletBackend.batchSize b' = AudioWorkletBackend.batchSize b
  ∧ AudioWorkletBackend.nChannels b' = AudioWorkletBackend.nChannels b
  ∧ AudioWorkletBackend._bufferType b' = AudioWorkletBackend._bufferType b
  ∧ AudioWorkletBackend.callbacks b' = AudioWorkletBackend.callbacks b
  ∧ feed_messages (AudioWorkletBackend.port b')
    = feed_messages (AudioWorkletBackend.port b) ++ fed [o]
  ∧ AudioWorkletBackend.onStateChange b'
    = AudioWorkletBackend.onStateChange b ++ state_changes [o].
Proof.
  destruct b as [n len bs st fill cbs next ty port calls called]; simpl.
  intros -> ->. unfold feed_messages, fed, state_changes.
  destruct o as [data| | |threshold|e|]; simpl;
    rewrite ?omap_app, ?app_nil_r; simpl; try done.
  - unfold AudioWorkletBackend.setBufferThreshold. simpl.
    repeat case_decide; simpl; rewrite ?omap_app, ?app_nil_r; done.
  - destruct e as [len'|s|fill' id|c]; simpl; rewrite ?app_nil_r; try done.
    destruct id as [id|]; [|done]. by rewrite andb_false_r.
Qed.

(** X16 (AudioWorkletBackend constructor, feed, setPort, getCurrentBufferFill,
    setBufferThreshold, _onMessage, clearBuffer).  Whatever is called on an
    audio-worklet backend after its construction, and whatever messages reach
    it, its state stays Ready and its batch size 128: no data is ever held
    back by [feed], which posts every array it is given, in order.  The owner
    is told of exactly the states that the processor reports, and since
    nothing registers a fill callback, none is ever called. *)
Theorem worklet_backend_stays_ready nChannels (bufferLength : Z) bufferType
    (ops : list (worklet_backend_op (A:=A))) :
  let b := worklet_backend_run ops
             (AudioWorkletBackend.new nChannels bufferLength bufferType) in
  AudioWorkletBackend.state b = READY
  ∧ AudioWorkletBackend.batchSize b = 128
  ∧ AudioWorkletBackend.nChannels b = nChannels
  ∧ AudioWorkletBackend.getBufferType b = bufferType
  ∧ feed_messages (AudioWorkletBackend.port b) = fed ops
  ∧ AudioWorkletBackend.onStateChange b = state_changes ops
  ∧ AudioWorkletBackend.callbacks b = [].
Proof.
  cut (∀ b0 : AudioWorkletBackend.t A,
         AudioWorkletBackend.state b0 = READY →
         AudioWorkletBackend._bufferFillCallbacks b0 = [] →
         let b := worklet_backend_run ops b0 in
         AudioWorkletBackend.state b = READY
         ∧ AudioWorkletBackend.batchSize b = AudioWorkletBackend.batchSize b0
         ∧ AudioWorkletBackend.nChannels b = AudioWorkletBackend.nChannels b0
         ∧ AudioWorkletBackend._bufferType b = AudioWorkletBackend._bufferType b0
         ∧ feed_messages (AudioWorkletBackend.port b)
           = feed_messages (AudioWorkletBackend.port b0) ++ fed ops
         ∧ AudioWorkletBackend.onStateChange b
           = AudioWorkletBackend.onStateChange b0 ++ state_changes ops
         ∧ AudioWorkletBackend.callbacks b = AudioWorkletBackend.callbacks b0).
  { intros Hinv. exact (Hinv (AudioWorkletBackend.new nChannels bufferLength bufferType)
                          eq_refl eq_refl). }
  induction ops as [|o ops IH]; intros b0 Hst Hcbs.
  - simpl. unfold fed, state_changes. simpl. by rewrite !app_nil_r.
  - destruct (worklet_backend_call_invariant o b0 Hst Hcbs)
      as (Hst1 & Hcbs1 & Hbs & Hn & Hty & Hcalled & Hfeed & Hlog).
    destruct (IH (worklet_backend_call o b0) Hst1 Hcbs1)
      as (Hst' & Hbs' & Hn' & Hty' & Hfeed' & Hlog' & Hcalled').
    unfold worklet_backend_run in *. simpl.
    split; [done|]. split; [congruence|]. split; [congruence|]. split; [congruence|].
    split; [|split; [|congruence]].
    + rewrite Hfeed', Hfeed, <-app_assoc. f_equal.
      unfold fed. by rewrite <-omap_app.
    + rewrite Hlog', Hlog, <-app_assoc. f_equal.
      unfold state_changes. by rewrite <-omap_app.
Qed.
End WorkletExtras.

(** * Further properties of [createNode] and [createQueueNode] *)

Section IndexExtras.
Context {A R : Type} `{!Sample A, !RingBuffer A R}.

Lemma to_nat_Some a n : Number.to_nat a = Some n → Number.to_Z a = Some (Z.of_nat n).
Proof.
  unfold Number.to_nat. destruct (Number.to_Z a) as [z|]; [|done].
  case_decide; [|done]. intros [= <-]. f_equal. lia.
Qed.

(** A bound that validation has checked holds of the integer. *)
Lemma not_below_to_Z (lo : Z) a z :
  not_below (Number.Num (inject_Z lo)) a → Number.to_Z a = Some z → (lo ≤ z)%Z.
Proof.
  intros Hlo Hz. apply to_Z_Some in Hz as (q & -> & Hq).
  destruct Hlo as [?|[?|Hle]]; try done. simpl in Hle. rewrite Hq in Hle.
  by rewrite Zle_Qle.
Qed.

Lemma truthy_to_Z a z : Number.falsy a = false → Number.to_Z a = Some z → z ≠ 0%Z.
Proof.
  intros Ha Hz. apply to_Z_Some in Hz as (q & -> & Hq). simpl in Ha.
  intros ->. apply Qeq_bool_iff in Hq. change (inject_Z 0) with 0%Q in Hq. congruence.
Qed.

Lemma or_number_nonzero o d :
  Index.or_number
    match o with
    | Some (Number.Num q) => if Qeq_bool q 0 then None else o
    | _ => o
    end d
  = Index.or_number o d.
Proof.
  destruct o as [[q| | |]|]; try done. simpl.
  destruct (Qeq_bool q 0) eqn:Hq; simpl; by rewrite ?Hq.
Qed.

(** [createNode] on a configuration that passes validation and is made of
    integers. *)
Lemma createNode_validated env context N options n bs len thr :
  Index.validate (Some N) (effective_batchSize env options)
    (effective_bufferThreshold options) (effective_bufferLength options)
    (effective_converterType options) (effective_inputSampleRate context options)
    (effective_bufferType options) = Ok () →
  Number.to_nat N = Some n →
  Number.to_nat (effective_batchSize env options) = Some bs →
  Number.to_Z (effective_bufferLength options) = Some len →
  Number.to_Z (effective_bufferThreshold options) = Some thr →
  Index.createNode (A:=A) (R:=R) env context (Some N) options
  = Some
      match Index.createBackend env context n bs len thr (effective_bufferType options) with
      | Rejected e => ([], Returned (Rejected e))
      | Pending => ([], Returned Pending)
      | Resolved backend =>
          match Index.createResampler env N (effective_inputSampleRate context options)
                  (AudioContext.sampleRate context) (effective_converterType options) with
          | Rejected e => ([Index.backend_created], Returned (Rejected e))
          | Pending => ([Index.backend_created], Returned Pending)
          | Resolved resampler =>
              ([Index.backend_created; Index.resampler_created],
               Returned (Resolved (FeederNode.new resampler backend)))
          end
      end.
Proof.
  intros Hvalid Hn Hbs Hlen Hthr. unfold Index.createNode. cbn zeta.
  fold (effective_batchSize env options) (effective_bufferThreshold options)
       (effective_bufferLength options) (effective_bufferType options)
       (effective_inputSampleRate context options).
  change (match Index.resampConverterType options with
          | Some c => c
          | None => Index.SRC_SINC_FASTEST
          end) with (effective_converterType options).
  change (Index.or_string (Index.bufferType options) BufferType.RING_BUFFER)
    with (effective_bufferType options).
  by rewrite Hvalid, Hn, Hbs, Hlen, Hthr.
Qed.

(** X17 (index.js: createQueueNode, createNode, validate, createBackend,
    createResampler; ScriptProcessorBackend, AudioQueue and FeederNode
    constructors; createAudioWorklet).  [createQueueNode] overrides whatever
    buffer type the options name.  Once its configuration - of integers -
    passes validation, the checks of the queue's constructor cannot fail, for
    they are implied by those of [validate]: the promise that the call
    returns is rejected only with what the context raised from
    [createScriptProcessor] or from [addModule], nothing having been
    created, or with the rejection of the resampler, the backend having been
    created.  When the context returns its node and the resampler is there,
    the promise resolves with a node over the queue: without AudioWorklet
    over a script-processor backend that is Ready and empty; with it, once
    the module is loaded and the worklet node made, over a worklet backend of
    batch size 128 - whatever batch size was asked for - whose port has
    received [init] and, when the resampler is a worker, [connect]. *)
Theorem createQueueNode_outcome (env : Index.Environment) (context : AudioContext.t)
    N options n bs len thr :
  in_range (Some N) (effective_batchSize env options)
    (effective_bufferThreshold options) (effective_bufferLength options)
    (effective_converterType options) (effective_inputSampleRate context options)
    "fifo_queue" →
  Number.to_nat N = Some n →
  Number.to_nat (effective_batchSize env options) = Some bs →
  Number.to_Z (effective_bufferLength options) = Some len →
  Number.to_Z (effective_bufferThreshold options) = Some thr →
  let resampler :=
    Index.createResampler env N (effective_inputSampleRate context options)
      (AudioContext.sampleRate context) (effective_converterType options) in
  ∃ resources promise,
    Index.createQueueNode (A:=A) (R:=R) env context (Some N) options
    = Some (resources, Returned promise)
    ∧ (∀ e, promise = Rejected e →
         (resources = [] ∧ Index.AudioWorklet env = false
          ∧ AudioContext.createScriptProcessor context bs 0 n = Raised e)
         ∨ (resources = [] ∧ Index.AudioWorklet env = true
            ∧ AudioContext.addModule context = Raised e)
         ∨ (resources = [Index.backend_created] ∧ resampler = Rejected e))
    ∧ (Index.AudioWorklet env = false →
       AudioContext.createScriptProcessor context bs 0 n = Returned () →
       ∀ r, resampler = Resolved r →
         resources = [Index.backend_created; Index.resampler_created]
         ∧ promise
           = Resolved
               (FeederNode.mk r
                  (FeederNode.ScriptProcessor
                     (ScriptProcessorBackend.mk bs n thr "fifo_queue"
                        (Buffer.Queue (AudioQueue.mk [] n len 0)) READY []))
                  []))
    ∧ (Index.AudioWorklet env = true →
       AudioContext.addModule context = Returned (Resolved ()) →
       Index.AudioWorkletNode env n = Returned () →
       ∀ r, resampler = Resolved r →
         resources = [Index.backend_created; Index.resampler_created]
         ∧ ∃ node b,
             promise = Resolved node
             ∧ FeederNode._resampler node = r
             ∧ FeederNode._backend node = FeederNode.AudioWorklet b
             ∧ FeederNode.hooks node = []
             ∧ FeederNode.getBufferType node = "fifo_queue"
             ∧ FeederNode.nChannels node = n
             ∧ FeederNode.batchSize node = 128
             ∧ AudioWorkletBackend.state b = READY
             ∧ AudioWorkletBackend.port b
               = Message.init n len thr "fifo_queue"
                 :: (if Index.WebAssembly env then [Message.connect] else [])).
Proof.
  intros Hrange Hn Hbs Hlen Hthr resampler.
  pose proof Hrange as [(? & [= <-] & HN1 & _) _ Hlen16 _ _ _ _].
  apply validate_in_range in Hrange.
  pose proof (not_below_to_Z 1 _ _ HN1 (to_nat_Some _ _ Hn)) as Hn1.
  pose proof (not_below_to_Z 16384 _ _ Hlen16 Hlen) as Hlen1.
  unfold Index.createQueueNode. cbn zeta.
  match goal with
  | |- context [Index.createNode env context (Some N) ?o] => set (options' := o)
  end.
  rewrite (createNode_validated env context N options' n bs len thr Hrange Hn Hbs Hlen Hthr).
  change (effective_bufferType options') with "fifo_queue".
  change (Index.createResampler env N _ _ _) with resampler. clear options'.
  unfold Index.createBackend.
  destruct (Index.AudioWorklet env).
  - unfold Index.createAudioWorklet.
    destruct (AudioContext.addModule context) as [[[]|e|]|e];
      [destruct (Index.AudioWorkletNode env n) as [[]|e]|..]; simpl.
    + assert (∀ r, resampler = Resolved r →
                r = if Index.WebAssembly env
                    then FeederNode.WorkerResampler else FeederNode.MainThreadResampler)
        as Hkind.
      { subst resampler. unfold Index.createResampler. intros r.
        destruct (Index.WebAssembly env).
        - destruct (Index.createWorkerResampler _ _ _ _ _) as [[[]|?|]|?]; simpl;
            by intros [= <-].
        - destruct (Index.MainThreadResampler _ _ _ _) as [[]|?]; simpl;
            by intros [= <-]. }
      destruct resampler as [r|e|] eqn:Hres; eexists _, _; (split; [done|]).
      * split; [done|]. split; [done|]. intros _ _ _ r' [= <-].
        split; [done|]. rewrite (Hkind r eq_refl).
        destruct (Index.WebAssembly env); by eexists _, _.
      * split; [intros e' [= <-]; auto|]. split; [done|]. by intros _ _ _ r [=].
      * split; [done|]. split; [done|]. by intros _ _ _ r [=].
    + eexists _, _. split; [done|]. split; [done|]. split; [done|]. by intros _ _ [=].
    + eexists _, _. split; [done|]. split; [done|]. split; [done|]. by intros _ [=].
    + eexists _, _. split; [done|]. split; [done|]. split; [done|]. by intros _ [=].
    + eexists _, _. split; [done|]. split; [intros e' [= <-]; auto|].
      split; [done|]. by intros _ [=].
  - rewrite new_queue_backend.
    destruct (AudioContext.createScriptProcessor context bs 0 n) as [[]|e]; simpl.
    + rewrite decide_False by lia. rewrite decide_False by lia. simpl.
      destruct resampler as [r|e|] eqn:Hres; eexists _, _; (split; [done|]).
      * split; [done|]. split; [|done]. intros _ _ r' [= <-]. split; [done|].
        by destruct r.
      * split; [intros e' [= <-]; auto|]. split; [|done]. by intros _ _ r [=].
      * split; [done|]. split; [|done]. by intros _ _ r [=].
    + eexists _, _. split; [done|]. split; [intros e' [= <-]; auto|].
      split; [|done]. by intros _ [=].
Qed.

(** X18 (index.js: createNode; ScriptProcessorBackend._playNext,
    _updateState).  [createNode] takes a zero among its numeric options for
    an absent one, so that a threshold of 0 stands for 4096.  The threshold
    of a script-processor backend that it creates is therefore positive, and
    such a backend neither plays nor notifies while its buffer is empty: a
    pull returns silence and leaves it as it was. *)
Theorem created_node_waits_for_data (env : Index.Environment) (context : AudioContext.t)
    nChannels options resources (node : FeederNode.t A R) b outputBuffer :
  Index.createNode env context nChannels options
  = Some (resources, Returned (Resolved node)) →
  FeederNode._backend node = FeederNode.ScriptProcessor b →
  ScriptProcessorBackend.getCurrentBufferFill b = 0 →
  length outputBuffer = ScriptProcessorBackend.nChannels b →
  Index.createNode env context nChannels options
  = Index.createNode env context nChannels (without_zeros options)
  ∧ (0 < ScriptProcessorBackend.bufferThreshold b)%Z
  ∧ ScriptProcessorBackend.state b = READY
  ∧ ScriptProcessorBackend._playNext outputBuffer b = Ok (silence outputBuffer, b).
Proof.
  intros Hcreate Hbackend Hfill Hlen.
  assert (Index.createNode (A:=A) (R:=R) env context nChannels options
          = Index.createNode env context nChannels (without_zeros options)) as Hsame.
  { unfold Index.createNode, without_zeros.
    cbn [Index.batchSize Index.bufferThreshold Index.bufferLength Index.bufferType
         Index.resampConverterType Index.inputSampleRate].
    by rewrite !or_number_nonzero. }
  split; [done|].
  assert ((0 < ScriptProcessorBackend.bufferThreshold b)%Z
          ∧ ScriptProcessorBackend.state b = READY) as [Hthr Hst].
  { revert Hcreate. unfold Index.createNode.
    fold (effective_bufferThreshold options) (effective_bufferLength options).
    destruct (Index.validate _ _ _ _ _ _ _) as [[]|e|] eqn:Hvalid; [|done..].
    apply validate_in_range in Hvalid. destruct Hvalid as [_ _ _ [Hthr _] _ _ _].
    destruct nChannels as [N|]; [|done].
    destruct (Number.to_nat N) as [n|]; [|done].
    destruct (Number.to_nat _) as [bs|]; [|done].
    destruct (Number.to_Z (effective_bufferLength options)) as [len|]; [|done].
    destruct (Number.to_Z (effective_bufferThreshold options)) as [thr|] eqn:Hz; [|done].
    pose proof (not_below_to_Z 0 _ _ Hthr Hz) as Hthr0.
    pose proof (truthy_to_Z _ _
                  (or_number_truthy (Index.bufferThreshold options) (Number.Num 4096)
                     eq_refl) Hz) as Hnz.
    unfold Index.createBackend, ScriptProcessorBackend.new.
    destruct (Index.AudioWorklet env).
    - destruct (Index.createAudioWorklet _ _ _ _ _ _) as [w|?|]; simpl; [|done..].
      destruct (Index.createResampler _ _ _ _ _) as [r|?|]; [|done..].
      intros [= _ <-]. revert Hbackend. unfold FeederNode.new. by destruct r.
    - destruct (of_call _) as [[]| |]; simpl; [|done..].
      destruct (Buffer.new _ _ _) as [buf| |]; simpl; [|done..].
      destruct (Index.createResampler _ _ _ _ _) as [r|?|]; [|done..].
      intros [= _ <-]. revert Hbackend. unfold FeederNode.new.
      destruct r; simpl; intros [= <-]; simpl; split; (done || lia). }
  do 2 (split; [done|]).
  destruct b as [bs nc thr ty buf st calls].
  unfold ScriptProcessorBackend.getCurrentBufferFill in Hfill. simpl in *. subst st.
  unfold ScriptProcessorBackend._playNext. rewrite script_updateState. simpl.
  rewrite Hfill. rewrite decide_False by lia.
  unfold notifications. rewrite (decide_True (P:=READY = READY)) by done.
  rewrite app_nil_r, channels_of_event by done. simpl.
  by rewrite writeSilence_silence.
Qed.
End IndexExtras.

(** * Further properties of the node *)

Section NodeExtras.
Context {A R : Type} `{!Sample A, !RingBuffer A R}.

(** X19 (FeederNode._onResampleComplete, getCurrentBufferFill, bufferLength,
    clearBuffer; ScriptProcessorBackend.feed; AudioWorkletBackend.feed,
    getCurrentBufferFill).  What the node reports after resampled data has
    reached it depends on its backend.  Over a script-processor backend with
    the queue the data is buffered at once: the fill and the buffer length
    that the node reports have both grown by the frames fed, and after
    [clearBuffer] the fill is 0.  Over a worklet backend the data is only
    posted to the processor: the node still reports the fill and the buffer
    length it reported before.  No hook is called in either case. *)
Theorem node_fill_after_feed (node : FeederNode.t A R) data :
  (∀ b q,
     FeederNode._backend node = FeederNode.ScriptProcessor b →
     ScriptProcessorBackend._buffer b = Buffer.Queue q →
     valid q → interleaved (AudioQueue._nChannels q) data →
     let fill := AudioQueue.getNReadableSamples q + length data / AudioQueue._nChannels q in
     ∃ node',
       FeederNode._onResampleComplete data node = Ok node'
       ∧ FeederNode.getCurrentBufferFill node' = (Number.of_nat fill, node')
       ∧ FeederNode.bufferLength node' = Number.of_nat fill
       ∧ (FeederNode.getCurrentBufferFill (FeederNode.clearBuffer node')).1 = Number.of_nat 0
       ∧ FeederNode.hooks node' = FeederNode.hooks node)
  ∧ (∀ b,
       FeederNode._backend node = FeederNode.AudioWorklet b →
       ∃ node' b',
         FeederNode._onResampleComplete data node = Ok node'
         ∧ FeederNode._backend node' = FeederNode.AudioWorklet b'
         ∧ (AudioWorkletBackend.state b ≠ UNINITIALIZED →
            AudioWorkletBackend.port b' = AudioWorkletBackend.port b ++ [Message.feed data])
         ∧ (FeederNode.getCurrentBufferFill node').1
           = (FeederNode.getCurrentBufferFill node).1
         ∧ FeederNode.bufferLength node' = FeederNode.bufferLength node
         ∧ FeederNode.hooks node' = FeederNode.hooks node).
Proof.
  destruct node as [resampler backend hooks]. split.
  - intros b q. simpl. intros -> Hb Hq Hdata.
    destruct b as [bs nc thr ty buf st calls]. simpl in Hb. subst buf.
    destruct (feed_queue bs nc thr ty q st calls data Hq Hdata)
      as (q' & Hfeed & Hv & HN & Hc & Hl).
    unfold FeederNode._onResampleComplete. cbn [FeederNode._backend].
    rewrite Hfeed. cbn [mbind Result_bind]. eexists. split; [done|].
    unfold FeederNode.getCurrentBufferFill, FeederNode.bufferLength,
      FeederNode.clearBuffer, ScriptProcessorBackend.getCurrentBufferFill,
      ScriptProcessorBackend.bufferLength, AudioQueue.bufferLength in *.
    cbn. unfold AudioQueue.bufferLength, AudioQueue.getNReadableSamples in *.
    rewrite Hl. done.
  - intros b. simpl. intros ->. unfold FeederNode._onResampleComplete. simpl.
    eexists _, _. split; [done|]. split; [done|].
    unfold AudioWorkletBackend.feed, FeederNode.getCurrentBufferFill,
      FeederNode.bufferLength.
    case_decide; simpl; done.
Qed.
End NodeExtras.

(** * The theorems at concrete inputs *)

Lemma stereo_run_ok : Forall (op_ok 2) stereo_run.
Proof.
  repeat apply Forall_cons_2; try apply Forall_nil_2; split; simpl; try done.
  - by exists 3.
  - by exists 1.
  - repeat constructor.
Defined.

Lemma stereo_run_cleared_callable : Forall (op_callable 2) stereo_run_cleared.
Proof.
  repeat apply Forall_cons_2; try apply Forall_nil_2; simpl; try done.
  - by exists 3.
  - by exists 1.
Defined.

Lemma fifo_reads_reconstruct_writes_stereo :
  AudioQueue.new 16384 2 = Ok (AudioQueue.mk (A:=pcm) [] 2 16384 0)
  ∧ Forall (op_ok 2) stereo_run
  ∧ Forall (λ o, is_clear o = false) stereo_run
  ∧ ∃ evs q', run stereo_run (AudioQueue.mk [] 2 16384 0) = Ok (evs, q')
      ∧ Forall (event_ok 2) evs
      ∧ ∀ j, j < 2 →
          delivered j evs ++ channel_of 2 j (contents q') = channel_of 2 j (written stereo_run).
Proof.
  assert (Forall (λ o : op, is_clear o = false) stereo_run) as Hnc
    by (repeat constructor).
  split; [reflexivity|]. split; [exact stereo_run_ok|]. split; [exact Hnc|].
  exact (proj1 (fifo_reads_reconstruct_writes 16384 2 stereo_run _ eq_refl
                  stereo_run_ok Hnc)).
Defined.

(** What that run returns: the three reads hand over [1 3], [5 7 0] and
    nothing on the left channel, [2 4], [6 8 0] and nothing on the right. *)
Example stereo_run_returns :
  ('(evs, q') ← run stereo_run (AudioQueue.mk [] 2 16384 0);
   Ok (ev_ret <$> evs, delivered 0 evs, delivered 1 evs, contents q'))
  = Ok ([RWrite (false, 3); RRead [[V 1; V 3]; [V 2; V 4]]; RWrite (false, 2);
         RRead [[V 5; V 7; V 0]; [V 6; V 8; V 0]]; RRead [[]; []]],
        [V 1; V 3; V 5; V 7], [V 2; V 4; V 6; V 8], []).
Proof. vm_compute. reflexivity. Qed.

Lemma queue_accounting_stereo :
  AudioQueue.new 16384 2 = Ok (AudioQueue.mk (A:=pcm) [] 2 16384 0)
  ∧ Forall (op_callable 2) stereo_run_cleared
  ∧ ∃ evs q', run stereo_run_cleared (AudioQueue.mk [] 2 16384 0) = Ok (evs, q')
      ∧ AudioQueue._nChannels q' = 2
      ∧ AudioQueue.getNReadableSamples q' + frames_read evs + frames_discarded evs
        = frames_written 2 evs
      ∧ AudioQueue.getNReadableSamples q' * 2 = length (contents q')
      ∧ Forall (event_ok 2) evs.
Proof.
  split; [reflexivity|]. split; [exact stereo_run_cleared_callable|].
  exact (queue_accounting 16384 2 stereo_run_cleared _ eq_refl stereo_run_cleared_callable).
Defined.

Lemma first_pull_with_zero_threshold_stereo :
  ScriptProcessorBackend._playNext [[V 9; V 9; V 9; V 9]; [V 9; V 9; V 9; V 9]]
    (stereo_backend READY 0 empty_queue)
  = Ok ([[V 0; V 0; V 0; V 0]; [V 0; V 0; V 0; V 0]],
        ScriptProcessorBackend.mk 4 2 0 "fifo_queue" (Buffer.Queue empty_queue) PLAYING
          [PLAYING]).
Proof.
  assert (Forall (λ ch : list pcm, length ch = 4)
            [[V 9; V 9; V 9; V 9]; [V 9; V 9; V 9; V 9]]) as Hall
    by (repeat constructor).
  exact (proj1 (first_pull_with_zero_threshold (A:=pcm) (R:=Empty_set))
           (stereo_backend READY 0 empty_queue) empty_queue
           [[V 9; V 9; V 9; V 9]; [V 9; V 9; V 9; V 9]]
           eq_refl eq_refl eq_refl eq_refl eq_refl Hall).
Defined.

Lemma clear_then_pull_starves_stereo :
  let b1 := ScriptProcessorBackend.clearBuffer (stereo_backend PLAYING 2 loaded_queue) in
  ScriptProcessorBackend.getCurrentBufferFill (stereo_backend PLAYING 2 loaded_queue) = 3
  ∧ ScriptProcessorBackend.getCurrentBufferFill b1 = 0
  ∧ ∃ b2, ScriptProcessorBackend._playNext [[V 9; V 9; V 9; V 9]; [V 9; V 9; V 9; V 9]] b1
          = Ok (silence [[V 9; V 9; V 9; V 9]; [V 9; V 9; V 9; V 9]], b2)
      ∧ ScriptProcessorBackend.state b2 = STARVED
      ∧ ScriptProcessorBackend.onStateChange b2 = [STARVED]
      ∧ ScriptProcessorBackend.getCurrentBufferFill b2 = 0.
Proof.
  cbn zeta. split; [reflexivity|].
  destruct (proj1 (clear_then_pull_starves (A:=pcm) (R:=Empty_set))
              (stereo_backend PLAYING 2 loaded_queue) loaded_queue eq_refl)
    as (Hfill & _ & _ & _ & Hpull).
  split; [exact Hfill|].
  exact (Hpull eq_refl [[V 9; V 9; V 9; V 9]; [V 9; V 9; V 9; V 9]] eq_refl).
Defined.


Lemma queue_health_is_one_or_NaN_stereo :
  FeederNode.bufferLength (stereo_node loaded_queue) = Number.of_nat 3
  ∧ same_number (FeederNode.getBufferHealth (stereo_node loaded_queue)).1 (Number.Num 1)
  ∧ (FeederNode.getBufferHealth (stereo_node empty_queue)).1 = Number.NaN.
Proof.
  destruct (queue_health_is_one_or_NaN (stereo_node loaded_queue)
              (stereo_backend PLAYING 2 loaded_queue) loaded_queue eq_refl eq_refl)
    as (Hlen & _ & Hone & _).
  destruct (queue_health_is_one_or_NaN (stereo_node empty_queue)
              (stereo_backend PLAYING 2 empty_queue) empty_queue eq_refl eq_refl)
    as (_ & _ & _ & Hnan).
  split; [exact Hlen|]. split; [apply Hone; simpl; lia|by apply Hnan].
Defined.

(** * The further properties at concrete inputs *)

Lemma loaded_queue_valid : valid loaded_queue.
Proof.
  split; simpl; [lia| |reflexivity].
  apply Forall_cons_2; [by exists 3|apply Forall_nil_2].
Defined.

Lemma split_queue_valid : valid split_queue.
Proof.
  split; simpl; [lia| |reflexivity].
  apply Forall_cons_2; [by exists 1|].
  apply Forall_cons_2; [by exists 2|apply Forall_nil_2].
Defined.

Lemma empty_queue_valid : valid empty_queue.
Proof. split; simpl; [lia|apply Forall_nil_2|reflexivity]. Defined.

Lemma loaded_run_callable : Forall (op_callable 2) loaded_run.
Proof.
  repeat apply Forall_cons_2; try apply Forall_nil_2; simpl; try done.
  by exists 1.
Defined.

Lemma stereo_session_ok : Forall (backend_op_ok 2) stereo_session.
Proof.
  repeat apply Forall_cons_2; try apply Forall_nil_2; simpl; try done.
  - by exists 3.
  - by exists 1.
Defined.

Lemma read_with_too_few_arrays_stereo :
  AudioQueue.read 2 (Some [[V 9; V 9]]) loaded_queue = Throw TypeError
  ∧ AudioQueue.read 2 (Some [[V 9; V 9]]) empty_queue = Ok ([[V 0; V 0]], empty_queue).
Proof.
  split.
  - apply (proj1 (read_with_too_few_arrays 2 [[V 9; V 9]] loaded_queue loaded_queue_valid
                    ltac:(simpl; lia))).
    simpl; lia.
  - apply (proj2 (read_with_too_few_arrays 2 [[V 9; V 9]] empty_queue empty_queue_valid
                    ltac:(simpl; lia))).
    reflexivity.
Defined.

Lemma chunking_cannot_be_observed_stereo :
  contents loaded_queue = contents split_queue
  ∧ ∃ evs q1' q2',
      run loaded_run loaded_queue = Ok (evs, q1')
      ∧ run loaded_run split_queue = Ok (evs, q2')
      ∧ contents q1' = contents q2'.
Proof.
  split; [reflexivity|].
  exact (chunking_cannot_be_observed 2 loaded_run loaded_queue split_queue
           loaded_queue_valid split_queue_valid eq_refl eq_refl eq_refl
           loaded_run_callable).
Defined.

Lemma empty_write_is_invisible_stereo :
  ∃ q0 out q' q0',
    AudioQueue.write [] loaded_queue = Ok ((false, 3), q0)
    ∧ AudioQueue._queue q0 = AudioQueue._queue loaded_queue ++ [[]]
    ∧ AudioQueue.read 2 None loaded_queue = Ok (out, q')
    ∧ AudioQueue.read 2 None q0 = Ok (out, q0')
    ∧ contents q0' = contents q'
    ∧ AudioQueue.getNReadableSamples q0' = AudioQueue.getNReadableSamples q'.
Proof. exact (empty_write_is_invisible 2 None loaded_queue loaded_queue_valid I). Defined.

Lemma consecutive_reads_compose_stereo :
  ∃ out1 q1 out2 q2 out q',
    AudioQueue.read 1 None loaded_queue = Ok (out1, q1)
    ∧ AudioQueue.read 2 None q1 = Ok (out2, q2)
    ∧ AudioQueue.read 3 None loaded_queue = Ok (out, q')
    ∧ contents q2 = contents q'
    ∧ AudioQueue.getNReadableSamples q2 = AudioQueue.getNReadableSamples q'
    ∧ ∀ j, j < 2 →
        ∃ a b, out1 !! j = Some a ∧ out2 !! j = Some b ∧ out !! j = Some (a ++ b)
               ∧ length a = 1 ∧ length b = 2.
Proof.
  exact (consecutive_reads_compose 1 2 loaded_queue loaded_queue_valid
           ltac:(lia) ltac:(lia) ltac:(simpl; lia)).
Defined.

Lemma pull_plays_the_next_batch_stereo :
  ∃ out b' q',
    ScriptProcessorBackend._playNext stereo_output (stereo_backend READY 2 loaded_queue)
    = Ok (out, b')
    ∧ length out = 2
    ∧ (∀ j, j < 2 →
         out !! j = Some (take 3 (channel_of 2 j (contents loaded_queue))
                          ++ replicate 1 zero))
    ∧ ScriptProcessorBackend.state b' = PLAYING
    ∧ ScriptProcessorBackend.onStateChange b' = [PLAYING]
    ∧ ScriptProcessorBackend._buffer b' = Buffer.Queue q'
    ∧ ScriptProcessorBackend.getCurrentBufferFill b' = 0
    ∧ contents q' = [].
Proof.
  assert (Forall (λ ch : list pcm, length ch = 4) stereo_output) as Hall
    by (repeat constructor).
  exact (pull_plays_the_next_batch (R:=Empty_set) (stereo_backend READY 2 loaded_queue)
           loaded_queue stereo_output eq_refl loaded_queue_valid eq_refl eq_refl Hall
           eq_refl).
Defined.

Lemma pull_below_threshold_is_silent_stereo :
  ScriptProcessorBackend._playNext stereo_output (stereo_backend STARVED 2 empty_queue)
  = Ok ([[V 0; V 0; V 0; V 0]; [V 0; V 0; V 0; V 0]], stereo_backend STARVED 2 empty_queue).
Proof.
  exact (pull_below_threshold_is_silent (stereo_backend STARVED 2 empty_queue) stereo_output
           (or_intror eq_refl) eq_refl eq_refl).
Defined.

Lemma feed_only_buffers_stereo :
  ∃ b' q',
    ScriptProcessorBackend.feed [V 7; V 8] (stereo_backend PLAYING 2 loaded_queue) = Ok b'
    ∧ ScriptProcessorBackend._buffer b' = Buffer.Queue q'
    ∧ valid q' ∧ contents q' = [V 1; V 2; V 3; V 4; V 5; V 6; V 7; V 8]
    ∧ ScriptProcessorBackend.getCurrentBufferFill b' = 4
    ∧ ScriptProcessorBackend.state b' = PLAYING
    ∧ ScriptProcessorBackend.bufferThreshold b' = 2%Z
    ∧ ScriptProcessorBackend.onStateChange b' = [].
Proof.
  exact (feed_only_buffers (R:=Empty_set) (stereo_backend PLAYING 2 loaded_queue)
           loaded_queue [V 7; V 8] eq_refl loaded_queue_valid
           (ex_intro _ 1 eq_refl)).
Defined.

Lemma notifications_alternate_stereo :
  ∃ b' k,
    backend_run stereo_session (browser_backend READY 2 empty_queue) = Ok b'
    ∧ k ≤ 4
    ∧ ScriptProcessorBackend.state b' = state_at k
    ∧ ScriptProcessorBackend.onStateChange b' = expected_log k
    ∧ on_state_changes (ScriptProcessorBackend.onStateChange b') (stereo_node empty_queue)
      = Ok (FeederNode.mk FeederNode.MainThreadResampler
              (FeederNode.ScriptProcessor (stereo_backend PLAYING 2 empty_queue))
              (ScriptProcessorBackend.onStateChange b')).
Proof.
  exact (notifications_alternate (A:=pcm) (R:=Empty_set) browser 2 256 16384 2
           stereo_session (browser_backend READY 2 empty_queue) (stereo_node empty_queue)
           eq_refl stereo_session_ok).
Defined.

(** What that session notifies: Playing at the first pull with data, Starved
    at the pull on the drained queue, Playing again at the end. *)
Example stereo_session_notifies :
  (b ← ScriptProcessorBackend.new (A:=pcm) (R:=Empty_set) browser 2 256 16384 2 "fifo_queue";
   b ← backend_run stereo_session b;
   Ok (ScriptProcessorBackend.state b, ScriptProcessorBackend.onStateChange b))
  = Ok (PLAYING, [PLAYING; STARVED; PLAYING]).
Proof. vm_compute. reflexivity. Qed.

Lemma before_init_fresh :
  WorkletProcessor.process stereo_output (WorkletProcessor.new (A:=pcm) (R:=Empty_set))
  = Ok ([[V 0; V 0; V 0; V 0]; [V 0; V 0; V 0; V 0]], WorkletProcessor.new)
  ∧ WorkletProcessor._onMessage (Message.feed [V 1; V 2])
      (WorkletProcessor.new (A:=pcm) (R:=Empty_set))
    = Throw TypeError.
Proof.
  destruct (before_init (WorkletProcessor.new (A:=pcm) (R:=Empty_set)) stereo_output
              eq_refl eq_refl) as (Hprocess & Hfeed & _).
  split; [exact Hprocess|exact (Hfeed [V 1; V 2])].
Defined.

Lemma processor_feed_reports_fill_stereo :
  ∃ p' q' b',
    WorkletProcessor._onMessage (Message.feed [V 7; V 8]) stereo_processor = Ok p'
    ∧ WorkletProcessor._buffer p' = Some (Buffer.Queue q')
    ∧ contents q' = [V 1; V 2; V 3; V 4; V 5; V 6; V 7; V 8]
    ∧ WorkletProcessor.port p' = [Message.bufferFillUpdate 4 None]
    ∧ WorkletProcessor.state p' = READY
    ∧ WorkletProcessor.bufferThreshold p' = Some 2%Z
    ∧ AudioWorkletBackend._onMessage (Message.bufferFillUpdate 4 None)
        stereo_worklet_backend = Ok b'
    ∧ AudioWorkletBackend.callbacks b' = []
    ∧ (AudioWorkletBackend.getCurrentBufferFill b').1 = 4.
Proof.
  exact (processor_feed_reports_fill stereo_processor loaded_queue [V 7; V 8]
           stereo_worklet_backend eq_refl loaded_queue_valid (ex_intro _ 1 eq_refl)).
Defined.

Lemma fill_query_round_trip_stereo :
  (AudioWorkletBackend.getCurrentBufferFill stereo_worklet_backend).1 = 0
  ∧ ∃ answer p' b2,
      WorkletProcessor._onMessage (Message.getBufferFill None) stereo_processor = Ok p'
      ∧ WorkletProcessor.port p' = [answer]
      ∧ WorkletProcessor._buffer p' = Some (Buffer.Queue loaded_queue)
      ∧ AudioWorkletBackend._onMessage answer
          (AudioWorkletBackend.getCurrentBufferFill stereo_worklet_backend).2 = Ok b2
      ∧ (AudioWorkletBackend.getCurrentBufferFill b2).1 = 3.
Proof.
  pose proof (fill_query_round_trip stereo_worklet_backend stereo_processor
                (Buffer.Queue loaded_queue) eq_refl) as (Hstale & _ & Hanswer).
  split; [exact Hstale|exact Hanswer].
Defined.

Lemma queue_options_in_range :
  in_range (Some (Number.Num 2)) (effective_batchSize script_env queue_options)
    (effective_bufferThreshold queue_options) (effective_bufferLength queue_options)
    (effective_converterType queue_options)
    (effective_inputSampleRate browser queue_options) "fifo_queue".
Proof.
  split; try (split; right; right; vm_compute; discriminate);
    try (right; right; vm_compute; discriminate).
  - exists (Number.Num 2). split; [reflexivity|].
    split; right; right; vm_compute; discriminate.
  - exists 1024%Q. split; [reflexivity|].
    do 3 apply Exists_cons_tl. apply Exists_cons_hd. reflexivity.
  - by right.
Defined.

Lemma createQueueNode_outcome_script :
  Index.createQueueNode (A:=pcm) (R:=Empty_set) script_env browser (Some (Number.Num 2))
    queue_options
  = Some ([Index.backend_created; Index.resampler_created],
          Returned (Resolved (FeederNode.mk FeederNode.MainThreadResampler
                                (FeederNode.ScriptProcessor created_backend) []))).
Proof.
  destruct (createQueueNode_outcome (A:=pcm) (R:=Empty_set) script_env browser
              (Number.Num 2) queue_options 2 1024 192000 4096 queue_options_in_range
              eq_refl eq_refl eq_refl eq_refl)
    as (resources & promise & Hcreated & _ & Hscript & _).
  destruct (Hscript eq_refl eq_refl FeederNode.MainThreadResampler eq_refl) as [-> ->].
  exact Hcreated.
Defined.

Lemma created_node_waits_for_data_script :
  Index.createQueueNode (A:=pcm) (R:=Empty_set) script_env browser (Some (Number.Num 2))
    queue_options
  = Some ([Index.backend_created; Index.resampler_created],
          Returned (Resolved (FeederNode.mk FeederNode.MainThreadResampler
                                (FeederNode.ScriptProcessor created_backend) [])))
  ∧ ScriptProcessorBackend._playNext stereo_output created_backend
    = Ok ([[V 0; V 0; V 0; V 0]; [V 0; V 0; V 0; V 0]], created_backend).
Proof.
  split; [reflexivity|].
  exact (proj2 (proj2 (proj2
           (created_node_waits_for_data (A:=pcm) (R:=Empty_set) script_env browser
              (Some (Number.Num 2))
              {| Index.batchSize := Some (Number.Num 1024);
                 Index.bufferThreshold := Some (Number.Num 0);
                 Index.bufferLength := None; Index.bufferType := Some "fifo_queue";
                 Index.resampConverterType := None; Index.inputSampleRate := None |}
              [Index.backend_created; Index.resampler_created]
              (FeederNode.mk FeederNode.MainThreadResampler
                 (FeederNode.ScriptProcessor created_backend) [])
              created_backend stereo_output eq_refl eq_refl eq_refl eq_refl)))).
Defined.

Lemma fresh_queue_backend_stereo :
  ∃ b, ScriptProcessorBackend.new (A:=pcm) (R:=Empty_set) browser 2 256 16384 2 "fifo_queue"
       = Ok b
    ∧ b = browser_backend READY 2 empty_queue
    ∧ ScriptProcessorBackend.bufferLength b = 0
    ∧ ScriptProcessorBackend.getCurrentBufferFill b = 0
    ∧ ∀ t, (ScriptProcessorBackend.setBufferThreshold t b).1 = Ok () ↔ t = 0%Z.
Proof.
  exact (proj2 (proj2 (fresh_queue_backend (A:=pcm) (R:=Empty_set) browser 2 256 16384 2)
                  eq_refl)
           ltac:(lia) ltac:(lia)).
Defined.

Lemma init_makes_ready_stereo :
  WorkletProcessor._onMessage (Message.init 2 16384 0 "fifo_queue") stereo_processor
  = Ok (WorkletProcessor.mk (Some 0%Z) READY "fifo_queue"
          (Some (Buffer.Queue empty_queue)) [Message.stateChange READY]).
Proof.
  exact (proj1 (proj2 (init_makes_ready stereo_processor 2 16384 0 stereo_worklet_backend
                         (stereo_node empty_queue))
                  ltac:(lia) ltac:(lia))).
Defined.

Lemma node_fill_after_feed_stereo :
  ∃ node',
    FeederNode._onResampleComplete [V 7; V 8] (stereo_node loaded_queue) = Ok node'
    ∧ FeederNode.getCurrentBufferFill node' = (Number.of_nat 4, node')
    ∧ FeederNode.bufferLength node' = Number.of_nat 4
    ∧ (FeederNode.getCurrentBufferFill (FeederNode.clearBuffer node')).1 = Number.of_nat 0
    ∧ FeederNode.hooks node' = [].
Proof.
  exact (proj1 (node_fill_after_feed (stereo_node loaded_queue) [V 7; V 8])
           (stereo_backend PLAYING 2 loaded_queue) loaded_queue eq_refl eq_refl
           loaded_queue_valid (ex_intro _ 1 eq_refl)).
Defined.
